(** * Shared discovery store (examples/parallelized-ai-agents/scripts/shared_memory.py)

    A shallow embedding of [AgentMemory]: a JSON document kept in a file,
    read, changed in memory and written back by every operation, under an
    advisory lock kept in a sibling file.

    - Part 1: JSON values and the Python built-ins the module applies to them.
    - Part 2: the world (files, clock), the [Py] monad of effects and errors.
    - Part 3: [AgentDiscovery] and the methods of [AgentMemory].
    - Part 4: the documents of the store, scripts of calls of one process.
    - Part 5: several processes interleaved under the lock; what a call
      writes and leaves, serial runs, the example workflow.
    - Part 6: sample data.
    - Part 7: the properties. *)

From Stdlib Require Import ZArith String Ascii List Lia.
From Stdlib Require Import Floats.SpecFloat.
From Stdlib Require OrdersEx RelationClasses.
From stdpp Require Import base option gmap strings list fin_maps pretty.

Local Open Scope string_scope.
Local Open Scope Z_scope.
Set Warnings "-register-all".

(** ** Part 1. JSON values and Python built-ins *)

(** What [json.load] returns. A Python [dict] keeps its keys in insertion
    order and [json.dump]/[json.load] preserve that order, so an object is a
    list of pairs in insertion order; a [dict] never holds a key twice (see
    [unique_keys]). Strings are sequences of characters. *)
Inductive json : Type :=
| JNull
| JBool (b : bool)
| JInt (n : Z)
| JFloat (x : spec_float)
| JStr (s : string)
| JArr (xs : list json)
| JObj (kvs : list (string * json)).

(** The exceptions the module can let escape. *)
Inductive exn : Type :=
| KeyError
| TypeError
| AttributeError
| FileNotFoundError
| NotADirectoryError
| JSONDecodeError
| ValueError.

Inductive result (A : Type) : Type :=
| Ok (a : A)
| Raise (e : exn).
Arguments Ok {A} a.
Arguments Raise {A} e.

Definition result_bind {A B} (r : result A) (k : A -> result B) : result B :=
  match r with
  | Ok a => k a
  | Raise e => Raise e
  end.

(** Insertion-ordered dictionaries with string keys. *)
Module Dict.
Section Ops.
Context {V : Type}.

(** [d.get(k)] *)
Fixpoint get (k : string) (d : list (string * V)) : option V :=
  match d with
  | [] => None
  | (k', v) :: d' => if decide (k' = k) then Some v else get k d'
  end.

(** [k in d] *)
Definition mem (k : string) (d : list (string * V)) : bool :=
  match get k d with Some _ => true | None => false end.

(** [d[k] = v]: an existing key keeps its position, a new key goes last. *)
Fixpoint set (k : string) (v : V) (d : list (string * V)) : list (string * V) :=
  match d with
  | [] => [(k, v)]
  | (k', v') :: d' =>
      if decide (k' = k) then (k, v) :: d' else (k', v') :: set k v d'
  end.

Definition keys (d : list (string * V)) : list string := map fst d.
Definition values (d : list (string * V)) : list V := map snd d.

(** The lists that stand for a Python [dict]. *)
Definition unique_keys (d : list (string * V)) : Prop := NoDup (keys d).
End Ops.
End Dict.

(** Is [sub] a contiguous part of [s]? ([sub in s] on two [str]) *)
Fixpoint is_substring (sub s : string) : bool :=
  String.prefix sub s ||
  match s with
  | EmptyString => false
  | String _ s' => is_substring sub s'
  end.

(** [o[k]] for a [str] key [k]. *)
Definition getitem (o : json) (k : string) : result json :=
  match o with
  | JObj d => match Dict.get k d with Some v => Ok v | None => Raise KeyError end
  | _ => Raise TypeError
  end.

(** [o[k] = v] for a [str] key [k]; the changed object. *)
Definition setitem (o : json) (k : string) (v : json) : result json :=
  match o with
  | JObj d => Ok (JObj (Dict.set k v d))
  | _ => Raise TypeError
  end.

(** [o.get(k, default)] *)
Definition get_default (o : json) (k : string) (default : json) : result json :=
  match o with
  | JObj d => Ok (match Dict.get k d with Some v => v | None => default end)
  | _ => Raise AttributeError
  end.

(** [o.setdefault(k, default)]: the value now under [k] and the changed
    object. *)
Definition setdefault (o : json) (k : string) (default : json)
  : result (json * json) :=
  match o with
  | JObj d =>
      match Dict.get k d with
      | Some v => Ok (v, o)
      | None => Ok (default, JObj (Dict.set k default d))
      end
  | _ => Raise AttributeError
  end.

(** [o.items()] and [o.values()] *)
Definition items (o : json) : result (list (string * json)) :=
  match o with
  | JObj d => Ok d
  | _ => Raise AttributeError
  end.

Definition values (o : json) : result (list json) :=
  match o with
  | JObj d => Ok (Dict.values d)
  | _ => Raise AttributeError
  end.

(** [k in o] for a [str] [k]: a key of a [dict], an element of a [list], a
    part of a [str]; the other values are not iterable. *)
Definition contains (o : json) (k : string) : result bool :=
  match o with
  | JObj d => Ok (Dict.mem k d)
  | JArr xs =>
      Ok (existsb (fun x => match x with
                            | JStr s => bool_decide (s = k)
                            | _ => false
                            end) xs)
  | JStr s => Ok (is_substring k s)
  | _ => Raise TypeError
  end.

(** [o.append(v)] *)
Definition append (o : json) (v : json) : result json :=
  match o with
  | JArr xs => Ok (JArr (xs ++ [v]))
  | _ => Raise AttributeError
  end.

(** [len(o)] *)
Definition len (o : json) : result Z :=
  match o with
  | JObj d => Ok (Z.of_nat (length d))
  | JArr xs => Ok (Z.of_nat (length xs))
  | JStr s => Ok (Z.of_nat (String.length s))
  | _ => Raise TypeError
  end.

(** [sum(len(x) for x in xs)] *)
Fixpoint sum_len (xs : list json) : result Z :=
  match xs with
  | [] => Ok 0
  | x :: xs' =>
      result_bind (len x) (fun n =>
      result_bind (sum_len xs') (fun m => Ok (n + m)))
  end.

(** [a > b] as [max] asks it. Timestamps are [str], ordered character by
    character; for any other pair of values the model raises [TypeError]
    (Python also orders numbers and lists, which the store never writes as
    a timestamp). *)
Definition py_gt (a b : json) : result bool :=
  match a, b with
  | JStr s, JStr t => Ok (String.ltb t s)
  | _, _ => Raise TypeError
  end.

(** [max((f(x) for x in xs), default=default)]: the generator is consumed
    one element at a time, each new element compared with the greatest so
    far; the first greatest element is kept. *)
Fixpoint max_from {A} (f : A -> result json) (best : json) (xs : list A)
  : result json :=
  match xs with
  | [] => Ok best
  | x :: xs' =>
      result_bind (f x) (fun y =>
      result_bind (py_gt y best) (fun b =>
      max_from f (if b then y else best) xs'))
  end.

Definition py_max {A} (f : A -> result json) (xs : list A) (default : json)
  : result json :=
  match xs with
  | [] => Ok default
  | x :: xs' => result_bind (f x) (fun y => max_from f y xs')
  end.

(** ** Part 2. The world and the monad of effects *)

(** A file holds the text of a JSON value, kept here as the value
    [json.load] reads back from it, or nothing at all (a file just opened
    with mode ['w']). *)
Inductive file : Type :=
| Empty_file
| Json_file (j : json).

(** The file system is flat: paths are strings, and the one directory is
    the directory of the store, which exists (the constructor made it) and
    holds files only; permissions and the limits of the system (the length
    of a name, the room on the disk) are left out. So [open(path, 'w')]
    succeeds for the files of the store, and fails for a file whose name
    would put it into a directory below (see [open_new]). The clock
    is an oracle: the [n]-th reading of the time, by [datetime.utcnow().isoformat()]
    or by [int(time.time())], is fixed by the world; [ticks] counts the
    readings made so far. *)
Record World : Type := mkWorld {
  files : gmap string file;
  ticks : nat;
  utc_iso : nat -> string;
  unix_time : nat -> Z
}.

Definition with_files (fs : gmap string file) (w : World) : World :=
  mkWorld fs (ticks w) (utc_iso w) (unix_time w).

Definition tick (w : World) : World :=
  mkWorld (files w) (S (ticks w)) (utc_iso w) (unix_time w).

(** A computation changes the world and returns or raises; the world as the
    exception leaves it is kept. *)
Definition Py (A : Type) : Type := World -> result A * World.

#[global] Instance Py_ret : MRet Py := fun A (a : A) w => (Ok a, w).

#[global] Instance Py_bind : MBind Py := fun A B (k : A -> Py B) (m : Py A) w =>
  match m w with
  | (Ok a, w') => k a w'
  | (Raise e, w') => (Raise e, w')
  end.

Definition lift {A} (r : result A) : Py A := fun w => (r, w).

(** [try: body finally: cleanup] *)
Definition try_finally {A} (body : Py A) (cleanup : Py unit) : Py A := fun w =>
  match body w with
  | (r, w1) =>
      match cleanup w1 with
      | (Ok _, w2) => (r, w2)
      | (Raise e, w2) => (Raise e, w2)
      end
  end.

(** [datetime.utcnow().isoformat()] *)
Definition utcnow_isoformat : Py string := fun w =>
  (Ok (utc_iso w (ticks w)), tick w).

(** [int(time.time())] *)
Definition time_time_int : Py Z := fun w =>
  (Ok (unix_time w (ticks w)), tick w).

(** [path.exists()] *)
Definition path_exists (path : string) : Py bool := fun w =>
  (Ok (bool_decide (is_Some (files w !! path))), w).

(** [open(path, 'w')]: the file is created, or emptied. *)
Definition open_w (path : string) : Py unit := fun w =>
  (Ok tt, with_files (<[path := Empty_file]> (files w)) w).

(** [with open(path, 'w') as f: json.dump(j, f, indent=2)], for a file of
    the store. [json.dump] writes the text of every value of [json] that is
    within the limits of the interpreter (the digits of an integer, the
    depth of the nesting); a value beyond them, for which [json.dump] raises
    and leaves the file cut, is outside the model. *)
Definition json_dump (j : json) (path : string) : Py unit := fun w =>
  (Ok tt, with_files (<[path := Json_file j]> (files w)) w).

(** [with open(path, 'r') as f: json.load(f)] *)
Definition json_load (path : string) : Py json := fun w =>
  match files w !! path with
  | None => (Raise FileNotFoundError, w)
  | Some Empty_file => (Raise JSONDecodeError, w)
  | Some (Json_file j) => (Ok j, w)
  end.

(** The world a computation leaves, and what it returns. *)
Definition exec {A} (m : Py A) (w : World) : World := snd (m w).
Definition eval {A} (m : Py A) (w : World) : result A := fst (m w).

(** ** Part 3. The store *)

(** [pathlib], which the module takes from the standard library: only the
    four operations it calls, on paths kept as the strings [str] gives for
    them. [Path s] is the path made from the string [s]; [with_suffix]
    raises [ValueError] for a path without a name. *)
Class Pathlib : Type := {
  Path : string -> string;
  with_suffix : string -> string -> result string;
  parent : string -> string;
  joinpath : string -> string -> string
}.

(** What [open(directory / name, 'w')] answers for a file to be created in
    the directory of the store, when the name comes from a string of the
    caller: a path with a NUL character is refused with [ValueError] before
    the system is asked; a name with a [/] is a file of a directory below,
    and the system answers [NotADirectoryError] if the first part of the
    name is a file of the directory, [FileNotFoundError] if it is
    nothing. *)
Definition nul : string := String "000"%char EmptyString.

Fixpoint before_first (c : ascii) (s : string) : string :=
  match s with
  | EmptyString => EmptyString
  | String c' s' =>
      if Ascii.eqb c' c then EmptyString else String c' (before_first c s')
  end.

Definition check_file_name (is_file : string -> bool) (name : string)
  : result unit :=
  if is_substring nul name then Raise ValueError
  else if is_substring "/" name then
    if is_file (before_first "/" name) then Raise NotADirectoryError
    else Raise FileNotFoundError
  else Ok tt.

Definition open_new `{Pathlib} (directory name : string) : Py unit := fun w =>
  (check_file_name
     (fun part => bool_decide (is_Some (files w !! joinpath directory part)))
     name, w).

(** [with open(directory / name, 'w') as f: json.dump(j, f, indent=2)] for
    such a file. *)
Definition json_dump_as `{Pathlib} (j : json) (directory name : string)
  : Py unit :=
  _ ← open_new directory name;
  json_dump j (joinpath directory name).

(** [AgentDiscovery], after [__post_init__]: [tags] is a list. *)
Record AgentDiscovery : Type := mkAgentDiscovery {
  agent_id : string;
  key : string;
  value : json;
  timestamp : string;
  confidence : spec_float;
  tags : list string
}.

(** The float [1.0]. *)
Definition float_one : spec_float := S754_finite false 4503599627370496 (-52).

(** The generated [__init__] with its defaults, then [__post_init__]. *)
Definition AgentDiscovery_new (agent_id key : string) (value : json)
    (timestamp : string) (confidence : option spec_float)
    (tags : option (list string)) : AgentDiscovery :=
  mkAgentDiscovery agent_id key value timestamp
    (match confidence with Some c => c | None => float_one end)
    (match tags with Some ts => ts | None => [] end).

(** [dataclasses.asdict(discovery)] *)
Definition asdict (d : AgentDiscovery) : json :=
  JObj [ ("agent_id", JStr (agent_id d));
         ("key", JStr (key d));
         ("value", value d);
         ("timestamp", JStr (timestamp d));
         ("confidence", JFloat (confidence d));
         ("tags", JArr (map JStr (tags d))) ].

(** The attributes of an [AgentMemory] object. *)
Record AgentMemory : Type := mkAgentMemory {
  memory_path : string;
  lock_path : string
}.

(** The document [_initialize_memory] writes at time [created]. *)
Definition fresh_document (created : string) : json :=
  JObj [ ("discoveries", JObj []);
         ("conflicts", JArr []);
         ("decisions", JObj []);
         ("metadata", JObj [ ("created", JStr created);
                             ("version", JStr "1.0") ]) ].

Definition _initialize_memory (self : AgentMemory) : Py unit :=
  present ← path_exists (memory_path self);
  if negb present then
    created ← utcnow_isoformat;
    json_dump (fresh_document created) (memory_path self)
  else mret tt.

(** [AgentMemory(memory_path)]: the path is made from the string, then the
    lock path from the path; [mkdir] makes the directory of the store,
    which the flat file system has by itself. *)
Definition AgentMemory_new `{Pathlib} (path : string) : Py AgentMemory :=
  let path := Path path in
  lock ← lift (with_suffix path ".lock");
  let self := mkAgentMemory path lock in
  _ ← _initialize_memory self;
  mret self.

(** [_acquire_lock]: the lock file is opened for writing, then locked. In a
    run of one process nobody else holds the lock, so [flock] returns at
    once whatever [exclusive] is; part 5 has the waiting. *)
Definition _acquire_lock (self : AgentMemory) (exclusive : bool) : Py unit :=
  open_w (lock_path self).

Definition _release_lock (self : AgentMemory) : Py unit := mret tt.

(** [for x in xs: s = f(s, x)] *)
Fixpoint for_each {A S} (f : S -> A -> Py S) (xs : list A) (s : S) : Py S :=
  match xs with
  | [] => mret s
  | x :: xs' => s' ← f s x; for_each f xs' s'
  end.

(** The conflict entry of lines 82-87. *)
Definition conflict_record (discovery : AgentDiscovery) (other_agent : string)
    (existing : json) (now : string) : json :=
  JObj [ ("key", JStr (key discovery));
         ("agents", JArr [JStr (agent_id discovery); JStr other_agent]);
         ("values", JArr [value discovery; existing]);
         ("timestamp", JStr now) ].

(** One turn of the loop of lines 79-89, on the document and
    [conflict_found]. *)
Definition conflict_step (discovery : AgentDiscovery)
    (acc : json * bool) (item : string * json) : Py (json * bool) :=
  let '(memory, conflict_found) := acc in
  let '(other_agent, discoveries) := item in
  if bool_decide (other_agent ≠ agent_id discovery) then
    held ← lift (contains discoveries (key discovery));
    if held : bool then
      entry ← lift (getitem discoveries (key discovery));
      existing ← lift (getitem entry "value");
      now ← utcnow_isoformat;
      conflicts ← lift (getitem memory "conflicts");
      conflicts ← lift (append conflicts
                          (conflict_record discovery other_agent existing now));
      memory ← lift (setitem memory "conflicts" conflicts);
      mret (memory, true)
    else mret (memory, conflict_found)
  else mret (memory, conflict_found).

(** Lines 75-98: what [record_discovery] does to the loaded document, and
    [conflict_found]. The namespace [setdefault] returns is the object kept
    in [memory["discoveries"]], so the assignment of line 92 is written
    back there. *)
Definition record_discovery_update (discovery : AgentDiscovery)
    (memory : json) : Py (json * bool) :=
  discoveries ← lift (getitem memory "discoveries");
  '(agent_discoveries, discoveries) ←
    lift (setdefault discoveries (agent_id discovery) (JObj []));
  memory ← lift (setitem memory "discoveries" discoveries);
  others ← lift (items discoveries);
  '(memory, conflict_found) ←
    for_each (conflict_step discovery) others (memory, false);
  agent_discoveries ←
    lift (setitem agent_discoveries (key discovery) (asdict discovery));
  discoveries ← lift (getitem memory "discoveries");
  discoveries ← lift (setitem discoveries (agent_id discovery) agent_discoveries);
  memory ← lift (setitem memory "discoveries" discoveries);
  now ← utcnow_isoformat;
  metadata ← lift (getitem memory "metadata");
  metadata ← lift (setitem metadata "last_updated" (JStr now));
  memory ← lift (setitem memory "metadata" metadata);
  discoveries ← lift (getitem memory "discoveries");
  namespaces ← lift (values discoveries);
  total ← lift (sum_len namespaces);
  metadata ← lift (getitem memory "metadata");
  metadata ← lift (setitem metadata "total_discoveries" (JInt total));
  memory ← lift (setitem memory "metadata" metadata);
  mret (memory, conflict_found).

(** Lines 75-103: from the loaded document to the [return]. *)
Definition record_discovery_store (self : AgentMemory)
    (discovery : AgentDiscovery) (memory : json) : Py bool :=
  '(memory, conflict_found) ← record_discovery_update discovery memory;
  _ ← json_dump memory (memory_path self);
  mret (negb conflict_found).

Definition record_discovery (self : AgentMemory) (discovery : AgentDiscovery)
  : Py bool :=
  _ ← _acquire_lock self true;
  try_finally
    (memory ← json_load (memory_path self);
     record_discovery_store self discovery memory)
    (_release_lock self).

(** [if agent_id:] on an [Optional[str]]: [None] and the empty string are
    false. *)
Definition truthy (agent_id : option string) : bool :=
  match agent_id with
  | Some (String _ _) => true
  | _ => false
  end.

Definition get_shared_knowledge (self : AgentMemory) (agent_id : option string)
  : Py json :=
  _ ← _acquire_lock self false;
  try_finally
    (memory ← json_load (memory_path self);
     match agent_id with
     | Some worker =>
         if truthy agent_id then
           discoveries ← lift (getitem memory "discoveries");
           lift (get_default discoveries worker (JObj []))
         else mret memory
     | None => mret memory
     end)
    (_release_lock self).

Definition get_conflicts (self : AgentMemory) : Py json :=
  _ ← _acquire_lock self false;
  try_finally
    (memory ← json_load (memory_path self);
     lift (get_default memory "conflicts" (JArr [])))
    (_release_lock self).

(** The entry of lines 140-144. *)
Definition decision_record (decision : json) (decided_by now : string) : json :=
  JObj [ ("decision", decision);
         ("decided_by", JStr decided_by);
         ("timestamp", JStr now) ].

(** Lines 140-144 on the loaded document. *)
Definition record_decision_update (key : string) (decision : json)
    (decided_by : string) (memory : json) : Py json :=
  now ← utcnow_isoformat;
  decisions ← lift (getitem memory "decisions");
  decisions ← lift (setitem decisions key (decision_record decision decided_by now));
  lift (setitem memory "decisions" decisions).

Definition record_decision (self : AgentMemory) (key : string) (decision : json)
    (decided_by : string) : Py unit :=
  _ ← _acquire_lock self true;
  try_finally
    (memory ← json_load (memory_path self);
     memory ← record_decision_update key decision decided_by memory;
     json_dump memory (memory_path self))
    (_release_lock self).

(** One turn of the loop of lines 167-174, on [summary["agents"]]. *)
Definition summary_step (agents : json) (item : string * json) : result json :=
  let '(agent_id, discoveries) := item in
  result_bind (len discoveries) (fun discovery_count =>
  result_bind (values discoveries) (fun ds =>
  result_bind (py_max (fun d => getitem d "timestamp") ds (JStr "Never"))
    (fun last_activity =>
  setitem agents agent_id
    (JObj [ ("discovery_count", JInt discovery_count);
            ("last_activity", last_activity) ])))).

Fixpoint summary_agents (agents : json) (its : list (string * json))
  : result json :=
  match its with
  | [] => Ok agents
  | item :: its' =>
      result_bind (summary_step agents item) (fun agents' =>
      summary_agents agents' its')
  end.

(** Lines 159-176 on the loaded document. *)
Definition summary_of (memory : json) : result json :=
  result_bind (getitem memory "discoveries") (fun discoveries =>
  result_bind (len discoveries) (fun total_agents =>
  result_bind (getitem memory "metadata") (fun metadata =>
  result_bind (get_default metadata "total_discoveries" (JInt 0))
    (fun total_discoveries =>
  result_bind (get_default memory "conflicts" (JArr [])) (fun conflicts =>
  result_bind (len conflicts) (fun total_conflicts =>
  result_bind (get_default memory "decisions" (JObj [])) (fun decisions =>
  result_bind (len decisions) (fun total_decisions =>
  result_bind (getitem memory "discoveries") (fun discoveries =>
  result_bind (items discoveries) (fun its =>
  result_bind (summary_agents (JObj []) its) (fun agents =>
  Ok (JObj [ ("total_agents", JInt total_agents);
             ("total_discoveries", total_discoveries);
             ("total_conflicts", JInt total_conflicts);
             ("total_decisions", JInt total_decisions);
             ("agents", agents) ])))))))))))).

Definition get_agent_summary (self : AgentMemory) : Py json :=
  _ ← _acquire_lock self false;
  try_finally
    (memory ← json_load (memory_path self);
     lift (summary_of memory))
    (_release_lock self).

(** The name of the checkpoint file taken at time [t]. *)
Definition checkpoint_file_name (checkpoint_name : string) (t : Z) : string :=
  "checkpoint_" +:+ checkpoint_name +:+ "_" +:+ pretty t +:+ ".json".

(** Lines 189-190 on the loaded document. *)
Definition checkpoint_stamp (checkpoint_name : string) (memory : json)
  : Py json :=
  metadata ← lift (getitem memory "metadata");
  metadata ← lift (setitem metadata "checkpoint_name" (JStr checkpoint_name));
  memory ← lift (setitem memory "metadata" metadata);
  now ← utcnow_isoformat;
  metadata ← lift (getitem memory "metadata");
  metadata ← lift (setitem metadata "checkpoint_time" (JStr now));
  lift (setitem memory "metadata" metadata).

Definition checkpoint `{Pathlib} (self : AgentMemory) (checkpoint_name : string)
  : Py string :=
  _ ← _acquire_lock self false;
  try_finally
    (t ← time_time_int;
     let checkpoint_path :=
       joinpath (parent (memory_path self))
                (checkpoint_file_name checkpoint_name t) in
     memory ← json_load (memory_path self);
     memory ← checkpoint_stamp checkpoint_name memory;
     _ ← json_dump_as memory (parent (memory_path self))
           (checkpoint_file_name checkpoint_name t);
     mret checkpoint_path)
    (_release_lock self).

(** ** Part 4. Documents of the store *)

(** The four parts of a document; empty where the document has no such
    part. *)
Definition namespaces (memory : json) : list (string * json) :=
  match getitem memory "discoveries" with
  | Ok (JObj ds) => ds
  | _ => []
  end.

Definition conflicts (memory : json) : list json :=
  match getitem memory "conflicts" with
  | Ok (JArr cs) => cs
  | _ => []
  end.

Definition decisions (memory : json) : list (string * json) :=
  match getitem memory "decisions" with
  | Ok (JObj dec) => dec
  | _ => []
  end.

Definition metadata (memory : json) : list (string * json) :=
  match getitem memory "metadata" with
  | Ok (JObj md) => md
  | _ => []
  end.

(** The shape of the documents the store writes (section 6 of the
    specification): every discovery has a value and a [str] timestamp, and
    no [dict] that is counted holds a key twice. *)
Definition is_entry (e : json) : bool :=
  match e with
  | JObj fields =>
      match Dict.get "value" fields, Dict.get "timestamp" fields with
      | Some _, Some (JStr _) => true
      | _, _ => false
      end
  | _ => false
  end.

Definition is_namespace (ns : json) : bool :=
  match ns with
  | JObj es =>
      bool_decide (NoDup (Dict.keys es)) && forallb is_entry (Dict.values es)
  | _ => false
  end.

Definition is_document (memory : json) : bool :=
  match memory with
  | JObj top =>
      match Dict.get "discoveries" top, Dict.get "conflicts" top,
            Dict.get "decisions" top, Dict.get "metadata" top with
      | Some (JObj ds), Some (JArr _), Some (JObj dec), Some (JObj _) =>
          bool_decide (NoDup (Dict.keys ds))
          && forallb is_namespace (Dict.values ds)
          && bool_decide (NoDup (Dict.keys dec))
      | _, _, _, _ => false
      end
  | _ => false
  end.

(** Does the namespace [ns] hold [key]? *)
Definition holds_key (key : string) (ns : json) : bool :=
  match ns with
  | JObj es => Dict.mem key es
  | _ => false
  end.

(** The value a namespace holds under [key]. *)
Definition held_value (key : string) (ns : json) : option json :=
  match ns with
  | JObj es =>
      match Dict.get key es with
      | Some (JObj fields) => Dict.get "value" fields
      | _ => None
      end
  | _ => None
  end.

(** The other workers whose namespace holds the key of [discovery], in the
    order of the document. *)
Definition is_other_holder (discovery : AgentDiscovery)
    (item : string * json) : bool :=
  bool_decide (item.1 ≠ agent_id discovery) && holds_key (key discovery) item.2.

Definition other_holders (discovery : AgentDiscovery) (memory : json)
  : list (string * json) :=
  List.filter (is_other_holder discovery) (namespaces memory).

(** The number of distinct keys of a namespace, and the sum over the
    namespaces of a document. *)
Definition key_count (ns : json) : nat :=
  match ns with
  | JObj es => length (remove_dups (Dict.keys es))
  | _ => 0%nat
  end.

Definition sum_key_counts (memory : json) : Z :=
  Z.of_nat (list_sum (map key_count (Dict.values (namespaces memory)))).

(** The entries one call appends for the holders [hs], the first of them
    stamped by the [n]-th reading of the clock. *)
Fixpoint new_conflicts (discovery : AgentDiscovery) (clock : nat -> string)
    (n : nat) (hs : list (string * json)) : list json :=
  match hs with
  | [] => []
  | (other, ns) :: hs' =>
      conflict_record discovery other
        (default JNull (held_value (key discovery) ns)) (clock n)
      :: new_conflicts discovery clock (S n) hs'
  end.

(** The entries of the namespace of [worker] in [ds], none if it has no
    namespace. *)
Definition own_entries (worker : string) (ds : list (string * json))
  : list (string * json) :=
  match Dict.get worker ds with
  | Some (JObj es) => es
  | _ => []
  end.

(** The sum of the sizes of the namespaces of [ds]. *)
Definition size_sum (ds : list (string * json)) : Z :=
  Z.of_nat (list_sum (map (λ ns, match ns with
                                 | JObj es => length es
                                 | _ => 0%nat
                                 end) (Dict.values ds))).

(** The document [record_discovery] leaves, when the clock has been read
    [n] times before: the update of lines 75-98 said at once (proved equal
    to the code's result on documents of the store's shape in
    [record_discovery_update_spec]). *)
Definition after_discovery (discovery : AgentDiscovery) (clock : nat -> string)
    (n : nat) (memory : json) : json :=
  match memory with
  | JObj top =>
      let hs := other_holders discovery memory in
      let ds' :=
        Dict.set (agent_id discovery)
          (JObj (Dict.set (key discovery) (asdict discovery)
                   (own_entries (agent_id discovery) (namespaces memory))))
          (namespaces memory) in
      let md' :=
        Dict.set "total_discoveries" (JInt (size_sum ds'))
          (Dict.set "last_updated" (JStr (clock (length hs + n)%nat))
             (metadata memory)) in
      JObj (Dict.set "metadata" (JObj md')
              (Dict.set "discoveries" (JObj ds')
                 (Dict.set "conflicts"
                    (JArr (conflicts memory ++ new_conflicts discovery clock n hs))
                    top)))
  | _ => memory
  end.

(** The document [record_decision] leaves when it reads the time [now]: a
    document without a [dict] of decisions makes the call raise before
    anything is written, and stays as it is. *)
Definition after_decision (key : string) (decision : json)
    (decided_by now : string) (memory : json) : json :=
  match memory with
  | JObj top =>
      match Dict.get "decisions" top with
      | Some (JObj dec) =>
          JObj (Dict.set "decisions"
                  (JObj (Dict.set key (decision_record decision decided_by now) dec))
                  top)
      | _ => memory
      end
  | _ => memory
  end.

(** The copy [checkpoint] writes, stamped at time [now]. *)
Definition stamped (checkpoint_name now : string) (memory : json) : json :=
  match memory with
  | JObj top =>
      JObj (Dict.set "metadata"
              (JObj (Dict.set "checkpoint_time" (JStr now)
                       (Dict.set "checkpoint_name" (JStr checkpoint_name)
                          (metadata memory))))
              top)
  | _ => memory
  end.

(** The number of constructors of a value. *)
Fixpoint json_size (j : json) : nat :=
  match j with
  | JArr xs => S (list_sum (map json_size xs))
  | JObj kvs => S (list_sum (map (fun kv => json_size (snd kv)) kvs))
  | _ => 1%nat
  end.

(** The document in the store's file, if the file holds one. *)
Definition document (self : AgentMemory) (w : World) : option json :=
  match files w !! memory_path self with
  | Some (Json_file j) => Some j
  | _ => None
  end.

(** The clock after [n] more readings. *)
Definition advance (n : nat) (w : World) : World :=
  mkWorld (files w) (n + ticks w) (utc_iso w) (unix_time w).

(** The path of the checkpoint file a call of [checkpoint] made in the
    world [w] writes. *)
Definition checkpoint_path_at `{Pathlib} (self : AgentMemory)
    (checkpoint_name : string) (w : World) : string :=
  joinpath (parent (memory_path self))
    (checkpoint_file_name checkpoint_name (unix_time w (ticks w))).

(** [[record_discovery(d) for d in discoveries]]: the calls one after the
    other, and what they returned. *)
Fixpoint record_all (self : AgentMemory) (discoveries : list AgentDiscovery)
  : Py (list bool) :=
  match discoveries with
  | [] => mret []
  | discovery :: discoveries' =>
      b ← record_discovery self discovery;
      bs ← record_all self discoveries';
      mret (b :: bs)
  end.

(** What one client process can ask of a store, and a script of such
    calls: an exception that escapes a call ends the script. *)
Inductive call : Type :=
| Call_initialize
| Call_record_discovery (discovery : AgentDiscovery)
| Call_get_shared_knowledge (agent_id : option string)
| Call_get_conflicts
| Call_record_decision (key : string) (decision : json) (decided_by : string)
| Call_get_agent_summary
| Call_checkpoint (checkpoint_name : string).

Definition do_call `{Pathlib} (self : AgentMemory) (c : call) : Py unit :=
  match c with
  | Call_initialize => _initialize_memory self
  | Call_record_discovery discovery =>
      _ ← record_discovery self discovery; mret tt
  | Call_get_shared_knowledge agent_id =>
      _ ← get_shared_knowledge self agent_id; mret tt
  | Call_get_conflicts => _ ← get_conflicts self; mret tt
  | Call_record_decision key decision decided_by =>
      record_decision self key decision decided_by
  | Call_get_agent_summary => _ ← get_agent_summary self; mret tt
  | Call_checkpoint checkpoint_name =>
      _ ← checkpoint self checkpoint_name; mret tt
  end.

Fixpoint do_calls `{Pathlib} (self : AgentMemory) (script : list call)
  : Py unit :=
  match script with
  | [] => mret tt
  | c :: script' => _ ← do_call self c; do_calls self script'
  end.


(** A name of which [checkpoint] can make the name of a file: it has no
    NUL character and no [/]; and a script whose checkpoints have such
    names. *)
Definition plain_name (name : string) : bool :=
  negb (is_substring nul name) && negb (is_substring "/" name).

Definition plain_call (c : call) : bool :=
  match c with
  | Call_checkpoint checkpoint_name => plain_name checkpoint_name
  | _ => true
  end.

Definition plain_script (script : list call) : bool := forallb plain_call script.

(** ** Part 5. Processes under the lock *)

(** Several processes, each making one call of [record_discovery] on the
    same store. [fcntl.flock(f, LOCK_EX)] returns only while no other
    process holds the lock, so the state keeps who holds it. *)

(** Where a process is in its call. *)
Inductive phase : Type :=
| Ready                        (* the call has not started *)
| Waiting                      (* line 58 done: the lock file is open *)
| Locked                       (* line 60 done: [flock] has returned *)
| Loaded (memory : json)       (* line 73 done *)
| Leaving (r : result bool)    (* the [try] block is left, [finally] is next *)
| Finished (r : result bool).  (* the lock is released, the call is over *)

Record process : Type := mkProcess {
  call_of : AgentDiscovery;
  at_phase : phase
}.

Record system : Type := mkSystem {
  world : World;
  holder : option nat;
  processes : list process
}.

Definition move (i : nat) (p : process) (ph : phase) (w : World)
    (h : option nat) (s : system) : system :=
  mkSystem w h (<[i := mkProcess (call_of p) ph]> (processes s)).

(** One step of process [i], if it can take one. *)
Definition step_process (self : AgentMemory) (i : nat) (s : system)
  : option system :=
  match processes s !! i with
  | None => None
  | Some p =>
      match at_phase p with
      | Ready =>
          Some (move i p Waiting (exec (open_w (lock_path self)) (world s))
                  (holder s) s)
      | Waiting =>
          match holder s with
          | None => Some (move i p Locked (world s) (Some i) s)
          | Some _ => None
          end
      | Locked =>
          match json_load (memory_path self) (world s) with
          | (Ok memory, w) => Some (move i p (Loaded memory) w (holder s) s)
          | (Raise e, w) => Some (move i p (Leaving (Raise e)) w (holder s) s)
          end
      | Loaded memory =>
          match record_discovery_store self (call_of p) memory (world s) with
          | (r, w) => Some (move i p (Leaving r) w (holder s) s)
          end
      | Leaving r => Some (move i p (Finished r) (world s) None s)
      | Finished _ => None
      end
  end.

(** The steps a schedule names, in order; [None] if one of them cannot be
    taken. *)
Fixpoint run (self : AgentMemory) (schedule : list nat) (s : system)
  : option system :=
  match schedule with
  | [] => Some s
  | i :: schedule' =>
      match step_process self i s with
      | Some s' => run self schedule' s'
      | None => None
      end
  end.

(** All the calls about to start. *)
Definition start (w : World) (discoveries : list AgentDiscovery) : system :=
  mkSystem w None (map (fun d => mkProcess d Ready) discoveries).

Definition is_finished (p : process) : bool :=
  match at_phase p with
  | Finished _ => true
  | _ => false
  end.

Definition all_finished (s : system) : bool := forallb is_finished (processes s).

(** What the calls that are over returned. *)
Definition outcomes (s : system) : list (result bool) :=
  omap (fun p => match at_phase p with
                 | Finished r => Some r
                 | _ => None
                 end) (processes s).

(** The discovery a document holds for [worker] under [key]. *)
Definition entry_of (memory : json) (worker key : string) : option json :=
  Dict.get key (own_entries worker (namespaces memory)).

(** The worker and key of a discovery. *)
Definition pair_of (discovery : AgentDiscovery) : string * string :=
  (agent_id discovery, key discovery).

(** Between [flock] and the release. *)
Definition in_critical (ph : phase) : bool :=
  match ph with
  | Locked | Loaded _ | Leaving _ => true
  | _ => false
  end.

(** What the [try] block of a process has produced, once it is left. *)
Definition stored (ph : phase) : option (result bool) :=
  match ph with
  | Leaving r | Finished r => Some r
  | _ => None
  end.

Definition view (s : system) : list (AgentDiscovery * option (result bool)) :=
  map (fun p => (call_of p, stored (at_phase p))) (processes s).

Definition has_stored (x : AgentDiscovery * option (result bool)) : bool :=
  match snd x with
  | Some _ => true
  | None => false
  end.

(** What holds of the document [cur] on disk when the calls of [v] that
    have a result have stored their discovery, starting from [initial]. *)
Record data_invariant (initial cur : json)
    (v : list (AgentDiscovery * option (result bool))) : Prop := {
  di_shape : is_document cur = true;
  di_stored : ∀ j d r,
    v !! j = Some (d, Some r) →
    ∃ b : bool,
      r = Ok b
      ∧ entry_of cur (agent_id d) (key d) = Some (asdict d)
      ∧ (b = false →
         ∃ other, other ≠ agent_id d ∧ is_Some (entry_of cur other (key d)));
  di_origin : ∀ a k,
    is_Some (entry_of cur a k) →
    is_Some (entry_of initial a k)
    ∨ ∃ j d r, v !! j = Some (d, Some r) ∧ pair_of d = (a, k);
  di_total :
    (∃ j d r, v !! j = Some (d, Some r)) →
    Dict.get "total_discoveries" (metadata cur) = Some (JInt (sum_key_counts cur));
  di_count :
    (∀ j d o, v !! j = Some (d, o) →
              entry_of initial (agent_id d) (key d) = None) →
    sum_key_counts cur
    = (sum_key_counts initial + Z.of_nat (length (List.filter has_stored v)))%Z
}.

(** What holds of every state the processes can reach. *)
Record invariant (self : AgentMemory) (initial : json)
    (discoveries : list AgentDiscovery) (s : system) (cur : json) : Prop := {
  inv_calls : map call_of (processes s) = discoveries;
  inv_doc : document self (world s) = Some cur;
  inv_critical : ∀ j p,
    processes s !! j = Some p →
    in_critical (at_phase p) = true ↔ holder s = Some j;
  inv_holder : ∀ h, holder s = Some h → (h < length (processes s))%nat;
  inv_loaded : ∀ j p m,
    processes s !! j = Some p → at_phase p = Loaded m → m = cur;
  inv_data : data_invariant initial cur (view s)
}.

(** How far a process has come, and all of them together. *)
Definition rank (ph : phase) : nat :=
  match ph with
  | Ready => 0
  | Waiting => 1
  | Locked => 2
  | Loaded _ => 3
  | Leaving _ => 4
  | Finished _ => 5
  end.

Definition total_rank (s : system) : nat :=
  list_sum (map (fun p => rank (at_phase p)) (processes s)).

(** *** Footprints, steps of the document, serial runs *)

(** A computation that leaves every file as it is (it may read the clock). *)
Definition keeps_files {A} (m : Py A) : Prop :=
  ∀ w, files (exec m w) = files w.

(** The six methods that take the lock. *)
Definition takes_lock (c : call) : bool :=
  match c with
  | Call_initialize => false
  | _ => true
  end.

(** The files a call may write: the paths it opens for writing. *)
Definition written_paths `{Pathlib} (self : AgentMemory) (c : call) (w : World)
  : list string :=
  match c with
  | Call_initialize => [memory_path self]
  | Call_record_discovery _ | Call_record_decision _ _ _ =>
      [lock_path self; memory_path self]
  | Call_get_shared_knowledge _ | Call_get_conflicts | Call_get_agent_summary =>
      [lock_path self]
  | Call_checkpoint checkpoint_name =>
      [lock_path self; checkpoint_path_at self checkpoint_name w]
  end.

(** The part of a call that comes before it opens a file other than the
    lock file for writing: the lock is taken, the document is loaded and
    changed in memory, and for [checkpoint] [open] has looked at the name
    of the new file. The readers are this part only, and
    [_initialize_memory] has none. *)
Definition before_write `{Pathlib} (self : AgentMemory) (c : call) : Py unit :=
  match c with
  | Call_initialize => mret tt
  | Call_record_discovery discovery =>
      _ ← _acquire_lock self true;
      memory ← json_load (memory_path self);
      _ ← record_discovery_update discovery memory;
      mret tt
  | Call_get_shared_knowledge agent_id =>
      _ ← get_shared_knowledge self agent_id; mret tt
  | Call_get_conflicts => _ ← get_conflicts self; mret tt
  | Call_record_decision key decision decided_by =>
      _ ← _acquire_lock self true;
      memory ← json_load (memory_path self);
      _ ← record_decision_update key decision decided_by memory;
      mret tt
  | Call_get_agent_summary => _ ← get_agent_summary self; mret tt
  | Call_checkpoint checkpoint_name =>
      _ ← _acquire_lock self false;
      t ← time_time_int;
      memory ← json_load (memory_path self);
      _ ← checkpoint_stamp checkpoint_name memory;
      open_new (parent (memory_path self))
        (checkpoint_file_name checkpoint_name t)
  end.

(** What one call can do to the document of the store: nothing, or one of
    the three updates. *)
Inductive store_step : json → json → Prop :=
| Step_none doc : store_step doc doc
| Step_discovery discovery clock n doc :
    store_step doc (after_discovery discovery clock n doc)
| Step_decision key decision decided_by now doc :
    store_step doc (after_decision key decision decided_by now doc)
| Step_stamp checkpoint_name now doc :
    store_step doc (stamped checkpoint_name now doc).

(** [doc'] has all that [doc] has: the conflicts of [doc] come first in its
    log, the workers and the decided keys of [doc] come first among its own,
    every discovery is still there under its worker and key, and the store
    was created when [doc] says. *)
Record extends (doc doc' : json) : Prop := mk_extends {
  extends_conflicts : conflicts doc `prefix_of` conflicts doc';
  extends_workers :
    Dict.keys (namespaces doc) `prefix_of` Dict.keys (namespaces doc');
  extends_entries :
    ∀ worker key, is_Some (entry_of doc worker key) →
                  is_Some (entry_of doc' worker key);
  extends_decisions :
    Dict.keys (decisions doc) `prefix_of` Dict.keys (decisions doc');
  extends_created :
    Dict.get "created" (metadata doc') = Dict.get "created" (metadata doc)
}.

(** The count the summary reports is the number of discoveries stored. *)
Definition counted (doc : json) : Prop :=
  default (JInt 0) (Dict.get "total_discoveries" (metadata doc))
  = JInt (size_sum (namespaces doc)).

(** The timestamps of the entries of a namespace, and the discovery counts
    a summary reports. *)
Definition timestamp_of (e : json) : option string :=
  match getitem e "timestamp" with
  | Ok (JStr t) => Some t
  | _ => None
  end.

Definition timestamps (es : list (string * json)) : list string :=
  omap timestamp_of (Dict.values es).

Definition discovery_counts (agents : list (string * json)) : list Z :=
  map (λ report, match getitem report "discovery_count" with
                 | Ok (JInt count) => count
                 | _ => 0
                 end) (Dict.values agents).

(** [last] is what [max] gives on the timestamps of [es]: one of them that
    none of them is greater than, [default] if there is none. *)
Definition greatest (default last : string) (es : list (string * json)) : Prop :=
  (last ∈ timestamps es ∨ (es = [] ∧ last = default))
  ∧ ∀ t, t ∈ timestamps es → String.ltb last t = false.

(** What the summary says of a worker with [count] discoveries (lines
    170-173). *)
Definition worker_report (count : nat) (last : string) : json :=
  JObj [ ("discovery_count", JInt (Z.of_nat count));
         ("last_activity", JStr last) ].

(** Who holds the lock: the one process between [flock] and the release,
    if there is one. *)
Record lock_invariant (s : system) : Prop := {
  li_critical : ∀ j p,
    processes s !! j = Some p →
    in_critical (at_phase p) = true ↔ holder s = Some j;
  li_holder : ∀ h, holder s = Some h → is_Some (processes s !! h)
}.

(** The calls of [discoveries] made one after the other, each by a process
    of its own: an exception ends one call, not the ones after it. *)
Fixpoint serial (self : AgentMemory) (discoveries : list AgentDiscovery)
    (w : World) : list (result bool) * World :=
  match discoveries with
  | [] => ([], w)
  | d :: ds =>
      let '(r, w1) := record_discovery self d w in
      let '(rs, w2) := serial self ds w1 in
      (r :: rs, w2)
  end.

(** The world once the lock file has been opened. *)
Definition touch (self : AgentMemory) (w : World) : World :=
  exec (open_w (lock_path self)) w.

Definition is_ready (p : process) : bool :=
  match at_phase p with
  | Ready => true
  | _ => false
  end.

(** The calls that have left their [try] block, in the order in which they
    did, with what they produced: the state is the one a serial run of these
    calls leaves. *)
Record serial_invariant (self : AgentMemory) (w : World)
    (discoveries : list AgentDiscovery) (s : system)
    (log : list (nat * AgentDiscovery * result bool)) (serial_world : World)
  : Prop := {
  si_lock : lock_invariant s;
  si_calls : map call_of (processes s) = discoveries;
  si_log : ∀ i d r,
    (i, d, r) ∈ log ↔
    ∃ p, processes s !! i = Some p ∧ call_of p = d
         ∧ stored (at_phase p) = Some r;
  si_once : NoDup (map (λ x, x.1.1) log);
  si_serial : serial self (map (λ x, x.1.2) log) w = (map snd log, serial_world);
  si_world :
    world s = if forallb is_ready (processes s) then serial_world
              else touch self serial_world;
  si_settled : log ≠ [] → touch self serial_world = serial_world;
  si_loaded : ∀ j p m,
    processes s !! j = Some p → at_phase p = Loaded m →
    json_load (memory_path self) (world s) = (Ok m, world s)
}.

(** *** The example workflow (lines 202-228) *)

(** The standard output beside the world: the lines [print] has written. *)
Record Terminal : Type := mkTerminal {
  disk : World;
  printed : list string
}.

Definition Console (A : Type) : Type := Terminal → result A * Terminal.

#[global] Instance Console_ret : MRet Console := λ A (a : A) t, (Ok a, t).

#[global] Instance Console_bind : MBind Console :=
  λ A B (k : A → Console B) (m : Console A) t,
    match m t with
    | (Ok a, t') => k a t'
    | (Raise e, t') => (Raise e, t')
    end.

(** A computation that does not print. *)
Definition on_disk {A} (m : Py A) : Console A := λ t,
  let '(r, w) := m (disk t) in (r, mkTerminal w (printed t)).

(** [print(line)] *)
Definition print (line : string) : Console unit := λ t,
  (Ok tt, mkTerminal (disk t) (printed t ++ [line])%list).

(** [for x in xs: body(x)] *)
Fixpoint for_in {A} (body : A → Console unit) (xs : list A) : Console unit :=
  match xs with
  | [] => mret tt
  | x :: xs' => _ ← body x; for_in body xs'
  end.

(** The float [0.95]. *)
Definition float_095 : spec_float := S754_finite false 8556839292003942 (-53).

(** The value every run of the example records. *)
Definition api_pattern : json :=
  JObj [ ("pattern", JStr "/api/v1/{resource}/{id}");
         ("methods", JArr [JStr "GET"; JStr "POST"; JStr "PUT"; JStr "DELETE"]) ].

(** The two lines the example prints. *)
Definition conflict_line (agent_id key : string) : string :=
  "[" +:+ agent_id +:+ "] Potential conflict detected for key: " +:+ key.

Definition found_line (agent_id other_agent key : string) : string :=
  "[" +:+ agent_id +:+ "] Found relevant API pattern from " +:+ other_agent
  +:+ ": " +:+ key.

(** Lines 226-228, for one discovery of another worker. *)
Definition report_entry (agent_id other_agent : string) (item : string * json)
  : Console unit :=
  let '(key, value) := item in
  tags ← on_disk (lift (get_default value "tags" (JArr [])));
  relevant ← on_disk (lift (contains tags "api"));
  if relevant : bool then print (found_line agent_id other_agent key)
  else mret tt.

(** Lines 224-228, for one worker of the document. *)
Definition report_worker (agent_id : string) (item : string * json)
  : Console unit :=
  let '(other_agent, discoveries) := item in
  if bool_decide (other_agent ≠ agent_id) then
    entries ← on_disk (lift (items discoveries));
    for_in (report_entry agent_id other_agent) entries
  else mret tt.

(** The discovery a run of the example records at time [now] (lines
    206-216). *)
Definition example_discovery (agent_id now : string) : AgentDiscovery :=
  AgentDiscovery_new agent_id "api_endpoint_pattern" api_pattern now
    (Some float_095) (Some ["api"; "rest"; "pattern"]).

Definition example_agent_workflow (agent_id : string) (memory : AgentMemory)
  : Console unit :=
  now ← on_disk utcnow_isoformat;
  let discovery := example_discovery agent_id now in
  success ← on_disk (record_discovery memory discovery);
  _ ← (if negb success then print (conflict_line agent_id (key discovery))
       else mret tt);
  all_knowledge ← on_disk (get_shared_knowledge memory None);
  discoveries ← on_disk (lift (getitem all_knowledge "discoveries"));
  workers ← on_disk (lift (items discoveries));
  for_in (report_worker agent_id) workers.

(** ** Part 6. Sample data *)

(** [PurePosixPath], for suffixes that start with a dot and names of
    files joined to directories. *)
Module Posix.
Fixpoint has_char (c : ascii) (s : string) : bool :=
  match s with
  | EmptyString => false
  | String c' s' => Ascii.eqb c' c || has_char c s'
  end.

(** The text before the last [c] of [s]; all of [s] if it has none. *)
Fixpoint before_last (c : ascii) (s : string) : string :=
  match s with
  | EmptyString => EmptyString
  | String c' s' =>
      if has_char c s' then String c' (before_last c s')
      else if Ascii.eqb c' c then EmptyString else s
  end.

(** The text after the last [c] of [s]; all of [s] if it has none. *)
Fixpoint after_last (c : ascii) (s : string) : string :=
  match s with
  | EmptyString => EmptyString
  | String c' s' =>
      if has_char c s' then after_last c s'
      else if Ascii.eqb c' c then s' else s
  end.

(** The parts of [s] between the occurrences of [c]. *)
Fixpoint split (c : ascii) (s : string) : list string :=
  match s with
  | EmptyString => [EmptyString]
  | String c' s' =>
      if Ascii.eqb c' c then EmptyString :: split c s'
      else match split c s' with
           | [] => [String c' EmptyString]
           | part :: parts => String c' part :: parts
           end
  end.

Fixpoint join (sep : string) (parts : list string) : string :=
  match parts with
  | [] => EmptyString
  | [part] => part
  | part :: parts' => part +:+ sep +:+ join sep parts'
  end.

(** [str(PurePosixPath(s))]: empty parts and single dots are dropped, one
    slash at the front is kept for any number of them but two, which are
    kept both; the empty path is [.]. *)
Definition Path (s : string) : string :=
  let parts :=
    List.filter (λ part, negb (String.eqb part EmptyString)
                         && negb (String.eqb part ".")) (split "/" s) in
  let root :=
    if String.prefix "///" s then "/"
    else if String.prefix "//" s then "//"
    else if String.prefix "/" s then "/"
    else EmptyString in
  match parts with
  | [] => if String.eqb root EmptyString then "." else root
  | _ => root +:+ join "/" parts
  end.

(** The operations below are on paths as [Path] gives them. *)
Definition parent (p : string) : string :=
  if has_char "/" p then
    let dir := before_last "/" p in
    if String.eqb dir EmptyString then "/"
    else if String.eqb dir "/" then "//"
    else dir
  else ".".

Definition joinpath (p name : string) : string :=
  if bool_decide (p = ".") then name
  else if bool_decide (p = "/") || bool_decide (p = "//") then p +:+ name
  else p +:+ "/" +:+ name.

(** The last part of a path: none for [.] and for the root. *)
Definition name (p : string) : string :=
  let last := after_last "/" p in
  if String.eqb last "." then EmptyString else last.

(** The name without its suffix: a suffix starts at the last dot of the
    name, unless that dot is its first or its last character. *)
Definition stem (name : string) : string :=
  if has_char "." name
     && negb (String.eqb (before_last "." name) EmptyString)
     && negb (String.eqb (after_last "." name) EmptyString)
  then before_last "." name
  else name.

Definition with_suffix (p suffix : string) : result string :=
  if String.eqb (name p) EmptyString then Raise ValueError
  else Ok (joinpath (parent p) (stem (name p) +:+ suffix)).

#[global] Instance pathlib : Pathlib :=
  Build_Pathlib Path with_suffix parent joinpath.
End Posix.

Module Sample.
Definition utc (n : nat) : string := "2024-05-01T10:00:0" +:+ pretty n.
Definition unix (n : nat) : Z := 1714557600 + Z.of_nat n.

(** Nothing on disk yet. *)
Definition world0 : World := mkWorld ∅ 0 utc unix.

Definition store : AgentMemory :=
  mkAgentMemory "/shared/agent_memory.json" "/shared/agent_memory.lock".

(** After [AgentMemory("/shared/agent_memory.json")]. *)
Definition world1 : World :=
  exec (AgentMemory_new "/shared/agent_memory.json") world0.

Definition endpoint_A : AgentDiscovery :=
  AgentDiscovery_new "A" "endpoint" (JObj [("path", JStr "/x")])
    "2024-05-01T09:59:58" None None.

Definition endpoint_B : AgentDiscovery :=
  AgentDiscovery_new "B" "endpoint" (JObj [("path", JStr "/y")])
    "2024-05-01T09:59:59" None None.

(** The same key and the same value as [endpoint_A], from another worker. *)
Definition endpoint_C : AgentDiscovery :=
  AgentDiscovery_new "C" "endpoint" (JObj [("path", JStr "/x")])
    "2024-05-01T09:59:59" None (Some ["api"]).

(** After worker A has recorded [endpoint_A]. *)
Definition world2 : World := exec (record_discovery store endpoint_A) world1.

Definition document1 : json := fresh_document "2024-05-01T10:00:00".
Definition document2 : json := after_discovery endpoint_A utc 1 document1.
(** A store whose file has the name one of its own checkpoints gets. *)
Definition clashing_store : AgentMemory :=
  mkAgentMemory "/shared/checkpoint_nightly_1714557601.json"
                "/shared/checkpoint_nightly_1714557601.lock".

Definition clashing_world : World :=
  exec (AgentMemory_new "/shared/checkpoint_nightly_1714557601.json")
    world0.
End Sample.

(** Edge cases and runs of several calls. *)
Module Edge.
(** A store whose file is given a name that ends in [.lock]: the name
    [with_suffix] gives its lock file is the same. *)
Definition lock_named_store : AgentMemory :=
  mkAgentMemory "/shared/agent_memory.lock" "/shared/agent_memory.lock".

Definition lock_named_world : World :=
  exec (AgentMemory_new "/shared/agent_memory.lock") Sample.world0.

(** [Sample.world1] with a clock whose readings all fall in one second. *)
Definition one_second_world : World :=
  mkWorld (files Sample.world1) (ticks Sample.world1) Sample.utc
    (λ _, 1714557600).

(** A discovery of a worker whose name is the empty string. *)
Definition nameless : AgentDiscovery :=
  AgentDiscovery_new EmptyString "endpoint" (JObj [("path", JStr "/z")])
    "2024-05-01T09:59:57" None None.

(** A script of calls of every kind. *)
Definition script : list call :=
  [ Call_record_discovery Sample.endpoint_A;
    Call_get_shared_knowledge (Some "A");
    Call_record_discovery Sample.endpoint_C;
    Call_record_decision "endpoint" (JStr "/x") "A";
    Call_checkpoint "nightly";
    Call_get_conflicts;
    Call_initialize;
    Call_get_agent_summary ].

(** Two workers at once: B opens the lock file after A, takes the lock
    first and makes its whole call, then A makes its own. *)
Definition two_calls : list AgentDiscovery :=
  [Sample.endpoint_A; Sample.endpoint_B].

Definition interleaving : list nat := [0; 1; 1; 1; 1; 1; 0; 0; 0; 0]%nat.

Definition interleaved : system :=
  default (start Sample.world1 two_calls)
    (run Sample.store interleaving (start Sample.world1 two_calls)).
End Edge.

(** ** Part 7. Properties *)

(** *** Dictionaries *)

Section DictFacts.
Context {V : Type}.
Implicit Types (d : list (string * V)) (k : string) (v : V).

Lemma get_set_eq k v d : Dict.get k (Dict.set k v d) = Some v.
Proof.
  induction d as [|[k' v'] d IH]; simpl.
  - by rewrite decide_True.
  - destruct (decide (k' = k)) as [->|Hne]; simpl.
    + by rewrite decide_True.
    + by rewrite decide_False.
Qed.

Lemma get_set_ne k k' v d : k' ≠ k → Dict.get k' (Dict.set k v d) = Dict.get k' d.
Proof.
  intros Hne. induction d as [|[k0 v0] d IH]; simpl.
  - by rewrite decide_False.
  - destruct (decide (k0 = k)) as [->|Hk]; simpl.
    + by rewrite !decide_False.
    + by rewrite IH.
Qed.

Lemma set_set k v1 v2 d : Dict.set k v2 (Dict.set k v1 d) = Dict.set k v2 d.
Proof.
  induction d as [|[k0 v0] d IH]; simpl.
  - by rewrite decide_True.
  - destruct (decide (k0 = k)) as [->|Hk]; simpl.
    + by rewrite decide_True.
    + by rewrite decide_False, IH.
Qed.

Lemma set_same k v d : Dict.get k d = Some v → Dict.set k v d = d.
Proof.
  induction d as [|[k0 v0] d IH]; simpl; [done|].
  destruct (decide (k0 = k)) as [->|Hk]; intros Hget.
  - by simplify_eq.
  - by rewrite IH.
Qed.

Lemma get_None k d : Dict.get k d = None ↔ k ∉ (Dict.keys d : list string).
Proof.
  induction d as [|[k0 v0] d IH]; simpl.
  - split; [intros _; apply not_elem_of_nil | done].
  - rewrite not_elem_of_cons. destruct (decide (k0 = k)) as [->|Hk].
    + split; [done | intros [? _]; done].
    + rewrite IH. split; [intros H; split; [by intros ->|done] | by intros [_ H]].
Qed.

Lemma get_Some_elem k v d : Dict.get k d = Some v → (k, v) ∈ d.
Proof.
  induction d as [|[k0 v0] d IH]; simpl; [done|].
  destruct (decide (k0 = k)) as [->|Hk]; intros Hget.
  - simplify_eq. apply list_elem_of_here.
  - apply list_elem_of_further. auto.
Qed.

Lemma elem_get_Some k v d :
  Dict.unique_keys d → (k, v) ∈ d → Dict.get k d = Some v.
Proof.
  unfold Dict.unique_keys.
  induction d as [|[k0 v0] d IH]; simpl; intros Hnd Hin.
  - by apply elem_of_nil in Hin.
  - apply NoDup_cons in Hnd as [Hk0 Hnd].
    apply elem_of_cons in Hin as [Heq|Hin].
    + simplify_eq. by rewrite decide_True.
    + rewrite decide_False; [auto|]. intros ->. apply Hk0.
      apply list_elem_of_fmap. by exists (k, v).
Qed.

Lemma keys_set_present k v d :
  is_Some (Dict.get k d) → Dict.keys (Dict.set k v d) = Dict.keys d.
Proof.
  induction d as [|[k0 v0] d IH]; simpl; intros [x Hx]; [done|].
  destruct (decide (k0 = k)) as [->|Hk]; simpl; [done|].
  f_equal. apply IH. eauto.
Qed.

Lemma keys_set_absent k v d :
  Dict.get k d = None → Dict.keys (Dict.set k v d) = (Dict.keys d ++ [k])%list.
Proof.
  induction d as [|[k0 v0] d IH]; simpl; intros Hx; [done|].
  destruct (decide (k0 = k)) as [->|Hk]; simpl; [done|].
  f_equal. by apply IH.
Qed.

Lemma unique_keys_set k v d :
  Dict.unique_keys d → Dict.unique_keys (Dict.set k v d).
Proof.
  unfold Dict.unique_keys. intros Hnd.
  destruct (Dict.get k d) as [x|] eqn:Hget.
  - rewrite keys_set_present; eauto.
  - rewrite keys_set_absent by done.
    apply NoDup_app. split_and!; [done| |apply NoDup_singleton].
    intros x Hx ->%list_elem_of_singleton. by apply get_None in Hget.
Qed.

Lemma length_set k v d :
  length (Dict.set k v d) =
  if Dict.mem k d then length d else S (length d).
Proof.
  unfold Dict.mem. induction d as [|[k0 v0] d IH]; simpl; [done|].
  destruct (decide (k0 = k)) as [->|Hk]; simpl; [done|].
  rewrite IH. by destruct (Dict.get k d).
Qed.

Lemma Forall_values_set (P : V → Prop) k v d :
  P v → Forall P (Dict.values d) → Forall P (Dict.values (Dict.set k v d)).
Proof.
  intros Hv. induction d as [|[k0 v0] d IH]; simpl; intros Hd.
  - by constructor.
  - apply Forall_cons in Hd as [H0 Hd].
    destruct (decide (k0 = k)); simpl; constructor; auto.
Qed.
End DictFacts.

Lemma set_comm {V} (k1 k2 : string) (v1 v2 : V) (d : list (string * V)) :
  k1 ≠ k2 → is_Some (Dict.get k1 d) →
  Dict.set k1 v1 (Dict.set k2 v2 d) = Dict.set k2 v2 (Dict.set k1 v1 d).
Proof.
  intros Hne. induction d as [|[k0 v0] d IH]; simpl; intros [x Hx]; [done|].
  destruct (decide (k0 = k1)) as [->|H1].
  - rewrite (decide_False (P := k1 = k2)) by done. simpl.
    rewrite decide_True by done. by rewrite decide_False.
  - destruct (decide (k0 = k2)) as [->|H2]; simpl.
    + rewrite decide_False by done. by rewrite decide_True.
    + rewrite !decide_False by done. f_equal. apply IH. eauto.
Qed.

Lemma mem_true {V} (k : string) (d : list (string * V)) :
  Dict.mem k d = true ↔ is_Some (Dict.get k d).
Proof.
  unfold Dict.mem. destruct (Dict.get k d); split; try done; eauto.
Qed.

Lemma mem_false {V} (k : string) (d : list (string * V)) :
  Dict.mem k d = false ↔ Dict.get k d = None.
Proof. unfold Dict.mem. by destruct (Dict.get k d). Qed.

(** *** The clock *)

Lemma advance_0 w : advance 0 w = w.
Proof. by destruct w. Qed.

Lemma tick_advance n w : tick (advance n w) = advance (S n) w.
Proof. done. Qed.

Lemma advance_advance n m w : advance n (advance m w) = advance (n + m) w.
Proof. unfold advance; simpl. f_equal. lia. Qed.

Lemma with_files_advance fs n w :
  with_files fs (advance n w) = advance n (with_files fs w).
Proof. done. Qed.

(** *** Shapes *)

Lemma forallb_Forall_true {A} (f : A → bool) (xs : list A) :
  forallb f xs = true ↔ Forall (λ x, f x = true) xs.
Proof.
  induction xs as [|x xs IH]; simpl.
  - split; [constructor | done].
  - rewrite andb_true_iff, Forall_cons, IH. done.
Qed.

Lemma is_entry_inv e :
  is_entry e = true →
  ∃ fields v ts, e = JObj fields ∧ Dict.get "value" fields = Some v
                 ∧ Dict.get "timestamp" fields = Some (JStr ts).
Proof.
  destruct e as [| | | | |?|fields]; try done. unfold is_entry.
  destruct (Dict.get "value" fields) as [v|] eqn:Hv; [|done].
  destruct (Dict.get "timestamp" fields) as [[| | | |ts| |]|] eqn:Hts; try done.
  intros _. by exists fields, v, ts.
Qed.

Lemma is_entry_asdict d : is_entry (asdict d) = true.
Proof. done. Qed.

Lemma is_namespace_inv ns :
  is_namespace ns = true →
  ∃ es, ns = JObj es ∧ Dict.unique_keys es
        ∧ Forall (λ e, is_entry e = true) (Dict.values es).
Proof.
  destruct ns as [| | | | |?|es]; simpl; try done.
  intros [Hnd Hes]%andb_true_iff. exists es. split_and!; [done| |].
  - by apply bool_decide_eq_true in Hnd.
  - by apply forallb_Forall_true in Hes.
Qed.

Lemma is_namespace_intro es :
  Dict.unique_keys es → Forall (λ e, is_entry e = true) (Dict.values es) →
  is_namespace (JObj es) = true.
Proof.
  intros Hnd Hes. simpl. apply andb_true_iff. split.
  - by apply bool_decide_eq_true.
  - by apply forallb_Forall_true.
Qed.

Lemma is_namespace_set key d es :
  is_namespace (JObj es) = true →
  is_namespace (JObj (Dict.set key (asdict d) es)) = true.
Proof.
  intros (es' & [= <-] & Hnd & Hes)%is_namespace_inv.
  apply is_namespace_intro.
  - by apply unique_keys_set.
  - by apply Forall_values_set.
Qed.

Lemma is_document_inv memory :
  is_document memory = true →
  ∃ top ds cs dec md,
    memory = JObj top
    ∧ Dict.get "discoveries" top = Some (JObj ds)
    ∧ Dict.get "conflicts" top = Some (JArr cs)
    ∧ Dict.get "decisions" top = Some (JObj dec)
    ∧ Dict.get "metadata" top = Some (JObj md)
    ∧ Dict.unique_keys ds
    ∧ Forall (λ ns, is_namespace ns = true) (Dict.values ds)
    ∧ Dict.unique_keys dec.
Proof.
  destruct memory as [| | | | |?|top]; try done. unfold is_document.
  destruct (Dict.get "discoveries" top) as [[| | | | |?|ds]|] eqn:E1; try done.
  destruct (Dict.get "conflicts" top) as [[| | | | |cs|?]|] eqn:E2; try done.
  destruct (Dict.get "decisions" top) as [[| | | | |?|dec]|] eqn:E3; try done.
  destruct (Dict.get "metadata" top) as [[| | | | |?|md]|] eqn:E4; try done.
  intros [[Hds Hns]%andb_true_iff Hdec]%andb_true_iff.
  exists top, ds, cs, dec, md. split_and!; try done.
  - by apply bool_decide_eq_true in Hds.
  - by apply forallb_Forall_true in Hns.
  - by apply bool_decide_eq_true in Hdec.
Qed.

Lemma is_document_intro top ds cs dec md :
  Dict.get "discoveries" top = Some (JObj ds) →
  Dict.get "conflicts" top = Some (JArr cs) →
  Dict.get "decisions" top = Some (JObj dec) →
  Dict.get "metadata" top = Some (JObj md) →
  Dict.unique_keys ds →
  Forall (λ ns, is_namespace ns = true) (Dict.values ds) →
  Dict.unique_keys dec →
  is_document (JObj top) = true.
Proof.
  intros Hds Hcs Hdec Hmd Hnd Hns Hnd'. unfold is_document.
  rewrite Hds, Hcs, Hdec, Hmd. rewrite !andb_true_iff. split_and!.
  - by apply bool_decide_eq_true.
  - by apply forallb_Forall_true.
  - by apply bool_decide_eq_true.
Qed.

Lemma is_document_fresh created : is_document (fresh_document created) = true.
Proof. done. Qed.

(** *** The monad *)

Lemma bind_unfold {A B} (m : Py A) (k : A → Py B) w :
  (x ← m; k x) w
  = match m w with
    | (Ok a, w') => k a w'
    | (Raise e, w') => (Raise e, w')
    end.
Proof. unfold mbind, Py_bind. by destruct (m w) as [[a|e] w']. Qed.

Lemma bind_ok {A B} (m : Py A) (k : A → Py B) a w w' :
  m w = (Ok a, w') → (m ≫= k) w = k a w'.
Proof. intros H. unfold mbind, Py_bind. by rewrite H. Qed.

Lemma bind_raise {A B} (m : Py A) (k : A → Py B) e w w' :
  m w = (Raise e, w') → (m ≫= k) w = (Raise e, w').
Proof. intros H. unfold mbind, Py_bind. by rewrite H. Qed.

Lemma bind_lift_ok {A B} (a : A) (k : A → Py B) w :
  (lift (Ok a) ≫= k) w = k a w.
Proof. done. Qed.

Lemma bind_utcnow {B} (k : string → Py B) w :
  (utcnow_isoformat ≫= k) w = k (utc_iso w (ticks w)) (tick w).
Proof. done. Qed.

(** *** The loop of [record_discovery] *)

Lemma namespace_holds key ns :
  is_namespace ns = true → contains ns key = Ok (holds_key key ns).
Proof. by intros (es & -> & _)%is_namespace_inv. Qed.

Lemma namespace_held key ns :
  is_namespace ns = true → holds_key key ns = true →
  ∃ entry existing,
    getitem ns key = Ok entry ∧ getitem entry "value" = Ok existing
    ∧ held_value key ns = Some existing.
Proof.
  intros (es & -> & Hnd & Hes)%is_namespace_inv Hheld.
  unfold holds_key in Hheld. apply mem_true in Hheld as [entry Hentry].
  assert (is_entry entry = true) as (fields & v & ts & -> & Hv & _)%is_entry_inv.
  { rewrite Forall_forall in Hes. apply Hes.
    apply get_Some_elem in Hentry. apply list_elem_of_fmap.
    by exists (key, entry). }
  exists (JObj fields), v. unfold getitem, held_value.
  by rewrite Hentry, Hv.
Qed.

Lemma conflict_step_spec discovery top cs found other ns w :
  Dict.get "conflicts" top = Some (JArr cs) →
  is_namespace ns = true →
  conflict_step discovery (JObj top, found) (other, ns) w =
  if is_other_holder discovery (other, ns) then
    (Ok (JObj (Dict.set "conflicts"
                 (JArr (cs ++ [conflict_record discovery other
                                 (default JNull (held_value (key discovery) ns))
                                 (utc_iso w (ticks w))]))
                 top), true), tick w)
  else (Ok (JObj top, found), w).
Proof.
  intros Hcs Hns. unfold conflict_step, is_other_holder. cbn [fst snd].
  destruct (bool_decide (other ≠ agent_id discovery)); [|done].
  rewrite (namespace_holds _ _ Hns). rewrite bind_lift_ok. cbn [andb].
  destruct (holds_key (key discovery) ns) eqn:Hheld; [|done].
  destruct (namespace_held _ _ Hns Hheld) as (entry & existing & He & Hv & Hhv).
  rewrite He, bind_lift_ok, Hv, bind_lift_ok, bind_utcnow.
  unfold getitem. rewrite Hcs. rewrite bind_lift_ok. unfold append. rewrite bind_lift_ok.
  unfold setitem. rewrite bind_lift_ok. rewrite Hhv. done.
Qed.

Lemma advance_tick n w : advance n (tick w) = advance (S n) w.
Proof. unfold advance, tick; simpl. f_equal. lia. Qed.

Lemma conflict_loop discovery its :
  ∀ top cs found w,
    Dict.get "conflicts" top = Some (JArr cs) →
    Forall (λ ns, is_namespace ns = true) (Dict.values its) →
    let hs := List.filter (is_other_holder discovery) its in
    for_each (conflict_step discovery) its (JObj top, found) w =
    (Ok (JObj (Dict.set "conflicts"
                 (JArr (cs ++ new_conflicts discovery (utc_iso w) (ticks w) hs))
                 top),
         found || negb (bool_decide (hs = []))),
     advance (length hs) w).
Proof.
  induction its as [|[other ns] its IH]; intros top cs found w Hcs Hits hs.
  - subst hs. cbn [for_each List.filter new_conflicts length].
    rewrite app_nil_r, set_same, advance_0 by done.
    by rewrite orb_false_r.
  - apply Forall_cons in Hits as [Hns Hits]. cbn [snd] in Hns.
    cbn [for_each]. unfold mbind, Py_bind.
    rewrite (conflict_step_spec _ _ _ _ _ _ _ Hcs Hns).
    subst hs. cbn [List.filter].
    destruct (is_other_holder discovery (other, ns)).
    + rewrite (IH _ (cs ++ [conflict_record discovery other
                              (default JNull (held_value (key discovery) ns))
                              (utc_iso w (ticks w))])%list);
        [|apply get_set_eq|done].
      cbn [new_conflicts length]. rewrite set_set, <- app_assoc. cbn [app].
      rewrite advance_tick, orb_true_r. done.
    + by apply IH.
Qed.

Lemma values_namespace ds worker ns :
  Forall (λ ns, is_namespace ns = true) (Dict.values ds) →
  Dict.get worker ds = Some ns → is_namespace ns = true.
Proof.
  intros Hds Hget. rewrite Forall_forall in Hds. apply Hds.
  apply get_Some_elem in Hget. apply list_elem_of_fmap. by exists (worker, ns).
Qed.

Lemma own_entries_namespace ds worker :
  Forall (λ ns, is_namespace ns = true) (Dict.values ds) →
  is_namespace (JObj (own_entries worker ds)) = true.
Proof.
  intros Hds. unfold own_entries.
  destruct (Dict.get worker ds) as [ns|] eqn:Hget; [|done].
  pose proof (values_namespace _ _ _ Hds Hget) as Hns.
  by destruct (is_namespace_inv _ Hns) as (es & -> & _).
Qed.

Lemma setdefault_namespace ds worker :
  Forall (λ ns, is_namespace ns = true) (Dict.values ds) →
  setdefault (JObj ds) worker (JObj []) =
  Ok (JObj (own_entries worker ds),
      JObj (Dict.set worker (JObj (own_entries worker ds)) ds)).
Proof.
  intros Hds. unfold setdefault, own_entries.
  destruct (Dict.get worker ds) as [ns|] eqn:Hget; [|done].
  pose proof (values_namespace _ _ _ Hds Hget) as Hns.
  destruct (is_namespace_inv _ Hns) as (es & -> & _).
  by rewrite set_same.
Qed.

Lemma filter_other_holder_set discovery v ds :
  List.filter (is_other_holder discovery) (Dict.set (agent_id discovery) v ds)
  = List.filter (is_other_holder discovery) ds.
Proof.
  assert (∀ x, is_other_holder discovery (agent_id discovery, x) = false) as Hown.
  { intros x. unfold is_other_holder. cbn [fst].
    by rewrite bool_decide_eq_false_2 by (by intros ?). }
  induction ds as [|[k0 v0] ds IH]; cbn [Dict.set List.filter].
  - by rewrite Hown.
  - destruct (decide (k0 = agent_id discovery)) as [->|Hne]; cbn [List.filter].
    + by rewrite !Hown.
    + by rewrite IH.
Qed.

Lemma sum_len_namespaces ds :
  Forall (λ ns, is_namespace ns = true) (Dict.values ds) →
  sum_len (Dict.values ds) = Ok (size_sum ds).
Proof.
  unfold size_sum. induction ds as [|[k ns] ds IH]; intros Hds; [done|].
  change (Dict.values ((k, ns) :: ds)) with (ns :: Dict.values ds) in *.
  apply Forall_cons in Hds as [(es & -> & _)%is_namespace_inv Hds].
  cbn [sum_len len result_bind map list_sum]. rewrite (IH Hds).
  cbn [result_bind]. f_equal. symmetry. apply Nat2Z.inj_add.
Qed.

Lemma getitem_obj k top v :
  Dict.get k top = Some v → getitem (JObj top) k = Ok v.
Proof. intros H. unfold getitem. by rewrite H. Qed.

Lemma setitem_obj k v top : setitem (JObj top) k v = Ok (JObj (Dict.set k v top)).
Proof. done. Qed.

Ltac py_ok := rewrite ?bind_lift_ok; cbv beta iota.

Lemma record_discovery_update_spec discovery top ds cs md w :
  Dict.get "discoveries" top = Some (JObj ds) →
  Dict.get "conflicts" top = Some (JArr cs) →
  Dict.get "metadata" top = Some (JObj md) →
  Forall (λ ns, is_namespace ns = true) (Dict.values ds) →
  let hs := List.filter (is_other_holder discovery) ds in
  let ds' := Dict.set (agent_id discovery)
               (JObj (Dict.set (key discovery) (asdict discovery)
                        (own_entries (agent_id discovery) ds))) ds in
  let md' := Dict.set "total_discoveries" (JInt (size_sum ds'))
               (Dict.set "last_updated"
                  (JStr (utc_iso w (length hs + ticks w))) md) in
  record_discovery_update discovery (JObj top) w =
  (Ok (JObj (Dict.set "metadata" (JObj md')
               (Dict.set "discoveries" (JObj ds')
                  (Dict.set "conflicts"
                     (JArr (cs ++ new_conflicts discovery (utc_iso w) (ticks w) hs))
                     top))),
       negb (bool_decide (hs = []))),
   advance (S (length hs)) w).
Proof.
  intros Hds Hcs Hmd Hns hs ds' md'. unfold record_discovery_update.
  rewrite (getitem_obj _ _ _ Hds); py_ok.
  rewrite (setdefault_namespace _ _ Hns); py_ok.
  cbn [setitem items]; py_ok.
  erewrite bind_ok; cycle 1.
  { apply (conflict_loop _ _ _ cs).
    - by rewrite get_set_ne.
    - apply Forall_values_set; [|done]. by apply own_entries_namespace. }
  rewrite filter_other_holder_set. fold hs. cbn [orb]. cbv beta iota.
  py_ok.
  rewrite (getitem_obj "discoveries" _ (JObj (Dict.set (agent_id discovery)
              (JObj (own_entries (agent_id discovery) ds)) ds)))
    by (rewrite get_set_ne by done; apply get_set_eq).
  py_ok. cbn [setitem]. py_ok. rewrite bind_utcnow.
  rewrite set_set. fold ds'.
  rewrite (set_comm "conflicts" "discoveries") by (done || eauto).
  rewrite set_set.
  set (top1 := Dict.set "discoveries" (JObj ds') (Dict.set "conflicts" _ top)).
  assert (Dict.get "metadata" top1 = Some (JObj md)) as Hmd1.
  { unfold top1. by rewrite !get_set_ne by done. }
  assert (Dict.get "discoveries" top1 = Some (JObj ds')) as Hds1.
  { unfold top1. by rewrite get_set_eq. }
  assert (Forall (λ ns, is_namespace ns = true) (Dict.values ds')) as Hns'.
  { apply Forall_values_set; [|done].
    by apply is_namespace_set, own_entries_namespace. }
  rewrite (getitem_obj _ _ _ Hmd1); py_ok. cbn [setitem]; py_ok.
  rewrite (getitem_obj "discoveries" _ (JObj ds'))
    by (by rewrite get_set_ne by done).
  py_ok. cbn [values]; py_ok.
  rewrite (sum_len_namespaces _ Hns'); py_ok.
  rewrite (getitem_obj "metadata" _ _ (get_set_eq _ _ _)); py_ok.
  cbn [setitem]; py_ok. rewrite set_set.
  unfold mret, Py_ret. rewrite tick_advance.
  cbn [ticks utc_iso advance]. done.
Qed.

(** *** [record_discovery] *)

Lemma document_Some self w doc :
  document self w = Some doc ↔ files w !! memory_path self = Some (Json_file doc).
Proof.
  unfold document. destruct (files w !! memory_path self) as [[|j]|]; naive_solver.
Qed.

Lemma json_load_document self w doc :
  document self w = Some doc → json_load (memory_path self) w = (Ok doc, w).
Proof. intros H%document_Some. unfold json_load. by rewrite H. Qed.

Lemma document_acquire self exclusive w :
  lock_path self ≠ memory_path self →
  document self (exec (_acquire_lock self exclusive) w) = document self w.
Proof.
  intros Hne. unfold document, exec, _acquire_lock, open_w. cbn.
  by rewrite lookup_insert_ne.
Qed.

Lemma acquire_ok self exclusive w :
  _acquire_lock self exclusive w = (Ok tt, exec (_acquire_lock self exclusive) w).
Proof. done. Qed.

Lemma record_discovery_update_document discovery doc w :
  is_document doc = true →
  record_discovery_update discovery doc w =
  (Ok (after_discovery discovery (utc_iso w) (ticks w) doc,
       negb (bool_decide (other_holders discovery doc = []))),
   advance (S (length (other_holders discovery doc))) w).
Proof.
  intros (top & ds & cs & dec & md & -> & Hds & Hcs & Hdec & Hmd & _ & Hns & _)
    %is_document_inv.
  rewrite (record_discovery_update_spec _ _ _ _ _ _ Hds Hcs Hmd Hns).
  unfold after_discovery, other_holders, namespaces, conflicts, metadata.
  by rewrite (getitem_obj _ _ _ Hds), (getitem_obj _ _ _ Hcs),
    (getitem_obj _ _ _ Hmd).
Qed.

Lemma record_discovery_run self discovery w doc :
  lock_path self ≠ memory_path self →
  document self w = Some doc →
  is_document doc = true →
  let w1 := exec (_acquire_lock self true) w in
  let hs := other_holders discovery doc in
  record_discovery self discovery w =
  (Ok (bool_decide (hs = [])),
   exec (json_dump (after_discovery discovery (utc_iso w) (ticks w) doc)
           (memory_path self))
     (advance (S (length hs)) w1)).
Proof.
  intros Hne Hdoc Hshape w1 hs. unfold record_discovery.
  erewrite bind_ok; [|apply acquire_ok]. unfold try_finally, _release_lock.
  erewrite bind_ok; cycle 1.
  { apply json_load_document. by rewrite document_acquire. }
  unfold record_discovery_store.
  erewrite bind_ok; [|by apply record_discovery_update_document].
  cbn. by rewrite negb_involutive.
Qed.

Lemma filter_nil_iff {A} (f : A → bool) (l : list A) :
  List.filter f l = [] ↔ ∀ x, x ∈ l → f x = false.
Proof.
  induction l as [|x l IH]; cbn [List.filter].
  - split; [|done]. intros _ x Hx. by apply elem_of_nil in Hx.
  - destruct (f x) eqn:Hfx.
    + split; [done|]. intros H. specialize (H x (list_elem_of_here _ _)).
      congruence.
    + rewrite IH. split.
      * intros H y [->|Hy]%elem_of_cons; auto.
      * intros H y Hy. apply H. by apply list_elem_of_further.
Qed.

Lemma filter_keys_NoDup {V} (f : string * V → bool) (d : list (string * V)) :
  Dict.unique_keys d → Dict.unique_keys (List.filter f d).
Proof.
  unfold Dict.unique_keys, Dict.keys.
  induction d as [|x d IH]; cbn [List.filter map]; [done|].
  intros [Hx Hd]%NoDup_cons. destruct (f x); cbn [map]; [|auto].
  apply NoDup_cons. split; [|auto].
  intros (y & Hy1 & Hy2)%list_elem_of_fmap. apply Hx.
  apply list_elem_of_fmap. exists y. split; [done|].
  apply list_elem_of_In. apply list_elem_of_In in Hy2.
  by apply filter_In in Hy2 as [? _].
Qed.

Lemma new_conflicts_length discovery clock n hs :
  length (new_conflicts discovery clock n hs) = length hs.
Proof.
  revert n. induction hs as [|[other ns] hs IH]; intros n; cbn; [done|].
  by rewrite IH.
Qed.

Lemma new_conflicts_lookup discovery clock hs :
  ∀ n i other ns,
    hs !! i = Some (other, ns) →
    new_conflicts discovery clock n hs !! i =
    Some (conflict_record discovery other
            (default JNull (held_value (key discovery) ns)) (clock (n + i)%nat)).
Proof.
  induction hs as [|[other0 ns0] hs IH]; intros n i other ns Hi; [done|].
  destruct i as [|i]; cbn in *.
  - simplify_eq. by rewrite Nat.add_0_r.
  - rewrite (IH _ _ _ _ Hi). by rewrite Nat.add_succ_r.
Qed.

Ltac get_set :=
  repeat first [rewrite get_set_eq | rewrite get_set_ne by done].

Section AfterDiscovery.
Context (discovery : AgentDiscovery) (clock : nat → string) (n : nat).
Context (doc : json) (Hdoc : is_document doc = true).
Let doc' := after_discovery discovery clock n doc.

Lemma after_discovery_namespaces :
  namespaces doc' =
  Dict.set (agent_id discovery)
    (JObj (Dict.set (key discovery) (asdict discovery)
             (own_entries (agent_id discovery) (namespaces doc))))
    (namespaces doc).
Proof.
  destruct (is_document_inv _ Hdoc)
    as (top & ds & cs & dec & md & -> & Hds & Hcs & Hdec & Hmd & _).
  unfold doc', after_discovery, namespaces at 1.
  erewrite getitem_obj; [|by get_set]. done.
Qed.

Lemma after_discovery_conflicts :
  conflicts doc' =
  (conflicts doc ++ new_conflicts discovery clock n (other_holders discovery doc))%list.
Proof.
  destruct (is_document_inv _ Hdoc)
    as (top & ds & cs & dec & md & -> & Hds & Hcs & Hdec & Hmd & _).
  unfold doc', after_discovery, conflicts at 1.
  erewrite getitem_obj; [|by get_set]. done.
Qed.

Lemma after_discovery_decisions : decisions doc' = decisions doc.
Proof.
  destruct (is_document_inv _ Hdoc)
    as (top & ds & cs & dec & md & -> & Hds & Hcs & Hdec & Hmd & _).
  unfold doc', after_discovery, decisions.
  erewrite getitem_obj; [|by get_set].
  by rewrite (getitem_obj _ _ _ Hdec).
Qed.

Lemma after_discovery_metadata :
  metadata doc' =
  Dict.set "total_discoveries" (JInt (size_sum (namespaces doc')))
    (Dict.set "last_updated"
       (JStr (clock (length (other_holders discovery doc) + n)%nat))
       (metadata doc)).
Proof.
  rewrite after_discovery_namespaces.
  destruct (is_document_inv _ Hdoc)
    as (top & ds & cs & dec & md & -> & Hds & Hcs & Hdec & Hmd & _).
  unfold doc', after_discovery, metadata at 1.
  erewrite getitem_obj; [|by get_set]. done.
Qed.

Lemma after_discovery_is_document : is_document doc' = true.
Proof.
  pose proof after_discovery_namespaces as Hns'.
  pose proof after_discovery_decisions as Hdec'.
  destruct (is_document_inv _ Hdoc)
    as (top & ds & cs & dec & md & -> & Hds & Hcs & Hdec & Hmd & Hnd & Hns & Hnd').
  unfold namespaces, decisions in Hns', Hdec'.
  rewrite (getitem_obj _ _ _ Hds) in Hns'. rewrite (getitem_obj _ _ _ Hdec) in Hdec'.
  unfold doc', after_discovery in *.
  eapply is_document_intro.
  - by get_set.
  - by get_set.
  - get_set. apply Hdec.
  - by get_set.
  - unfold namespaces. rewrite (getitem_obj _ _ _ Hds). by apply unique_keys_set.
  - unfold namespaces. rewrite (getitem_obj _ _ _ Hds).
    apply Forall_values_set; [|done].
    by apply is_namespace_set, own_entries_namespace.
  - done.
Qed.
End AfterDiscovery.

Lemma document_dump self j w :
  document self (exec (json_dump j (memory_path self)) w) = Some j.
Proof. unfold document, exec, json_dump. cbn. by rewrite lookup_insert_eq. Qed.

Lemma is_other_holder_false discovery other ns :
  is_other_holder discovery (other, ns) = false ↔
  (other ≠ agent_id discovery → holds_key (key discovery) ns = false).
Proof.
  unfold is_other_holder. cbn [fst snd]. rewrite andb_false_iff.
  rewrite bool_decide_eq_false. split.
  - intros [H|H] Hne; [done|done].
  - intros H. destruct (decide (other = agent_id discovery)) as [->|Hne].
    + left. by intros ?.
    + right. auto.
Qed.

Lemma other_holders_nil discovery doc :
  other_holders discovery doc = [] ↔
  ∀ other ns, (other, ns) ∈ namespaces doc → other ≠ agent_id discovery →
              holds_key (key discovery) ns = false.
Proof.
  unfold other_holders. rewrite filter_nil_iff. split.
  - intros H other ns Hin. by apply is_other_holder_false, H.
  - intros H [other ns] Hin. apply is_other_holder_false. by apply H.
Qed.

(** C1. On a store document, [record_discovery(discovery)] returns, and
    it returns [true] exactly when no other worker's namespace held
    [discovery.key] at the call; for a key no worker has seen it returns
    [true] and the conflict log is left as it was. *)
Theorem record_discovery_true_iff_novel self discovery w doc :
  lock_path self ≠ memory_path self →
  document self w = Some doc →
  is_document doc = true →
  ∃ (b : bool) (doc' : json),
    eval (record_discovery self discovery) w = Ok b
    ∧ document self (exec (record_discovery self discovery) w) = Some doc'
    ∧ (b = true ↔
       ∀ other ns, (other, ns) ∈ namespaces doc →
                   other ≠ agent_id discovery →
                   holds_key (key discovery) ns = false)
    ∧ ((∀ worker ns, (worker, ns) ∈ namespaces doc →
                     holds_key (key discovery) ns = false) →
       b = true ∧ conflicts doc' = conflicts doc).
Proof.
  intros Hne Hdoc Hshape.
  pose proof (record_discovery_run self discovery w doc Hne Hdoc Hshape) as Hrun.
  cbv zeta in Hrun. unfold eval, exec at 1. rewrite Hrun. cbn [fst snd].
  eexists _, _. split; [done|]. split; [apply document_dump|].
  rewrite bool_decide_eq_true, other_holders_nil. split; [done|].
  intros Hnew.
  assert (other_holders discovery doc = []) as Hnil.
  { apply other_holders_nil. intros other ns Hin _. by eapply Hnew. }
  split; [by apply other_holders_nil|].
  rewrite after_discovery_conflicts by done. rewrite Hnil. cbn.
  by rewrite app_nil_r.
Qed.

(** C1 on the sample store: worker A records the first discovery. *)
Lemma record_discovery_true_iff_novel_witness :
  lock_path Sample.store ≠ memory_path Sample.store
  ∧ document Sample.store Sample.world1 = Some Sample.document1
  ∧ is_document Sample.document1 = true
  ∧ ∃ (b : bool) (doc' : json),
      eval (record_discovery Sample.store Sample.endpoint_A) Sample.world1 = Ok b
      ∧ document Sample.store
          (exec (record_discovery Sample.store Sample.endpoint_A) Sample.world1)
        = Some doc'.
Proof.
  assert (lock_path Sample.store ≠ memory_path Sample.store) as H1
    by (vm_compute; discriminate).
  assert (document Sample.store Sample.world1 = Some Sample.document1) as H2
    by (vm_compute; reflexivity).
  assert (is_document Sample.document1 = true) as H3 by (vm_compute; reflexivity).
  repeat (split; [assumption|]).
  destruct (record_discovery_true_iff_novel
              Sample.store Sample.endpoint_A Sample.world1 Sample.document1
              H1 H2 H3) as (b & doc' & Heval & Hdoc & _).
  exists b, doc'. exact (conj Heval Hdoc).
Defined.

Lemma other_holders_held discovery doc other ns :
  is_document doc = true →
  (other, ns) ∈ other_holders discovery doc →
  (other, ns) ∈ namespaces doc ∧ other ≠ agent_id discovery
  ∧ ∃ existing, held_value (key discovery) ns = Some existing.
Proof.
  intros Hdoc Hin. unfold other_holders in Hin.
  apply list_elem_of_In, filter_In in Hin as [Hin Hheld].
  apply list_elem_of_In in Hin. split; [done|].
  unfold is_other_holder in Hheld. cbn [fst snd] in Hheld.
  apply andb_true_iff in Hheld as [Hother%bool_decide_eq_true Hheld].
  split; [done|].
  destruct (is_document_inv _ Hdoc)
    as (top & ds & cs & dec & md & -> & Hds & _ & _ & _ & _ & Hns & _).
  unfold namespaces in Hin. rewrite (getitem_obj _ _ _ Hds) in Hin.
  assert (is_namespace ns = true) as Hn.
  { rewrite Forall_forall in Hns. apply Hns. apply list_elem_of_fmap.
    by exists (other, ns). }
  destruct (namespace_held _ _ Hn Hheld) as (? & existing & _ & _ & ?).
  by exists existing.
Qed.

Lemma other_holders_distinct discovery doc :
  is_document doc = true → NoDup (Dict.keys (other_holders discovery doc)).
Proof.
  intros (top & ds & cs & dec & md & -> & Hds & _ & _ & _ & Hnd & _)
    %is_document_inv.
  unfold other_holders, namespaces. rewrite (getitem_obj _ _ _ Hds).
  by apply filter_keys_NoDup.
Qed.

(** C2. If [discovery.key] is held under exactly [N >= 1] other workers'
    namespaces (distinct workers: a document names each worker once), one
    call of [record_discovery] returns [false] and appends exactly [N]
    entries to the conflict log, the [i]-th for the [i]-th holder in the
    order of the document: the key, the workers as [new, existing], the
    values as [new, existing], and the time of the [i]-th clock reading of
    the call. *)
Theorem record_discovery_appends_one_conflict_per_holder
    self discovery w doc (N : nat) :
  lock_path self ≠ memory_path self →
  document self w = Some doc →
  is_document doc = true →
  length (other_holders discovery doc) = N →
  (1 ≤ N)%nat →
  ∃ (doc' : json) (appended : list json),
    eval (record_discovery self discovery) w = Ok false
    ∧ document self (exec (record_discovery self discovery) w) = Some doc'
    ∧ conflicts doc' = (conflicts doc ++ appended)%list
    ∧ length appended = N
    ∧ NoDup (Dict.keys (other_holders discovery doc))
    ∧ ∀ i other ns,
        other_holders discovery doc !! i = Some (other, ns) →
        (other, ns) ∈ namespaces doc
        ∧ other ≠ agent_id discovery
        ∧ ∃ existing,
            held_value (key discovery) ns = Some existing
            ∧ appended !! i =
              Some (JObj [ ("key", JStr (key discovery));
                           ("agents", JArr [JStr (agent_id discovery); JStr other]);
                           ("values", JArr [value discovery; existing]);
                           ("timestamp", JStr (utc_iso w (ticks w + i)%nat)) ]).
Proof.
  intros Hne Hdoc Hshape HN Hpos.
  pose proof (record_discovery_run self discovery w doc Hne Hdoc Hshape) as Hrun.
  cbv zeta in Hrun. unfold eval, exec at 1. rewrite Hrun. cbn [fst snd].
  eexists _, _. split_and!.
  - f_equal. apply bool_decide_eq_false. intros Hnil. rewrite Hnil in HN.
    cbn in HN. lia.
  - apply document_dump.
  - by apply after_discovery_conflicts.
  - by rewrite new_conflicts_length.
  - by apply other_holders_distinct.
  - intros i other ns Hi.
    destruct (other_holders_held discovery doc other ns Hshape)
      as (Hin & Hother & existing & Hheld).
    { by eapply list_elem_of_lookup_2. }
    split_and!; [done..|]. exists existing. split; [done|].
    rewrite (new_conflicts_lookup _ _ _ _ _ _ _ Hi). by rewrite Hheld.
Qed.

(** C2 on the sample store: worker B records a key that A holds. *)
Lemma record_discovery_appends_one_conflict_per_holder_witness :
  lock_path Sample.store ≠ memory_path Sample.store
  ∧ document Sample.store Sample.world2 = Some Sample.document2
  ∧ is_document Sample.document2 = true
  ∧ length (other_holders Sample.endpoint_B Sample.document2) = 1%nat
  ∧ (1 ≤ 1)%nat
  ∧ ∃ (doc' : json) (appended : list json),
      eval (record_discovery Sample.store Sample.endpoint_B) Sample.world2
      = Ok false
      ∧ conflicts doc' = (conflicts Sample.document2 ++ appended)%list
      ∧ length appended = 1%nat.
Proof.
  assert (lock_path Sample.store ≠ memory_path Sample.store) as H1
    by (vm_compute; discriminate).
  assert (document Sample.store Sample.world2 = Some Sample.document2) as H2
    by (vm_compute; reflexivity).
  assert (is_document Sample.document2 = true) as H3 by (vm_compute; reflexivity).
  assert (length (other_holders Sample.endpoint_B Sample.document2) = 1%nat)
    as H4 by (vm_compute; reflexivity).
  assert (1 ≤ 1)%nat as H5 by lia.
  repeat (split; [assumption|]).
  destruct (record_discovery_appends_one_conflict_per_holder
              Sample.store Sample.endpoint_B Sample.world2 Sample.document2 1
              H1 H2 H3 H4 H5) as (doc' & appended & Heval & _ & Hc & Hl & _).
  exists doc', appended. exact (conj Heval (conj Hc Hl)).
Defined.

(** C3, amended. [record_discovery] compares no values: whenever another
    worker's namespace holds [discovery.key], with whatever value (equal to
    [discovery.value] or not), the call returns [false] and appends a
    conflict entry naming that worker and both values. *)
Theorem record_discovery_logs_conflict_whatever_the_values
    self discovery w doc other ns existing :
  lock_path self ≠ memory_path self →
  document self w = Some doc →
  is_document doc = true →
  (other, ns) ∈ namespaces doc →
  other ≠ agent_id discovery →
  held_value (key discovery) ns = Some existing →
  ∃ (doc' : json) (appended : list json) (now : string),
    eval (record_discovery self discovery) w = Ok false
    ∧ document self (exec (record_discovery self discovery) w) = Some doc'
    ∧ conflicts doc' = (conflicts doc ++ appended)%list
    ∧ conflict_record discovery other existing now ∈ appended.
Proof.
  intros Hne Hdoc Hshape Hin Hother Hheld.
  assert ((other, ns) ∈ other_holders discovery doc) as Hh.
  { unfold other_holders. apply list_elem_of_In, filter_In. split.
    - by apply list_elem_of_In.
    - unfold is_other_holder. cbn [fst snd]. apply andb_true_iff. split.
      + by apply bool_decide_eq_true.
      + unfold held_value in Hheld. destruct ns as [| | | | |?|es]; try done.
        unfold holds_key. apply mem_true.
        destruct (Dict.get (key discovery) es); [eauto|done]. }
  apply list_elem_of_lookup in Hh as [i Hi].
  pose proof (record_discovery_run self discovery w doc Hne Hdoc Hshape) as Hrun.
  cbv zeta in Hrun. unfold eval, exec at 1. rewrite Hrun. cbn [fst snd].
  eexists _, _, _. split_and!.
  - f_equal. apply bool_decide_eq_false. intros Hnil. by rewrite Hnil in Hi.
  - apply document_dump.
  - by apply after_discovery_conflicts.
  - eapply list_elem_of_lookup_2.
    rewrite (new_conflicts_lookup _ _ _ _ _ _ _ Hi). by rewrite Hheld.
Qed.

(** C3, amended, on the sample store: worker C records the key and the
    value that A holds. *)
Lemma record_discovery_logs_conflict_whatever_the_values_witness :
  let ns := JObj [("endpoint", asdict Sample.endpoint_A)] in
  lock_path Sample.store ≠ memory_path Sample.store
  ∧ document Sample.store Sample.world2 = Some Sample.document2
  ∧ is_document Sample.document2 = true
  ∧ ("A", ns) ∈ namespaces Sample.document2
  ∧ "A" ≠ agent_id Sample.endpoint_C
  ∧ held_value (key Sample.endpoint_C) ns = Some (value Sample.endpoint_C)
  ∧ ∃ (doc' : json) (appended : list json) (now : string),
      eval (record_discovery Sample.store Sample.endpoint_C) Sample.world2
      = Ok false
      ∧ conflicts doc' = (conflicts Sample.document2 ++ appended)%list
      ∧ conflict_record Sample.endpoint_C "A" (value Sample.endpoint_C) now
        ∈ appended.
Proof.
  intros ns.
  assert (lock_path Sample.store ≠ memory_path Sample.store) as H1
    by (vm_compute; discriminate).
  assert (document Sample.store Sample.world2 = Some Sample.document2) as H2
    by (vm_compute; reflexivity).
  assert (is_document Sample.document2 = true) as H3 by (vm_compute; reflexivity).
  assert (("A", ns) ∈ namespaces Sample.document2) as H4
    by (vm_compute; left).
  assert ("A" ≠ agent_id Sample.endpoint_C) as H5 by (vm_compute; discriminate).
  assert (held_value (key Sample.endpoint_C) ns = Some (value Sample.endpoint_C))
    as H6 by (vm_compute; reflexivity).
  repeat (split; [assumption|]).
  destruct (record_discovery_logs_conflict_whatever_the_values
              Sample.store Sample.endpoint_C Sample.world2 Sample.document2
              "A" ns (value Sample.endpoint_C) H1 H2 H3 H4 H5 H6)
    as (doc' & appended & now & Heval & _ & Hc & Hin).
  exists doc', appended, now. exact (conj Heval (conj Hc Hin)).
Defined.

(** C3 as stated fails: worker A holds ["endpoint"] with the value that
    worker C records, the conflict log is empty before the call and has one
    entry, with twice the same value, after it. *)
Lemma equal_values_still_logged :
  let before := Sample.document2 in
  let call := record_discovery Sample.store Sample.endpoint_C in
  document Sample.store Sample.world2 = Some before
  ∧ held_value "endpoint" (JObj (own_entries "A" (namespaces before)))
    = Some (value Sample.endpoint_C)
  ∧ agent_id Sample.endpoint_C ≠ "A"
  ∧ conflicts before = []
  ∧ eval call Sample.world2 = Ok false
  ∧ conflicts <$> document Sample.store (exec call Sample.world2) =
    Some [ JObj [ ("key", JStr "endpoint");
                  ("agents", JArr [JStr "C"; JStr "A"]);
                  ("values", JArr [JObj [("path", JStr "/x")];
                                   JObj [("path", JStr "/x")]]);
                  ("timestamp", JStr "2024-05-01T10:00:02") ] ].
Proof. vm_compute. repeat split; try reflexivity; discriminate. Qed.

(** *** [record_decision] *)

Lemma record_decision_update_spec key decision decided_by memory w :
  ∃ r, record_decision_update key decision decided_by memory w = (r, tick w)
       ∧ match r with
         | Ok memory' =>
             memory' = after_decision key decision decided_by
                         (utc_iso w (ticks w)) memory
             ∧ ∃ top dec, memory = JObj top
                          ∧ Dict.get "decisions" top = Some (JObj dec)
         | Raise _ =>
             after_decision key decision decided_by (utc_iso w (ticks w)) memory
             = memory
         end.
Proof.
  unfold record_decision_update. rewrite bind_utcnow.
  destruct memory as [| | | | |?|top];
    try (eexists; split; [reflexivity|done]).
  unfold after_decision, getitem.
  destruct (Dict.get "decisions" top) as [[| | | | |?|dec]|] eqn:Hdec;
    try (eexists; split; [reflexivity|done]).
  eexists. split; [reflexivity|]. cbn [setitem]. eauto.
Qed.

Lemma document_with_lock self w fs :
  lock_path self ≠ memory_path self →
  document self (with_files (<[lock_path self := fs]> (files w)) w)
  = document self w.
Proof. intros Hne. unfold document. cbn. by rewrite lookup_insert_ne. Qed.

Lemma document_tick self w : document self (tick w) = document self w.
Proof. done. Qed.

Lemma record_decision_run self key decision decided_by w doc :
  lock_path self ≠ memory_path self →
  document self w = Some doc →
  ∃ r, eval (record_decision self key decision decided_by) w = r
       ∧ document self (exec (record_decision self key decision decided_by) w)
         = Some (after_decision key decision decided_by (utc_iso w (ticks w)) doc)
       ∧ ticks (exec (record_decision self key decision decided_by) w)
         = S (ticks w)
       ∧ utc_iso (exec (record_decision self key decision decided_by) w)
         = utc_iso w
       ∧ ((∃ top dec, doc = JObj top ∧ Dict.get "decisions" top = Some (JObj dec))
          → r = Ok tt).
Proof.
  intros Hne Hdoc. unfold eval, exec, record_decision.
  erewrite bind_ok; [|apply acquire_ok]. unfold try_finally, _release_lock.
  erewrite bind_ok; cycle 1.
  { apply json_load_document. by rewrite document_acquire. }
  destruct (record_decision_update_spec key decision decided_by doc
              (exec (_acquire_lock self true) w)) as (r & Hr & Hspec).
  destruct r as [memory'|e].
  - erewrite bind_ok; [|exact Hr]. destruct Hspec as [-> _].
    cbn. eexists. split_and!; [done| |done|done|done].
    unfold document. cbn. by rewrite lookup_insert_eq.
  - erewrite bind_raise; [|exact Hr]. cbn. eexists.
    split_and!; [done| |done|done|].
    + cbn in Hspec. rewrite Hspec. unfold document in *. cbn.
      by rewrite lookup_insert_ne.
    + intros (top & dec & -> & Hdec). exfalso.
      unfold record_decision_update in Hr. rewrite bind_utcnow in Hr.
      rewrite (getitem_obj _ _ _ Hdec) in Hr. by cbn in Hr.
Qed.

(** *** The calls that only read *)

Lemma read_run {A} self (exclusive : bool) (f : json → result A) w doc :
  lock_path self ≠ memory_path self →
  document self w = Some doc →
  (_ ← _acquire_lock self exclusive;
   try_finally (memory ← json_load (memory_path self); lift (f memory))
     (_release_lock self)) w
  = (f doc, exec (_acquire_lock self exclusive) w).
Proof.
  intros Hne Hdoc.
  erewrite bind_ok; [|apply acquire_ok]. unfold try_finally, _release_lock.
  erewrite bind_ok; cycle 1.
  { apply json_load_document. by rewrite document_acquire. }
  done.
Qed.

Lemma get_conflicts_run self w doc :
  lock_path self ≠ memory_path self →
  document self w = Some doc →
  get_conflicts self w
  = (get_default doc "conflicts" (JArr []), exec (_acquire_lock self false) w).
Proof. intros. unfold get_conflicts. by erewrite read_run. Qed.

Lemma get_agent_summary_run self w doc :
  lock_path self ≠ memory_path self →
  document self w = Some doc →
  get_agent_summary self w
  = (summary_of doc, exec (_acquire_lock self false) w).
Proof. intros. unfold get_agent_summary. by erewrite read_run. Qed.

Lemma get_shared_knowledge_run self agent_id w doc :
  lock_path self ≠ memory_path self →
  document self w = Some doc →
  get_shared_knowledge self agent_id w
  = (match agent_id with
     | Some worker =>
         if truthy agent_id then
           result_bind (getitem doc "discoveries") (λ discoveries,
           get_default discoveries worker (JObj []))
         else Ok doc
     | None => Ok doc
     end, exec (_acquire_lock self false) w).
Proof.
  intros Hne Hdoc. unfold get_shared_knowledge.
  erewrite bind_ok; [|apply acquire_ok]. unfold try_finally, _release_lock.
  erewrite bind_ok; cycle 1.
  { apply json_load_document. by rewrite document_acquire. }
  destruct agent_id as [worker|]; [|done].
  destruct (truthy (Some worker)); [|done].
  unfold mbind, Py_bind, lift, result_bind.
  by destruct (getitem doc "discoveries").
Qed.

(** *** The summary *)

Lemma max_from_timestamps es :
  Forall (λ e, is_entry e = true) es →
  ∀ ts, ∃ ts', max_from (λ d, getitem d "timestamp") (JStr ts) es = Ok (JStr ts').
Proof.
  induction 1 as [|e es He _ IH]; intros ts; [by eexists|].
  apply is_entry_inv in He as (fields & v & t & -> & _ & Ht).
  cbn [max_from]. rewrite (getitem_obj _ _ _ Ht). cbn [result_bind py_gt].
  destruct (String.ltb ts t); apply IH.
Qed.

Lemma py_max_timestamps es default :
  Forall (λ e, is_entry e = true) es →
  ∃ last, py_max (λ d, getitem d "timestamp") es default = Ok last.
Proof.
  intros Hes. destruct Hes as [|e es He Hes]; [by eexists|].
  apply is_entry_inv in He as (fields & v & t & -> & _ & Ht).
  cbn [py_max]. rewrite (getitem_obj _ _ _ Ht). cbn [result_bind].
  destruct (max_from_timestamps es Hes t) as [ts' ->]. by eexists.
Qed.

Lemma summary_agents_ok its :
  Forall (λ ns, is_namespace ns = true) (Dict.values its) →
  ∀ agents, ∃ agents', summary_agents (JObj agents) its = Ok (JObj agents').
Proof.
  induction its as [|[worker ns] its IH]; intros Hits agents; [by eexists|].
  apply Forall_cons in Hits as [Hns Hits]. cbn [snd] in Hns.
  apply is_namespace_inv in Hns as (es & -> & _ & Hes).
  cbn [summary_agents summary_step len values result_bind].
  destruct (py_max_timestamps (Dict.values es) (JStr "Never") Hes) as [last ->].
  cbn [result_bind setitem]. by apply IH.
Qed.

Lemma summary_of_document doc :
  is_document doc = true →
  ∃ agents,
    summary_of doc =
    Ok (JObj [ ("total_agents", JInt (Z.of_nat (length (namespaces doc))));
               ("total_discoveries",
                default (JInt 0) (Dict.get "total_discoveries" (metadata doc)));
               ("total_conflicts", JInt (Z.of_nat (length (conflicts doc))));
               ("total_decisions", JInt (Z.of_nat (length (decisions doc))));
               ("agents", JObj agents) ]).
Proof.
  intros (top & ds & cs & dec & md & -> & Hds & Hcs & Hdec & Hmd & _ & Hns & _)
    %is_document_inv.
  unfold summary_of, namespaces, conflicts, decisions, metadata.
  rewrite (getitem_obj _ _ _ Hds), (getitem_obj _ _ _ Hmd),
    (getitem_obj _ _ _ Hcs), (getitem_obj _ _ _ Hdec).
  unfold get_default. rewrite Hcs, Hdec.
  cbn [result_bind len items].
  destruct (summary_agents_ok ds Hns []) as [agents ->].
  exists agents. cbn [result_bind]. by destruct (Dict.get "total_discoveries" md).
Qed.

(** *** [checkpoint] *)

Lemma checkpoint_stamp_spec checkpoint_name top md w :
  Dict.get "metadata" top = Some (JObj md) →
  checkpoint_stamp checkpoint_name (JObj top) w =
  (Ok (stamped checkpoint_name (utc_iso w (ticks w)) (JObj top)), tick w).
Proof.
  intros Hmd. unfold checkpoint_stamp, stamped, metadata.
  rewrite (getitem_obj _ _ _ Hmd); py_ok. cbn [setitem]; py_ok.
  rewrite bind_utcnow.
  rewrite (getitem_obj "metadata" _ _ (get_set_eq _ _ _)); py_ok.
  cbn [setitem]; py_ok. by rewrite set_set.
Qed.

(** *** Names of files *)

Lemma prefix_char c a s :
  String.prefix (String c EmptyString) (String a s) = bool_decide (c = a).
Proof.
  cbn. destruct (ascii_dec c a) as [->|Hne].
  - rewrite bool_decide_true by done. by destruct s.
  - by rewrite bool_decide_false.
Qed.

Lemma is_substring_char_cons c a s :
  is_substring (String c EmptyString) (String a s)
  = bool_decide (c = a) || is_substring (String c EmptyString) s.
Proof. cbn [is_substring]. by rewrite prefix_char. Qed.

Lemma is_substring_char_app c s1 s2 :
  is_substring (String c EmptyString) (s1 +:+ s2)
  = is_substring (String c EmptyString) s1
    || is_substring (String c EmptyString) s2.
Proof.
  induction s1 as [|a s1 IH]; [done|].
  change (String a s1 +:+ s2) with (String a (s1 +:+ s2)).
  rewrite !is_substring_char_cons, IH. by rewrite orb_assoc.
Qed.

Lemma pretty_N_go_char c x s :
  (∀ d, pretty_N_char d ≠ c) →
  is_substring (String c EmptyString) (pretty_N_go x s)
  = is_substring (String c EmptyString) s.
Proof.
  intros Hc. revert s. induction (N.lt_wf_0 x) as [x _ IH]; intros s.
  destruct (decide (x = 0)%N) as [->|Hx]; [by rewrite pretty_N_go_0|].
  rewrite pretty_N_go_step by lia.
  rewrite IH by (apply N.div_lt; lia).
  rewrite is_substring_char_cons. rewrite bool_decide_false; [done|].
  intros ->. by eapply Hc.
Qed.

Lemma pretty_Z_char c (t : Z) :
  (∀ d, pretty_N_char d ≠ c) → c ≠ "-"%char →
  is_substring (String c EmptyString) (pretty t) = false.
Proof.
  intros Hc Hdash.
  assert (∀ x : positive,
            is_substring (String c EmptyString) (pretty x) = false) as Hpos.
  { intros x. unfold pretty, pretty_positive, pretty, pretty_N.
    rewrite decide_False by done. by rewrite pretty_N_go_char. }
  destruct t as [|x|x]; unfold pretty at 1, pretty_Z.
  - rewrite is_substring_char_cons. rewrite bool_decide_false; [done|].
    intros ->. by eapply (Hc 0%N).
  - apply Hpos.
  - rewrite is_substring_char_app, Hpos, is_substring_char_cons.
    by rewrite bool_decide_false.
Qed.

Lemma digits_not_slash d : pretty_N_char d ≠ "/"%char.
Proof. unfold pretty_N_char. by repeat (discriminate || case_match). Qed.

Lemma digits_not_nul d : pretty_N_char d ≠ "000"%char.
Proof. unfold pretty_N_char. by repeat (discriminate || case_match). Qed.

(** The slashes and the NUL characters of the name of a checkpoint file are
    those of the name of the checkpoint. *)
Lemma checkpoint_file_name_char c checkpoint_name t :
  (∀ d, pretty_N_char d ≠ c) →
  is_substring (String c EmptyString) "checkpoint_.json-" = false →
  is_substring (String c EmptyString) (checkpoint_file_name checkpoint_name t)
  = is_substring (String c EmptyString) checkpoint_name.
Proof.
  intros Hdigits Hfixed. unfold checkpoint_file_name.
  assert (c ≠ "-"%char) as Hdash.
  { intros ->. discriminate Hfixed. }
  assert (is_substring (String c EmptyString) "checkpoint_" = false
          ∧ is_substring (String c EmptyString) "_" = false
          ∧ is_substring (String c EmptyString) ".json" = false)
    as (H1 & H2 & H3).
  { change "checkpoint_.json-" with ("checkpoint_" +:+ ".json" +:+ "-") in Hfixed.
    rewrite !is_substring_char_app in Hfixed.
    apply orb_false_elim in Hfixed as [H1 [H3 _]%orb_false_elim].
    split_and!; [done| |done].
    change "checkpoint_" with ("checkpoint" +:+ "_") in H1.
    rewrite is_substring_char_app in H1. by apply orb_false_elim in H1 as [_ ?]. }
  rewrite !is_substring_char_app, (pretty_Z_char _ t), H1, H2, H3 by done.
  cbn [orb]. by rewrite !orb_false_r.
Qed.

Lemma checkpoint_file_name_nul checkpoint_name t :
  is_substring nul (checkpoint_file_name checkpoint_name t)
  = is_substring nul checkpoint_name.
Proof. apply checkpoint_file_name_char; [apply digits_not_nul|reflexivity]. Qed.

Lemma checkpoint_file_name_slash checkpoint_name t :
  is_substring "/" (checkpoint_file_name checkpoint_name t)
  = is_substring "/" checkpoint_name.
Proof. apply checkpoint_file_name_char; [apply digits_not_slash|reflexivity]. Qed.

Lemma check_file_name_checkpoint is_file checkpoint_name t :
  plain_name checkpoint_name = true →
  check_file_name is_file (checkpoint_file_name checkpoint_name t) = Ok tt.
Proof.
  unfold plain_name, check_file_name.
  rewrite checkpoint_file_name_nul, checkpoint_file_name_slash.
  by destruct (is_substring nul checkpoint_name),
       (is_substring "/" checkpoint_name); cbn.
Qed.


Lemma open_new_plain `{Pathlib} directory checkpoint_name t w :
  plain_name checkpoint_name = true →
  open_new directory (checkpoint_file_name checkpoint_name t) w = (Ok tt, w).
Proof.
  intros Hplain. unfold open_new. by rewrite check_file_name_checkpoint.
Qed.

Section Checkpoint.
Context `{Pathlib}.

(** What [checkpoint] does on a store document: the copy is written if
    [open] takes the name of its file. *)
Lemma checkpoint_steps self checkpoint_name w doc :
  lock_path self ≠ memory_path self →
  document self w = Some doc →
  is_document doc = true →
  checkpoint self checkpoint_name w =
  match eval (open_new (parent (memory_path self))
                (checkpoint_file_name checkpoint_name (unix_time w (ticks w))))
          (advance 2 (exec (_acquire_lock self false) w)) with
  | Ok _ =>
      (Ok (checkpoint_path_at self checkpoint_name w),
       exec (json_dump (stamped checkpoint_name (utc_iso w (S (ticks w))) doc)
               (checkpoint_path_at self checkpoint_name w))
         (advance 2 (exec (_acquire_lock self false) w)))
  | Raise e => (Raise e, advance 2 (exec (_acquire_lock self false) w))
  end.
Proof.
  intros Hne Hdoc
    (top & ds & cs & dec & md & -> & _ & _ & _ & Hmd & _)%is_document_inv.
  unfold checkpoint.
  erewrite bind_ok; [|apply acquire_ok]. unfold try_finally, _release_lock.
  erewrite bind_ok; [|reflexivity].
  erewrite bind_ok; cycle 1.
  { apply json_load_document. by rewrite document_tick, document_acquire. }
  erewrite bind_ok; [|by eapply checkpoint_stamp_spec].
  unfold json_dump_as, eval, open_new, mbind, Py_bind. cbn beta. cbn [fst].
  by destruct (check_file_name _ _) as [[]|e].
Qed.

Lemma checkpoint_run self checkpoint_name w doc :
  lock_path self ≠ memory_path self →
  document self w = Some doc →
  is_document doc = true →
  plain_name checkpoint_name = true →
  checkpoint self checkpoint_name w =
  (Ok (checkpoint_path_at self checkpoint_name w),
   exec (json_dump (stamped checkpoint_name (utc_iso w (S (ticks w))) doc)
           (checkpoint_path_at self checkpoint_name w))
     (advance 2 (exec (_acquire_lock self false) w))).
Proof.
  intros Hne Hdoc Hshape Hplain.
  rewrite (checkpoint_steps self checkpoint_name w doc Hne Hdoc Hshape).
  unfold eval. by rewrite (open_new_plain _ _ _ _ Hplain).
Qed.
End Checkpoint.

Lemma stamped_is_document checkpoint_name now doc :
  is_document doc = true → is_document (stamped checkpoint_name now doc) = true.
Proof.
  intros (top & ds & cs & dec & md & -> & Hds & Hcs & Hdec & Hmd & ? & ? & ?)
    %is_document_inv.
  unfold stamped. apply (is_document_intro _ ds cs dec
    (Dict.set "checkpoint_time" (JStr now)
       (Dict.set "checkpoint_name" (JStr checkpoint_name)
          (metadata (JObj top))))); try done; by get_set.
Qed.

Lemma stamped_getitem checkpoint_name now doc field :
  field ≠ "metadata" →
  getitem (stamped checkpoint_name now doc) field = getitem doc field.
Proof.
  intros Hne. destruct doc as [| | | | |?|top]; try done.
  unfold stamped, getitem. by rewrite get_set_ne.
Qed.

Lemma stamped_metadata checkpoint_name now doc :
  is_document doc = true →
  metadata (stamped checkpoint_name now doc) =
  Dict.set "checkpoint_time" (JStr now)
    (Dict.set "checkpoint_name" (JStr checkpoint_name) (metadata doc)).
Proof.
  intros (top & ds & cs & dec & md & -> & _)%is_document_inv.
  unfold stamped, metadata at 1. by rewrite (getitem_obj _ _ _ (get_set_eq _ _ _)).
Qed.

(** *** [_initialize_memory] *)

Lemma initialize_present self w :
  is_Some (files w !! memory_path self) → _initialize_memory self w = (Ok tt, w).
Proof.
  intros Hsome. unfold _initialize_memory.
  erewrite bind_ok; [|reflexivity]. by rewrite bool_decide_eq_true_2.
Qed.

Lemma initialize_absent self w :
  files w !! memory_path self = None →
  _initialize_memory self w =
  (Ok tt, exec (json_dump (fresh_document (utc_iso w (ticks w)))
                  (memory_path self)) (tick w)).
Proof.
  intros Hnone. unfold _initialize_memory.
  erewrite bind_ok; [|reflexivity].
  rewrite bool_decide_eq_false_2; [done|]. rewrite Hnone. by intros [? ?].
Qed.

Lemma json_size_get k d v :
  Dict.get k d = Some v → (json_size v < json_size (JObj d))%nat.
Proof.
  cbn [json_size]. induction d as [|[k0 v0] d IH]; [done|].
  cbn [Dict.get map snd]. rewrite (list_sum_app [_] _ : list_sum (_ :: _) = _).
  cbn [list_sum fold_right].
  destruct (decide (k0 = k)); intros Hget.
  - simplify_eq. lia.
  - specialize (IH Hget). lia.
Qed.

Lemma namespace_is_not_document doc worker ns :
  Dict.get worker (namespaces doc) = Some ns → ns ≠ doc.
Proof.
  intros Hget ->. unfold namespaces, getitem in Hget.
  destruct doc as [| | | | |?|top]; try done.
  destruct (Dict.get "discoveries" top) as [[| | | | |?|ds]|] eqn:Hds; try done.
  apply json_size_get in Hget, Hds. lia.
Qed.

(** C9. [get_shared_knowledge] called with the empty string returns the
    whole document, which is never the namespace of the worker named by
    the empty string; for a non-empty worker
    identifier it returns that worker's mapping, the empty mapping when the
    worker has recorded nothing. *)
Theorem get_shared_knowledge_empty_worker self w doc :
  lock_path self ≠ memory_path self →
  document self w = Some doc →
  eval (get_shared_knowledge self (Some EmptyString)) w = Ok doc
  ∧ (∀ ns, Dict.get EmptyString (namespaces doc) = Some ns → ns ≠ doc)
  ∧ (∀ worker, worker ≠ EmptyString → is_document doc = true →
       eval (get_shared_knowledge self (Some worker)) w
       = Ok (JObj (own_entries worker (namespaces doc)))
       ∧ (Dict.get worker (namespaces doc) = None →
          eval (get_shared_knowledge self (Some worker)) w = Ok (JObj []))).
Proof.
  intros Hne Hdoc. split_and!.
  - unfold eval. by rewrite (get_shared_knowledge_run _ _ _ _ Hne Hdoc).
  - intros ns. apply namespace_is_not_document.
  - intros worker Hworker Hshape.
    assert (eval (get_shared_knowledge self (Some worker)) w
            = Ok (JObj (own_entries worker (namespaces doc)))) as Heval.
    { unfold eval. rewrite (get_shared_knowledge_run _ _ _ _ Hne Hdoc).
      cbn [fst]. destruct worker as [|c worker]; [done|]. cbn [truthy].
      destruct (is_document_inv _ Hshape)
        as (top & ds & cs & dec & md & -> & Hds & _ & _ & _ & _ & Hns & _).
      unfold namespaces. rewrite (getitem_obj _ _ _ Hds).
      cbn [result_bind get_default]. unfold own_entries.
      destruct (Dict.get (String c worker) ds) as [ns|] eqn:Hget; [|done].
      pose proof (values_namespace _ _ _ Hns Hget) as Hn.
      by destruct (is_namespace_inv _ Hn) as (es & -> & _). }
    split; [done|]. intros Hnone. rewrite Heval. unfold own_entries.
    by rewrite Hnone.
Qed.

(** C9 on the sample store. *)
Lemma get_shared_knowledge_empty_worker_witness :
  lock_path Sample.store ≠ memory_path Sample.store
  ∧ document Sample.store Sample.world2 = Some Sample.document2
  ∧ eval (get_shared_knowledge Sample.store (Some EmptyString)) Sample.world2
    = Ok Sample.document2.
Proof.
  assert (lock_path Sample.store ≠ memory_path Sample.store) as H1
    by (vm_compute; discriminate).
  assert (document Sample.store Sample.world2 = Some Sample.document2) as H2
    by (vm_compute; reflexivity).
  repeat (split; [assumption|]).
  exact (proj1 (get_shared_knowledge_empty_worker
                  Sample.store Sample.world2 Sample.document2 H1 H2)).
Defined.

(** C10. Whatever the document, [record_decision(key, ...)] leaves every
    top-level part other than ["decisions"] as it was (the discoveries, the
    conflict log, and the metadata with its [last_updated] and
    [total_discoveries]) and every decision under another key; on a store
    document it returns and sets [decisions[key]] to the new entry. *)
Theorem record_decision_changes_only_its_entry
    self key decision decided_by w doc :
  lock_path self ≠ memory_path self →
  document self w = Some doc →
  ∃ doc',
    document self (exec (record_decision self key decision decided_by) w)
    = Some doc'
    ∧ (∀ field, field ≠ "decisions" → getitem doc' field = getitem doc field)
    ∧ namespaces doc' = namespaces doc
    ∧ conflicts doc' = conflicts doc
    ∧ metadata doc' = metadata doc
    ∧ (∀ k, k ≠ key →
         Dict.get k (decisions doc') = Dict.get k (decisions doc))
    ∧ (is_document doc = true →
         eval (record_decision self key decision decided_by) w = Ok tt
         ∧ Dict.get key (decisions doc')
           = Some (decision_record decision decided_by (utc_iso w (ticks w)))).
Proof.
  intros Hne Hdoc.
  destruct (record_decision_run self key decision decided_by w doc Hne Hdoc)
    as (r & Hr & Hdoc' & _ & _ & Hok).
  eexists. split; [exact Hdoc'|].
  assert (∀ field, field ≠ "decisions" →
            getitem (after_decision key decision decided_by
                       (utc_iso w (ticks w)) doc) field
            = getitem doc field) as Hframe.
  { intros field Hfield. unfold after_decision.
    destruct doc as [| | | | |?|top]; try done.
    destruct (Dict.get "decisions" top) as [[| | | | |?|dec]|]; try done.
    unfold getitem. by rewrite get_set_ne. }
  split; [exact Hframe|].
  unfold namespaces, conflicts, metadata. rewrite !Hframe by done.
  split_and!; try done.
  - intros k Hk. unfold decisions, after_decision.
    destruct doc as [| | | | |?|top]; try done.
    destruct (Dict.get "decisions" top) as [[| | | | |?|dec]|] eqn:Hdec; try done.
    rewrite (getitem_obj _ _ _ (get_set_eq _ _ _)), (getitem_obj _ _ _ Hdec).
    by rewrite get_set_ne.
  - intros (top & ds & cs & dec & md & -> & _ & _ & Hdec & _)%is_document_inv.
    split; [rewrite Hr; apply Hok; eauto|].
    unfold decisions, after_decision. rewrite Hdec.
    rewrite (getitem_obj _ _ _ (get_set_eq _ _ _)). apply get_set_eq.
Qed.

(** C10 on the sample store. *)
Lemma record_decision_changes_only_its_entry_witness :
  lock_path Sample.store ≠ memory_path Sample.store
  ∧ document Sample.store Sample.world2 = Some Sample.document2
  ∧ ∃ doc',
      document Sample.store
        (exec (record_decision Sample.store "endpoint" (JStr "/x") "lead")
           Sample.world2) = Some doc'
      ∧ namespaces doc' = namespaces Sample.document2
      ∧ conflicts doc' = conflicts Sample.document2
      ∧ metadata doc' = metadata Sample.document2.
Proof.
  assert (lock_path Sample.store ≠ memory_path Sample.store) as H1
    by (vm_compute; discriminate).
  assert (document Sample.store Sample.world2 = Some Sample.document2) as H2
    by (vm_compute; reflexivity).
  repeat (split; [assumption|]).
  destruct (record_decision_changes_only_its_entry
              Sample.store "endpoint" (JStr "/x") "lead"
              Sample.world2 Sample.document2 H1 H2)
    as (doc' & Hdoc & _ & Hns & Hcs & Hmd & _).
  exists doc'. exact (conj Hdoc (conj Hns (conj Hcs Hmd))).
Defined.

(** C6. Initialization is idempotent: at a fresh path a second
    [_initialize_memory] changes nothing of what the first one wrote (the
    fresh document), and at a path that exists [_initialize_memory] changes
    nothing at all. *)
Theorem initialize_idempotent self w :
  (files w !! memory_path self = None →
     eval (_initialize_memory self) w = Ok tt
     ∧ document self (exec (_initialize_memory self) w)
       = Some (fresh_document (utc_iso w (ticks w)))
     ∧ eval (_initialize_memory self) (exec (_initialize_memory self) w) = Ok tt
     ∧ exec (_initialize_memory self) (exec (_initialize_memory self) w)
       = exec (_initialize_memory self) w)
  ∧ (is_Some (files w !! memory_path self) →
     eval (_initialize_memory self) w = Ok tt
     ∧ exec (_initialize_memory self) w = w).
Proof.
  split.
  - intros Hnone. unfold eval, exec.
    rewrite (initialize_absent _ _ Hnone). cbn [fst snd].
    rewrite initialize_present.
    + split_and!; try done. apply document_dump.
    + unfold exec, json_dump. cbn. rewrite lookup_insert_eq. eauto.
  - intros Hsome. unfold eval, exec. by rewrite initialize_present.
Qed.

(** C6 on the sample store, before and after its creation. *)
Lemma initialize_idempotent_witness :
  files Sample.world0 !! memory_path Sample.store = None
  ∧ is_Some (files Sample.world1 !! memory_path Sample.store)
  ∧ exec (_initialize_memory Sample.store)
      (exec (_initialize_memory Sample.store) Sample.world0)
    = exec (_initialize_memory Sample.store) Sample.world0
  ∧ exec (_initialize_memory Sample.store) Sample.world1 = Sample.world1.
Proof.
  assert (files Sample.world0 !! memory_path Sample.store = None) as H1
    by (vm_compute; reflexivity).
  assert (is_Some (files Sample.world1 !! memory_path Sample.store)) as H2
    by (vm_compute; eexists; reflexivity).
  split; [exact H1|]. split; [exact H2|]. split.
  - destruct (proj1 (initialize_idempotent Sample.store Sample.world0) H1)
      as (_ & _ & _ & Hsame). exact Hsame.
  - destruct (proj2 (initialize_idempotent Sample.store Sample.world1) H2)
      as (_ & Hsame). exact Hsame.
Defined.

(** C5, amended. When the name of the checkpoint has no [/] and no NUL
    character, so that it makes the name of a file of the store's
    directory, and the checkpoint file is not the store's own file,
    [checkpoint(name)] leaves the live document on disk unchanged and
    returns the path of a file that holds the document with
    [checkpoint_name] and [checkpoint_time] stamped into its metadata,
    every other part and every other metadata field as in the live
    document. *)
Theorem checkpoint_leaves_live_document `{Pathlib} self checkpoint_name w doc :
  lock_path self ≠ memory_path self →
  document self w = Some doc →
  is_document doc = true →
  plain_name checkpoint_name = true →
  checkpoint_path_at self checkpoint_name w ≠ memory_path self →
  ∃ path copy now,
    eval (checkpoint self checkpoint_name) w = Ok path
    ∧ files (exec (checkpoint self checkpoint_name) w) !! memory_path self
      = files w !! memory_path self
    ∧ document self (exec (checkpoint self checkpoint_name) w) = Some doc
    ∧ files (exec (checkpoint self checkpoint_name) w) !! path
      = Some (Json_file copy)
    ∧ (∀ field, field ≠ "metadata" → getitem copy field = getitem doc field)
    ∧ Dict.get "checkpoint_name" (metadata copy) = Some (JStr checkpoint_name)
    ∧ Dict.get "checkpoint_time" (metadata copy) = Some (JStr now)
    ∧ (∀ field, field ≠ "checkpoint_name" → field ≠ "checkpoint_time" →
         Dict.get field (metadata copy) = Dict.get field (metadata doc)).
Proof.
  intros Hne Hdoc Hshape Hplain Hpath.
  assert (files (exec (checkpoint self checkpoint_name) w) !! memory_path self
          = files w !! memory_path self) as Hlive.
  { unfold exec. rewrite (checkpoint_run _ _ _ _ Hne Hdoc Hshape Hplain).
    cbn. by rewrite !lookup_insert_ne. }
  exists (checkpoint_path_at self checkpoint_name w),
    (stamped checkpoint_name (utc_iso w (S (ticks w))) doc),
    (utc_iso w (S (ticks w))).
  split_and!.
  - unfold eval. by rewrite (checkpoint_run _ _ _ _ Hne Hdoc Hshape Hplain).
  - done.
  - unfold document in *. by rewrite Hlive.
  - unfold exec. rewrite (checkpoint_run _ _ _ _ Hne Hdoc Hshape Hplain).
    cbn. by rewrite lookup_insert_eq.
  - intros field Hfield. by apply stamped_getitem.
  - rewrite stamped_metadata by done. by get_set.
  - rewrite stamped_metadata by done. by get_set.
  - intros field H1 H2. rewrite stamped_metadata by done. by get_set.
Qed.

(** C5, amended, on the sample store. *)
Lemma checkpoint_leaves_live_document_witness :
  lock_path Sample.store ≠ memory_path Sample.store
  ∧ document Sample.store Sample.world2 = Some Sample.document2
  ∧ is_document Sample.document2 = true
  ∧ plain_name "nightly" = true
  ∧ checkpoint_path_at Sample.store "nightly" Sample.world2
    ≠ memory_path Sample.store
  ∧ ∃ path copy,
      eval (checkpoint Sample.store "nightly") Sample.world2 = Ok path
      ∧ document Sample.store (exec (checkpoint Sample.store "nightly") Sample.world2)
        = Some Sample.document2
      ∧ files (exec (checkpoint Sample.store "nightly") Sample.world2) !! path
        = Some (Json_file copy)
      ∧ Dict.get "checkpoint_name" (metadata copy) = Some (JStr "nightly").
Proof.
  assert (lock_path Sample.store ≠ memory_path Sample.store) as H1
    by (vm_compute; discriminate).
  assert (document Sample.store Sample.world2 = Some Sample.document2) as H2
    by (vm_compute; reflexivity).
  assert (is_document Sample.document2 = true) as H3 by (vm_compute; reflexivity).
  assert (plain_name "nightly" = true) as Hplain by reflexivity.
  assert (checkpoint_path_at Sample.store "nightly" Sample.world2
          ≠ memory_path Sample.store) as H4 by (vm_compute; discriminate).
  repeat (split; [assumption|]).
  destruct (checkpoint_leaves_live_document
              Sample.store "nightly" Sample.world2 Sample.document2 H1 H2 H3
              Hplain H4)
    as (path & copy & now & Heval & _ & Hlive & Hfile & _ & Hname & _).
  exists path, copy. exact (conj Heval (conj Hlive (conj Hfile Hname))).
Defined.

(** C5 as stated fails: for the store kept in
    [/shared/checkpoint_nightly_1714557601.json], [checkpoint("nightly")]
    taken at second 1714557601 writes its copy to the store's own file, and
    the live document now has [checkpoint_name]. *)
Lemma checkpoint_rewrites_a_store_named_like_it :
  let before := document Sample.clashing_store Sample.clashing_world in
  let call := checkpoint Sample.clashing_store "nightly" in
  let after := document Sample.clashing_store (exec call Sample.clashing_world) in
  lock_path Sample.clashing_store ≠ memory_path Sample.clashing_store
  ∧ is_document <$> before = Some true
  ∧ eval call Sample.clashing_world = Ok (memory_path Sample.clashing_store)
  ∧ Dict.get "checkpoint_name" ∘ metadata <$> before = Some None
  ∧ Dict.get "checkpoint_name" ∘ metadata <$> after
    = Some (Some (JStr "nightly"))
  ∧ after ≠ before.
Proof. vm_compute. repeat split; try reflexivity; discriminate. Qed.

(** *** Counting keys *)

Lemma remove_dups_NoDup {A} `{EqDecision A} (l : list A) :
  NoDup l → remove_dups l = l.
Proof.
  induction 1 as [|x l Hx _ IH]; [done|]. cbn [remove_dups].
  destruct (decide_rel elem_of x l); [done|]. by rewrite IH.
Qed.

Lemma key_count_namespace ns :
  is_namespace ns = true →
  key_count ns = match ns with JObj es => length es | _ => 0%nat end.
Proof.
  intros (es & -> & Hnd & _)%is_namespace_inv. unfold key_count.
  rewrite remove_dups_NoDup by done. unfold Dict.keys. by rewrite length_map.
Qed.

Lemma size_sum_key_counts doc :
  is_document doc = true → size_sum (namespaces doc) = sum_key_counts doc.
Proof.
  intros (top & ds & cs & dec & md & -> & Hds & _ & _ & _ & _ & Hns & _)
    %is_document_inv.
  unfold size_sum, sum_key_counts, namespaces. rewrite (getitem_obj _ _ _ Hds).
  do 2 f_equal. induction Hns as [|ns l Hn _ IH]; [done|].
  cbn [map]. by rewrite IH, (key_count_namespace _ Hn).
Qed.

Lemma after_discovery_total discovery clock n doc :
  is_document doc = true →
  let doc' := after_discovery discovery clock n doc in
  Dict.get "total_discoveries" (metadata doc') = Some (JInt (sum_key_counts doc')).
Proof.
  intros Hdoc doc'. unfold doc'.
  rewrite after_discovery_metadata by done. rewrite get_set_eq.
  rewrite size_sum_key_counts; [done|]. by apply after_discovery_is_document.
Qed.

(** *** Sequences of [record_discovery] *)

Lemma record_all_spec self discoveries :
  lock_path self ≠ memory_path self →
  ∀ w doc,
    document self w = Some doc →
    is_document doc = true →
    ∃ results doc',
      eval (record_all self discoveries) w = Ok results
      ∧ length results = length discoveries
      ∧ document self (exec (record_all self discoveries) w) = Some doc'
      ∧ is_document doc' = true
      ∧ (discoveries = [] → doc' = doc)
      ∧ (discoveries ≠ [] →
         Dict.get "total_discoveries" (metadata doc')
         = Some (JInt (sum_key_counts doc'))).
Proof.
  intros Hne. induction discoveries as [|d ds IH]; intros w doc Hdoc Hshape.
  - exists [], doc. by split_and!.
  - pose proof (record_discovery_run self d w doc Hne Hdoc Hshape) as Hrun.
    cbv zeta in Hrun.
    set (doc1 := after_discovery d (utc_iso w) (ticks w) doc) in *.
    assert (is_document doc1 = true) as Hshape1
      by by apply after_discovery_is_document.
    match type of Hrun with _ = (_, ?w1) => set (w1' := w1) in * end.
    assert (document self w1' = Some doc1) as Hdoc1 by apply document_dump.
    destruct (IH w1' doc1 Hdoc1 Hshape1)
      as (results & doc' & Heval & Hlen & Hdoc' & Hshape' & Hnil & Hcons).
    unfold eval, exec in *. cbn [record_all].
    erewrite bind_ok; [|exact Hrun].
    destruct (record_all self ds w1') as [r w2] eqn:Hrest.
    cbn [fst snd] in *. subst r.
    erewrite bind_ok; [|exact Hrest]. cbn [fst snd mret Py_ret].
    eexists _, doc'. split_and!; try done.
    + cbn. by rewrite Hlen.
    + intros _. destruct ds as [|d' ds'].
      * rewrite (Hnil eq_refl). by apply after_discovery_total.
      * by apply Hcons.
Qed.

(** C4. After any sequence of [record_discovery] calls on a freshly
    initialized store, all calls have returned and
    [metadata.total_discoveries], read with default 0 as
    [get_agent_summary] reads it, is the sum over the namespaces of their
    numbers of distinct keys; after at least one call the field is present
    with that value. *)
Theorem total_discoveries_is_sum_of_key_counts self w created discoveries :
  lock_path self ≠ memory_path self →
  document self w = Some (fresh_document created) →
  ∃ results doc',
    eval (record_all self discoveries) w = Ok results
    ∧ length results = length discoveries
    ∧ document self (exec (record_all self discoveries) w) = Some doc'
    ∧ get_default (JObj (metadata doc')) "total_discoveries" (JInt 0)
      = Ok (JInt (sum_key_counts doc'))
    ∧ (discoveries ≠ [] →
       Dict.get "total_discoveries" (metadata doc')
       = Some (JInt (sum_key_counts doc'))).
Proof.
  intros Hne Hdoc.
  destruct (record_all_spec self discoveries Hne w _ Hdoc
              (is_document_fresh created))
    as (results & doc' & Heval & Hlen & Hdoc' & Hshape' & Hnil & Hcons).
  exists results, doc'. split_and!; try done.
  destruct discoveries as [|d ds].
  - by rewrite (Hnil eq_refl).
  - unfold get_default. by rewrite Hcons.
Qed.

(** C4 on the sample store, for three calls. *)
Lemma total_discoveries_is_sum_of_key_counts_witness :
  let discoveries := [Sample.endpoint_A; Sample.endpoint_B; Sample.endpoint_C] in
  lock_path Sample.store ≠ memory_path Sample.store
  ∧ document Sample.store Sample.world1
    = Some (fresh_document "2024-05-01T10:00:00")
  ∧ ∃ doc',
      document Sample.store (exec (record_all Sample.store discoveries) Sample.world1)
      = Some doc'
      ∧ Dict.get "total_discoveries" (metadata doc')
        = Some (JInt (sum_key_counts doc')).
Proof.
  intros discoveries.
  assert (lock_path Sample.store ≠ memory_path Sample.store) as H1
    by (vm_compute; discriminate).
  assert (document Sample.store Sample.world1
          = Some (fresh_document "2024-05-01T10:00:00")) as H2
    by (vm_compute; reflexivity).
  repeat (split; [assumption|]).
  destruct (total_discoveries_is_sum_of_key_counts
              Sample.store Sample.world1 "2024-05-01T10:00:00" discoveries H1 H2)
    as (results & doc' & _ & _ & Hdoc & _ & Hsome).
  exists doc'. split; [exact Hdoc|]. apply Hsome. discriminate.
Defined.

(** *** Scripts of calls *)

Lemma after_decision_document key decision decided_by now doc :
  is_document doc = true →
  let doc' := after_decision key decision decided_by now doc in
  is_document doc' = true
  ∧ decisions doc' =
    Dict.set key (decision_record decision decided_by now) (decisions doc).
Proof.
  intros (top & ds & cs & dec & md & -> & Hds & Hcs & Hdec & Hmd & ? & ? & ?)
    %is_document_inv.
  cbv zeta. unfold after_decision, decisions. rewrite Hdec.
  rewrite (getitem_obj _ _ _ (get_set_eq _ _ _)), (getitem_obj _ _ _ Hdec).
  split; [|done].
  apply (is_document_intro _ ds cs
           (Dict.set key (decision_record decision decided_by now) dec) md);
    try done; try by get_set.
  by apply unique_keys_set.
Qed.



Lemma discard_result {A} (m : Py A) w a :
  eval m w = Ok a →
  eval (_ ← m; mret tt) w = Ok tt ∧ exec (_ ← m; mret tt) w = exec m w.
Proof.
  unfold eval, exec, mbind, Py_bind. destruct (m w) as [[a'|e] w']; [done|].
  cbn. discriminate.
Qed.

Lemma get_shared_knowledge_ok self agent_id w doc :
  lock_path self ≠ memory_path self →
  document self w = Some doc →
  is_document doc = true →
  ∃ r, eval (get_shared_knowledge self agent_id) w = Ok r
       ∧ exec (get_shared_knowledge self agent_id) w
         = exec (_acquire_lock self false) w.
Proof.
  intros Hne Hdoc Hshape. unfold eval, exec.
  rewrite (get_shared_knowledge_run _ _ _ _ Hne Hdoc). cbn [fst snd].
  destruct (is_document_inv _ Hshape)
    as (top & ds & cs & dec & md & -> & Hds & _).
  rewrite (getitem_obj _ _ _ Hds). cbn [result_bind get_default].
  destruct agent_id as [worker|]; [|by eexists].
  destruct (truthy (Some worker)); by eexists.
Qed.

Lemma discard_exec {A} (m : Py A) w : exec (_ ← m; mret tt) w = exec m w.
Proof. unfold exec. rewrite bind_unfold. by destruct (m w) as [[a|e] w']. Qed.

Lemma bind_eval_ok {A B} (m : Py A) (k : A → Py B) w a :
  eval m w = Ok a → (x ← m; k x) w = k a (exec m w).
Proof.
  unfold eval, exec. rewrite bind_unfold.
  destruct (m w) as [[a'|e] w']; cbn [fst snd]; [|done]. by intros [= ->].
Qed.



Section Scripts.
Context `{Pathlib}.
Context (self : AgentMemory) (Hpaths : lock_path self ≠ memory_path self).

Lemma checkpoint_document checkpoint_name w doc :
  document self w = Some doc →
  is_document doc = true →
  ∃ r doc',
    eval (checkpoint self checkpoint_name) w = r
    ∧ document self (exec (checkpoint self checkpoint_name) w) = Some doc'
    ∧ (doc' = doc
       ∨ doc' = stamped checkpoint_name (utc_iso w (S (ticks w))) doc)
    ∧ (plain_name checkpoint_name = true →
       r = Ok (checkpoint_path_at self checkpoint_name w)).
Proof.
  intros Hdoc Hshape. unfold eval, exec.
  rewrite (checkpoint_steps _ _ _ _ Hpaths Hdoc Hshape).
  pose proof (open_new_plain (parent (memory_path self)) checkpoint_name
                (unix_time w (ticks w))
                (advance 2 (exec (_acquire_lock self false) w))) as Hname.
  destruct (eval (open_new _ _) _) as [[]|e] eqn:Hopen; cbn [fst snd].
  - destruct (decide (checkpoint_path_at self checkpoint_name w
                      = memory_path self)) as [Heq|Hneq].
    + eexists _, _. split; [done|]. split_and!; [|by right|done].
      rewrite Heq. apply document_dump.
    + eexists _, doc. split; [done|]. split_and!; [|by left|done].
      unfold document in *. cbn. by rewrite !lookup_insert_ne.
  - exists (Raise e), doc. split; [done|]. split_and!; [|by left|].
    + unfold document in *. cbn. by rewrite lookup_insert_ne.
    + intros Hplain. unfold eval in Hopen. by rewrite (Hname Hplain) in Hopen.
Qed.




End Scripts.




(** *** Processes under the lock *)

Lemma entry_of_after_discovery discovery clock n doc a k :
  is_document doc = true →
  entry_of (after_discovery discovery clock n doc) a k =
  if decide (pair_of discovery = (a, k)) then Some (asdict discovery)
  else entry_of doc a k.
Proof.
  intros Hdoc. unfold entry_of. rewrite after_discovery_namespaces by done.
  unfold pair_of. destruct (decide (a = agent_id discovery)) as [->|Ha].
  - unfold own_entries at 1. rewrite get_set_eq.
    destruct (decide (k = key discovery)) as [->|Hk].
    + rewrite decide_True by done. apply get_set_eq.
    + rewrite decide_False by congruence. by rewrite get_set_ne.
  - rewrite decide_False by congruence. unfold own_entries.
    by rewrite get_set_ne.
Qed.

Lemma entry_of_held doc other ns k :
  is_document doc = true →
  (other, ns) ∈ namespaces doc →
  holds_key k ns = true ↔ is_Some (entry_of doc other k).
Proof.
  intros (top & ds & cs & dec & md & -> & Hds & _ & _ & _ & Hnd & Hns & _)
    %is_document_inv.
  unfold entry_of, namespaces. rewrite (getitem_obj _ _ _ Hds). intros Hin.
  pose proof (elem_get_Some _ _ _ Hnd Hin) as Hget.
  pose proof (values_namespace _ _ _ Hns Hget) as Hn.
  destruct (is_namespace_inv _ Hn) as (es & -> & _).
  unfold own_entries. rewrite Hget. apply mem_true.
Qed.

Lemma other_holders_entry discovery doc :
  is_document doc = true →
  other_holders discovery doc ≠ [] ↔
  ∃ other, other ≠ agent_id discovery
           ∧ is_Some (entry_of doc other (key discovery)).
Proof.
  intros Hdoc. split.
  - intros Hne. destruct (other_holders discovery doc) as [|[other ns] hs] eqn:Hhs;
      [done|].
    destruct (other_holders_held discovery doc other ns Hdoc)
      as (Hin & Hother & existing & Hheld).
    { rewrite Hhs. apply list_elem_of_here. }
    exists other. split; [done|]. apply (entry_of_held _ _ ns); [done..|].
    unfold held_value in Hheld. destruct ns as [| | | | |?|es]; try done.
    apply mem_true. destruct (Dict.get (key discovery) es); [eauto|done].
  - intros (other & Hother & Hsome) Hnil.
    pose proof (proj1 (other_holders_nil discovery doc) Hnil) as Hall.
    destruct (is_document_inv _ Hdoc)
      as (top & ds & cs & dec & md & -> & Hds & _ & _ & _ & Hnd & Hns & _).
    unfold entry_of, own_entries, namespaces in Hsome, Hall.
    rewrite (getitem_obj _ _ _ Hds) in Hsome, Hall.
    destruct (Dict.get other ds) as [ns|] eqn:Hget; [|by destruct Hsome].
    pose proof (values_namespace _ _ _ Hns Hget) as Hn.
    destruct (is_namespace_inv _ Hn) as (es & -> & _).
    specialize (Hall other (JObj es) (get_Some_elem _ _ _ Hget) Hother).
    apply mem_true in Hsome. cbn in Hall. congruence.
Qed.

Lemma size_sum_set worker es' ds :
  size_sum (Dict.set worker (JObj es') ds) =
  (size_sum ds + Z.of_nat (length es')
   - Z.of_nat (length (own_entries worker ds)))%Z.
Proof.
  assert (∀ x l, list_sum (x :: l) = (x + list_sum l)%nat) as Hcons by done.
  unfold size_sum, own_entries.
  induction ds as [|[a0 ns0] ds IH]; cbn [Dict.set Dict.get].
  - cbn. lia.
  - destruct (decide (a0 = worker)) as [->|Hne].
    + change (Dict.values ((?a, ?ns) :: ?l)) with (ns :: Dict.values l).
      cbn [map]. rewrite !Hcons, !Nat2Z.inj_add.
      destruct ns0; cbn [length]; lia.
    + change (Dict.values ((?a, ?ns) :: ?l)) with (ns :: Dict.values l).
      cbn [map]. rewrite !Hcons, !Nat2Z.inj_add. lia.
Qed.

Lemma after_discovery_count discovery clock n doc :
  is_document doc = true →
  entry_of doc (agent_id discovery) (key discovery) = None →
  sum_key_counts (after_discovery discovery clock n doc)
  = (sum_key_counts doc + 1)%Z.
Proof.
  intros Hdoc Hnew.
  rewrite <- !size_sum_key_counts
    by (done || by apply after_discovery_is_document).
  rewrite after_discovery_namespaces by done. rewrite size_sum_set.
  rewrite length_set. unfold entry_of in Hnew. apply mem_false in Hnew.
  rewrite Hnew. lia.
Qed.

Lemma filter_has_stored_insert v i d r :
  v !! i = Some (d, None) →
  length (List.filter has_stored (<[i := (d, Some r)]> v))
  = S (length (List.filter has_stored v)).
Proof.
  intros Hi. rewrite insert_take_drop by (by eapply lookup_lt_Some).
  rewrite <- (take_drop_middle v i _ Hi) at 3.
  rewrite !List.filter_app, !length_app. cbn. lia.
Qed.

Lemma pairs_distinct (v : list (AgentDiscovery * option (result bool)))
    i j d d' o o' :
  NoDup (map (λ x, pair_of x.1) v) →
  v !! i = Some (d, o) → v !! j = Some (d', o') →
  pair_of d = pair_of d' → i = j.
Proof.
  intros Hnd Hi Hj Heq. eapply (NoDup_lookup _ i j); [exact Hnd| |].
  - change (map ?f v) with (f <$> v). rewrite list_lookup_fmap, Hi. done.
  - change (map ?f v) with (f <$> v). rewrite list_lookup_fmap, Hj. cbn.
    by rewrite Heq.
Qed.

Lemma data_invariant_store initial cur v i d clock n :
  NoDup (map (λ x, pair_of x.1) v) →
  data_invariant initial cur v →
  v !! i = Some (d, None) →
  data_invariant initial (after_discovery d clock n cur)
    (<[i := (d, Some (Ok (bool_decide (other_holders d cur = []))))]> v).
Proof.
  intros Hnd [Hshape Hstored Horigin Htotal Hcount] Hi.
  assert (i < length v)%nat as Hlt by by eapply lookup_lt_Some.
  assert (∀ a k, is_Some (entry_of cur a k) →
                 is_Some (entry_of (after_discovery d clock n cur) a k)) as Hmono.
  { intros a k Hsome. rewrite entry_of_after_discovery by done.
    destruct (decide (pair_of d = (a, k))); eauto. }
  split.
  - by apply after_discovery_is_document.
  - intros j d' r Hj. destruct (decide (j = i)) as [->|Hji].
    + rewrite list_lookup_insert_eq in Hj by done. simplify_eq.
      eexists. split; [done|]. split.
      * rewrite entry_of_after_discovery by done. by rewrite decide_True.
      * intros Hb%bool_decide_eq_false.
        apply other_holders_entry in Hb as (other & Hother & Hsome); [|done].
        exists other. split; [done|]. by apply Hmono.
    + rewrite list_lookup_insert_ne in Hj by done.
      destruct (Hstored j d' r Hj) as (b & -> & Hentry & Hconflict).
      exists b. split; [done|]. split.
      * rewrite entry_of_after_discovery by done.
        rewrite decide_False; [done|]. intros Heq. apply Hji.
        by eapply (pairs_distinct v j i d' d).
      * intros Hb. destruct (Hconflict Hb) as (other & Hother & Hsome).
        exists other. split; [done|]. by apply Hmono.
  - intros a k Hsome. rewrite entry_of_after_discovery in Hsome by done.
    destruct (decide (pair_of d = (a, k))) as [Heq|Hneq].
    + right. exists i, d, (Ok (bool_decide (other_holders d cur = []))).
      by rewrite list_lookup_insert_eq.
    + destruct (Horigin a k Hsome) as [?|(j & d' & r & Hj & Hpair)]; [by left|].
      right. exists j, d', r. split; [|done].
      rewrite list_lookup_insert_ne; [done|]. intros ->. congruence.
  - intros _. by apply after_discovery_total.
  - intros Hnew.
    assert (∀ j d' o, v !! j = Some (d', o) →
                      entry_of initial (agent_id d') (key d') = None) as Hnew'.
    { intros j d' o Hj. destruct (decide (j = i)) as [->|Hji].
      - simplify_eq. eapply (Hnew i). by rewrite list_lookup_insert_eq.
      - eapply (Hnew j). by rewrite list_lookup_insert_ne. }
    rewrite filter_has_stored_insert by done.
    rewrite after_discovery_count; [rewrite (Hcount Hnew'); lia|done|].
    destruct (entry_of cur (agent_id d) (key d)) as [e|] eqn:Hentry; [|done].
    exfalso. destruct (Horigin (agent_id d) (key d))
      as [Hinit|(j & d' & r & Hj & Hpair)]; [by rewrite Hentry| |].
    + rewrite (Hnew' i d None Hi) in Hinit. by destruct Hinit.
    + assert (j = i) as -> by by eapply (pairs_distinct v j i d' d).
      congruence.
Qed.

Section Steps.
Context (self : AgentMemory) (initial : json) (discoveries : list AgentDiscovery).
Context (Hpaths : lock_path self ≠ memory_path self).
Context (Hpairs : NoDup (map pair_of discoveries)).

Lemma move_lookup i p ph w h s j :
  processes s !! i = Some p →
  processes (move i p ph w h s) !! j =
  if decide (j = i) then Some (mkProcess (call_of p) ph) else processes s !! j.
Proof.
  intros Hi. unfold move. cbn [processes]. destruct (decide (j = i)) as [->|Hne].
  - apply list_lookup_insert_eq. by eapply lookup_lt_Some.
  - by apply list_lookup_insert_ne.
Qed.

Lemma move_calls i p ph w h s :
  processes s !! i = Some p →
  map call_of (processes (move i p ph w h s)) = map call_of (processes s).
Proof.
  intros Hi. unfold move. cbn [processes].
  change (map call_of ?l) with (call_of <$> l).
  rewrite list_fmap_insert. cbn [call_of]. apply list_insert_id.
  by rewrite list_lookup_fmap, Hi.
Qed.

Lemma move_view i p ph w h s :
  processes s !! i = Some p →
  view (move i p ph w h s) = <[i := (call_of p, stored ph)]> (view s).
Proof.
  intros Hi. unfold view, move. cbn [processes].
  change (map ?f ?l) with (f <$> l). by rewrite list_fmap_insert.
Qed.

Lemma move_view_same i p ph w h s :
  processes s !! i = Some p →
  stored ph = stored (at_phase p) →
  view (move i p ph w h s) = view s.
Proof.
  intros Hi Hstored. rewrite move_view by done. apply list_insert_id.
  unfold view. change (map ?f ?l) with (f <$> l).
  by rewrite list_lookup_fmap, Hi, Hstored.
Qed.

Lemma view_pairs s :
  map call_of (processes s) = discoveries →
  NoDup (map (λ x, pair_of x.1) (view s)).
Proof.
  intros Hcalls. unfold view. rewrite map_map. cbn [fst].
  rewrite <- Hcalls, map_map in Hpairs. exact Hpairs.
Qed.

Lemma step_invariant s cur i s' :
  invariant self initial discoveries s cur →
  step_process self i s = Some s' →
  ∃ cur', invariant self initial discoveries s' cur'.
Proof.
  intros [Hcalls Hdoc Hcrit Hholder Hloaded Hdata] Hstep.
  unfold step_process in Hstep.
  destruct (processes s !! i) as [p|] eqn:Hi; [|done].
  destruct (at_phase p) as [| | |memory|r|r] eqn:Hphase.
  - (* line 58: the lock file is opened *)
    injection Hstep as <-. exists cur. split.
    + by rewrite move_calls.
    + unfold move. cbn [world]. unfold exec, open_w. cbn [snd].
      by rewrite document_with_lock.
    + intros j q. rewrite move_lookup by done. cbn [holder move].
      destruct (decide (j = i)) as [->|Hne]; [|by apply Hcrit].
      intros [= <-]. cbn. rewrite <- (Hcrit i p Hi), Hphase. done.
    + intros h Hh. unfold move. cbn [processes holder] in *.
      rewrite length_insert. by apply Hholder.
    + intros j q m. rewrite move_lookup by done.
      destruct (decide (j = i)) as [->|Hne]; [by intros [= <-]|by apply Hloaded].
    + rewrite move_view_same; [done..|by rewrite Hphase].
  - (* line 60: [flock] returns *)
    destruct (holder s) as [h|] eqn:Hfree; [done|].
    injection Hstep as <-. exists cur. split.
    + by rewrite move_calls.
    + done.
    + intros j q. rewrite move_lookup by done. cbn [holder move].
      destruct (decide (j = i)) as [->|Hne].
      * intros [= <-]. done.
      * intros Hj. rewrite (Hcrit j q Hj). split; [done|]. by intros [= ->].
    + intros h [= <-]. unfold move. cbn [processes]. rewrite length_insert.
      by eapply lookup_lt_Some.
    + intros j q m. rewrite move_lookup by done.
      destruct (decide (j = i)) as [->|Hne]; [by intros [= <-]|by apply Hloaded].
    + rewrite move_view_same; [done..|by rewrite Hphase].
  - (* line 73: the document is loaded *)
    rewrite (json_load_document _ _ _ Hdoc) in Hstep.
    injection Hstep as <-. exists cur. split.
    + by rewrite move_calls.
    + done.
    + intros j q. rewrite move_lookup by done. cbn [holder move].
      destruct (decide (j = i)) as [->|Hne]; [|by apply Hcrit].
      intros [= <-]. cbn. rewrite <- (Hcrit i p Hi), Hphase. done.
    + intros h Hh. unfold move. cbn [processes holder] in *.
      rewrite length_insert. by apply Hholder.
    + intros j q m. rewrite move_lookup by done.
      destruct (decide (j = i)) as [->|Hne]; [|by apply Hloaded].
      by intros [= <-] [= <-].
    + rewrite move_view_same; [done..|by rewrite Hphase].
  - (* lines 75-103: the update is computed and written *)
    assert (memory = cur) as -> by by eapply Hloaded.
    pose proof (di_shape _ _ _ Hdata) as Hshape.
    unfold record_discovery_store in Hstep.
    erewrite bind_ok in Hstep; [|by apply record_discovery_update_document].
    cbn in Hstep. rewrite negb_involutive in Hstep. injection Hstep as <-.
    eexists. split.
    + by rewrite move_calls.
    + unfold move, document. cbn. by rewrite lookup_insert_eq.
    + intros j q. rewrite move_lookup by done. cbn [holder move].
      destruct (decide (j = i)) as [->|Hne]; [|by apply Hcrit].
      intros [= <-]. cbn. rewrite <- (Hcrit i p Hi), Hphase. done.
    + intros h Hh. unfold move. cbn [processes holder] in *.
      rewrite length_insert. by apply Hholder.
    + intros j q m. rewrite move_lookup by done.
      destruct (decide (j = i)) as [->|Hne]; [by intros [= <-]|].
      intros Hj Hq. exfalso.
      assert (holder s = Some j) as Hhj by (apply (Hcrit j q Hj); by rewrite Hq).
      assert (holder s = Some i) as Hhi by (apply (Hcrit i p Hi); by rewrite Hphase).
      congruence.
    + rewrite move_view by done. cbn [stored].
      apply data_invariant_store; [by apply view_pairs|done|].
      unfold view. change (map ?f ?l) with (f <$> l).
      rewrite list_lookup_fmap, Hi. cbn. by rewrite Hphase.
  - (* line 65: the lock is released *)
    injection Hstep as <-. exists cur. split.
    + by rewrite move_calls.
    + done.
    + intros j q. rewrite move_lookup by done. cbn [holder move].
      destruct (decide (j = i)) as [->|Hne]; [by intros [= <-]|].
      intros Hj. rewrite (Hcrit j q Hj). split; [|done].
      intros Hhj.
      assert (holder s = Some i) as Hhi by (apply (Hcrit i p Hi); by rewrite Hphase).
      congruence.
    + by intros h [=].
    + intros j q m. rewrite move_lookup by done.
      destruct (decide (j = i)) as [->|Hne]; [by intros [= <-]|by apply Hloaded].
    + rewrite move_view_same; [done..|by rewrite Hphase].
  - done.
Qed.

Lemma run_invariant schedule :
  ∀ s cur s',
    invariant self initial discoveries s cur →
    run self schedule s = Some s' →
    ∃ cur', invariant self initial discoveries s' cur'.
Proof.
  induction schedule as [|i schedule IH]; intros s cur s' Hinv Hrun.
  - injection Hrun as <-. eauto.
  - cbn [run] in Hrun.
    destruct (step_process self i s) as [s1|] eqn:Hstep; [|done].
    destruct (step_invariant s cur i s1 Hinv Hstep) as [cur1 Hinv1]. eauto.
Qed.

Lemma progress s cur :
  invariant self initial discoveries s cur →
  all_finished s = true ∨ ∃ i s', step_process self i s = Some s'.
Proof.
  intros [Hcalls Hdoc Hcrit Hholder Hloaded Hdata].
  destruct (all_finished s) eqn:Hall; [by left|right].
  destruct (holder s) as [h|] eqn:Hh.
  - destruct (lookup_lt_is_Some_2 _ _ (Hholder h eq_refl)) as [p Hp].
    pose proof (proj2 (Hcrit h p Hp) eq_refl) as Hc.
    exists h. unfold step_process. rewrite Hp.
    destruct (at_phase p) as [| | |memory|r|r]; try done.
    + rewrite (json_load_document _ _ _ Hdoc). eauto.
    + destruct (record_discovery_store self (call_of p) memory (world s)). eauto.
    + eauto.
  - unfold all_finished in Hall.
    assert (∃ i p, processes s !! i = Some p ∧ is_finished p = false)
      as (i & p & Hp & Hnot).
    { clear -Hall. induction (processes s) as [|p l IH]; [done|].
      cbn [forallb] in Hall. destruct (is_finished p) eqn:Hp.
      - destruct (IH Hall) as (i & q & Hq & Hnot). by exists (S i), q.
      - by exists 0%nat, p. }
    exists i. unfold step_process. rewrite Hp, Hh.
    pose proof (Hcrit i p Hp) as Hc. unfold is_finished in Hnot.
    destruct (at_phase p) as [| | |memory|r|r]; cbn in Hc, Hnot.
    + eauto.
    + eauto.
    + discriminate (proj1 Hc eq_refl).
    + discriminate (proj1 Hc eq_refl).
    + discriminate (proj1 Hc eq_refl).
    + done.
Qed.

Lemma total_rank_move i p ph w h s :
  processes s !! i = Some p →
  (total_rank (move i p ph w h s) + rank (at_phase p)
   = total_rank s + rank ph)%nat.
Proof.
  intros Hi. unfold total_rank, move. cbn [processes].
  rewrite insert_take_drop by (by eapply lookup_lt_Some).
  rewrite <- (take_drop_middle (processes s) i p Hi) at 3.
  rewrite !map_app, !list_sum_app. cbn [map list_sum fold_right call_of at_phase].
  lia.
Qed.

Lemma step_rank s i s' :
  step_process self i s = Some s' →
  (total_rank s < total_rank s')%nat ∧ length (processes s') = length (processes s).
Proof.
  unfold step_process. destruct (processes s !! i) as [p|] eqn:Hi; [|done].
  assert (∀ ph w h, (rank (at_phase p) < rank ph)%nat →
            (total_rank s < total_rank (move i p ph w h s))%nat
            ∧ length (processes (move i p ph w h s)) = length (processes s))
    as Hmove.
  { intros ph w h Hlt. pose proof (total_rank_move i p ph w h s Hi).
    split; [lia|]. unfold move. cbn [processes]. by rewrite length_insert. }
  destruct (at_phase p) as [| | |memory|r|r] eqn:Hphase.
  - intros [= <-]. apply Hmove. cbn. lia.
  - destruct (holder s); [done|]. intros [= <-]. apply Hmove. cbn. lia.
  - destruct (json_load (memory_path self) (world s)) as [[memory|e] w'];
      intros [= <-]; apply Hmove; cbn; lia.
  - destruct (record_discovery_store self (call_of p) memory (world s)).
    intros [= <-]. apply Hmove. cbn. lia.
  - intros [= <-]. apply Hmove. cbn. lia.
  - done.
Qed.

Lemma total_rank_bound s : (total_rank s ≤ 5 * length (processes s))%nat.
Proof.
  unfold total_rank. induction (processes s) as [|p l IH]; [done|].
  cbn [map length]. change (list_sum (?x :: ?l)) with (x + list_sum l)%nat.
  assert (rank (at_phase p) ≤ 5)%nat by (destruct (at_phase p); cbn; lia). lia.
Qed.

Lemma run_rank schedule :
  ∀ s s',
    run self schedule s = Some s' →
    (length schedule + total_rank s ≤ total_rank s')%nat
    ∧ length (processes s') = length (processes s).
Proof.
  induction schedule as [|i schedule IH]; intros s s' Hrun.
  - injection Hrun as <-. cbn. lia.
  - cbn [run] in Hrun.
    destruct (step_process self i s) as [s1|] eqn:Hstep; [|done].
    destruct (step_rank _ _ _ Hstep) as [Hlt Hlen].
    destruct (IH _ _ Hrun) as [Hle Hlen']. cbn [length]. split; [lia|congruence].
Qed.

Lemma run_app schedule1 schedule2 s s1 :
  run self schedule1 s = Some s1 →
  run self (schedule1 ++ schedule2) s = run self schedule2 s1.
Proof.
  revert s. induction schedule1 as [|i schedule1 IH]; intros s Hrun.
  - by injection Hrun as <-.
  - cbn [run app] in *. destruct (step_process self i s); [auto|done].
Qed.

Lemma completes n :
  ∀ s cur,
    invariant self initial discoveries s cur →
    (5 * length (processes s) - total_rank s ≤ n)%nat →
    ∃ schedule s', run self schedule s = Some s' ∧ all_finished s' = true.
Proof.
  induction n as [|n IH]; intros s cur Hinv Hn.
  - destruct (progress s cur Hinv) as [Hall|(i & s' & Hstep)].
    + by exists [], s.
    + destruct (step_rank _ _ _ Hstep) as [Hlt Hlen].
      pose proof (total_rank_bound s'). lia.
  - destruct (progress s cur Hinv) as [Hall|(i & s' & Hstep)].
    + by exists [], s.
    + destruct (step_rank _ _ _ Hstep) as [Hlt Hlen].
      destruct (step_invariant s cur i s' Hinv Hstep) as [cur' Hinv'].
      destruct (IH s' cur' Hinv') as (schedule & s'' & Hrun & Hall); [lia|].
      exists (i :: schedule), s''. cbn [run]. by rewrite Hstep.
Qed.
End Steps.

Lemma start_invariant self w doc discoveries :
  document self w = Some doc →
  is_document doc = true →
  invariant self doc discoveries (start w discoveries) doc.
Proof.
  intros Hdoc Hshape.
  assert (∀ j x, view (start w discoveries) !! j = Some x → x.2 = None) as Hview.
  { intros j x. unfold view, start. cbn [processes]. rewrite map_map.
    change (map ?f ?l) with (f <$> l). rewrite list_lookup_fmap.
    destruct (discoveries !! j); [|done]. by intros [= <-]. }
  split.
  - unfold start. cbn [processes]. rewrite map_map. apply map_id.
  - done.
  - intros j p. unfold start. cbn [processes holder].
    change (map ?f ?l) with (f <$> l). rewrite list_lookup_fmap.
    destruct (discoveries !! j); [|done]. by intros [= <-].
  - by intros h [=].
  - intros j p m. unfold start. cbn [processes].
    change (map ?f ?l) with (f <$> l). rewrite list_lookup_fmap.
    destruct (discoveries !! j); [|done]. by intros [= <-].
  - split.
    + done.
    + intros j d r Hj. by apply Hview in Hj.
    + by left.
    + intros (j & d & r & Hj). by apply Hview in Hj.
    + intros _.
      assert (List.filter has_stored (view (start w discoveries)) = []) as ->.
      { apply filter_nil_iff. intros [d o] (j & Hj)%list_elem_of_lookup.
        apply Hview in Hj. cbn in Hj. by subst o. }
      cbn. lia.
Qed.

Lemma all_finished_lookup s i p :
  all_finished s = true → processes s !! i = Some p →
  ∃ r, at_phase p = Finished r.
Proof.
  unfold all_finished. rewrite forallb_Forall_true, Forall_forall.
  intros Hall Hp. specialize (Hall p (list_elem_of_lookup_2 _ _ _ Hp)).
  unfold is_finished in Hall. destruct (at_phase p); try done. eauto.
Qed.

Lemma all_finished_stored s :
  all_finished s = true → List.filter has_stored (view s) = view s.
Proof.
  unfold all_finished, view. rewrite forallb_Forall_true.
  induction 1 as [|p l Hp _ IH]; [done|]. cbn [map List.filter].
  unfold is_finished in Hp. destruct (at_phase p); try done.
  cbn. by rewrite IH.
Qed.

Lemma solo_run_is_the_call self discovery w doc :
  lock_path self ≠ memory_path self →
  document self w = Some doc →
  run self [0; 0; 0; 0; 0]%nat (start w [discovery]) =
  Some (mkSystem (exec (record_discovery self discovery) w) None
          [mkProcess discovery
             (Finished (eval (record_discovery self discovery) w))]).
Proof.
  intros Hne Hdoc. unfold eval, exec, record_discovery.
  erewrite bind_ok; [|apply acquire_ok]. unfold try_finally, _release_lock.
  erewrite bind_ok; cycle 1.
  { apply json_load_document. by rewrite document_acquire. }
  set (w1 := exec (_acquire_lock self true) w).
  assert (json_load (memory_path self) w1 = (Ok doc, w1)) as Hload.
  { apply json_load_document. unfold w1. by rewrite document_acquire. }
  destruct (record_discovery_store self discovery doc w1) as [r w2] eqn:Hstore.
  cbn [run].
  assert (step_process self 0 (start w [discovery])
          = Some (mkSystem w1 None [mkProcess discovery Waiting])) as -> by done.
  assert (step_process self 0 (mkSystem w1 None [mkProcess discovery Waiting])
          = Some (mkSystem w1 (Some 0%nat) [mkProcess discovery Locked]))
    as -> by done.
  assert (step_process self 0
            (mkSystem w1 (Some 0%nat) [mkProcess discovery Locked])
          = Some (mkSystem w1 (Some 0%nat) [mkProcess discovery (Loaded doc)]))
    as ->.
  { unfold step_process. cbn [processes lookup list_lookup at_phase world].
    by rewrite Hload. }
  assert (step_process self 0
            (mkSystem w1 (Some 0%nat) [mkProcess discovery (Loaded doc)])
          = Some (mkSystem w2 (Some 0%nat) [mkProcess discovery (Leaving r)]))
    as ->.
  { unfold step_process.
    cbn [processes lookup list_lookup at_phase world call_of].
    by rewrite Hstore. }
  assert (step_process self 0
            (mkSystem w2 (Some 0%nat) [mkProcess discovery (Leaving r)])
          = Some (mkSystem w2 None [mkProcess discovery (Finished r)]))
    as -> by done.
  by destruct r.
Qed.

(** C8, amended. [N] processes each call [record_discovery] once, for [N]
    distinct (worker, key) pairs, on one store, interleaved in any way the
    lock allows. Some interleaving finishes all calls, no run is longer
    than [5 * N] steps, and a run that is not finished can always go on.
    When all calls are finished: none has raised; the document holds every
    one of the [N] discoveries; [total_discoveries] is the sum of the
    namespaces' key counts (the count before plus [N] when the pairs were
    new); a call has returned [false] only if another worker's namespace
    holds its key, so that all return [true] when the keys are pairwise
    distinct and no other worker held them before. *)
Theorem concurrent_record_discovery self w doc discoveries :
  lock_path self ≠ memory_path self →
  document self w = Some doc →
  is_document doc = true →
  NoDup (map pair_of discoveries) →
  (∃ schedule s,
     run self schedule (start w discoveries) = Some s ∧ all_finished s = true)
  ∧ ∀ schedule s,
      run self schedule (start w discoveries) = Some s →
      (length schedule ≤ 5 * length discoveries)%nat
      ∧ (all_finished s = true ∨ ∃ i s', step_process self i s = Some s')
      ∧ (all_finished s = true →
         ∃ doc',
           document self (world s) = Some doc'
           ∧ (discoveries ≠ [] →
              Dict.get "total_discoveries" (metadata doc')
              = Some (JInt (sum_key_counts doc')))
           ∧ ((∀ d, d ∈ discoveries →
                    entry_of doc (agent_id d) (key d) = None) →
              sum_key_counts doc'
              = (sum_key_counts doc + Z.of_nat (length discoveries))%Z)
           ∧ ∀ i d,
               discoveries !! i = Some d →
               ∃ b : bool,
                 at_phase <$> processes s !! i = Some (Finished (Ok b))
                 ∧ entry_of doc' (agent_id d) (key d) = Some (asdict d)
                 ∧ (b = false →
                    ∃ other, other ≠ agent_id d
                             ∧ is_Some (entry_of doc' other (key d)))
                 ∧ (NoDup (map key discoveries) →
                    (∀ other, other ≠ agent_id d →
                              entry_of doc other (key d) = None) →
                    b = true)).
Proof.
  intros Hne Hdoc Hshape Hpairs.
  pose proof (start_invariant self w doc discoveries Hdoc Hshape) as Hstart.
  assert (length (processes (start w discoveries)) = length discoveries) as Hlen0.
  { unfold start. cbn [processes]. apply length_map. }
  split.
  - by eapply (completes self doc discoveries Hne Hpairs _ _ doc).
  - intros schedule s Hrun.
    destruct (run_invariant self doc discoveries Hne Hpairs schedule _ _ _
                Hstart Hrun) as [cur Hinv].
    destruct (run_rank self schedule _ _ Hrun) as [Hrank Hlen].
    pose proof (total_rank_bound s) as Hbound.
    split; [lia|]. split; [by eapply progress|].
    intros Hall. destruct Hinv as [Hcalls Hcur Hcrit Hholder Hloaded Hdata].
    destruct Hdata as [Hshape' Hstored Horigin Htotal Hcount].
    assert (∀ i d, discoveries !! i = Some d →
              ∃ r, processes s !! i = Some (mkProcess d (Finished r))
                   ∧ view s !! i = Some (d, Some r)) as Hview.
    { intros i d Hi. rewrite <- Hcalls in Hi.
      change (map ?f ?l) with (f <$> l) in Hi. rewrite list_lookup_fmap in Hi.
      destruct (processes s !! i) as [[d' ph]|] eqn:Hp; [|done].
      cbn in Hi. injection Hi as ->.
      destruct (all_finished_lookup s i _ Hall Hp) as [r Hr]. cbn in Hr.
      subst ph. exists r. split; [done|]. unfold view.
      change (map ?f ?l) with (f <$> l). by rewrite list_lookup_fmap, Hp. }
    exists cur. split; [done|]. split_and!.
    + intros Hsome. apply Htotal. destruct discoveries as [|d ds]; [done|].
      destruct (Hview 0%nat d eq_refl) as (r & _ & Hv). eauto.
    + intros Hnew. rewrite Hcount.
      * rewrite all_finished_stored by done. unfold view.
        by rewrite length_map, Hlen, Hlen0.
      * intros j d o Hj. apply Hnew. rewrite <- Hcalls.
        unfold view in Hj. change (map ?f ?l) with (f <$> l) in Hj.
        rewrite list_lookup_fmap in Hj.
        destruct (processes s !! j) as [p|] eqn:Hp; [|done].
        cbn in Hj. injection Hj as <- _.
        apply list_elem_of_fmap. exists p. split; [done|].
        by eapply list_elem_of_lookup_2.
    + intros i d Hi. destruct (Hview i d Hi) as (r & Hp & Hv).
      destruct (Hstored i d r Hv) as (b & -> & Hentry & Hconflict).
      exists b. rewrite Hp. split_and!; [done..|].
      intros Hkeys Hnew. destruct b; [done|exfalso].
      destruct (Hconflict eq_refl) as (other & Hother & Hsome).
      destruct (Horigin other (key d) Hsome) as [Hinit|(j & d' & r' & Hj & Hpair)].
      * rewrite (Hnew other Hother) in Hinit. by destruct Hinit.
      * injection Hpair as Hagent Hkey.
        assert (discoveries !! j = Some d') as Hj'.
        { rewrite <- Hcalls. change (map ?f ?l) with (f <$> l).
          rewrite list_lookup_fmap. unfold view in Hj.
          change (map ?f ?l) with (f <$> l) in Hj.
          rewrite list_lookup_fmap in Hj.
          destruct (processes s !! j); [|done]. cbn in *. congruence. }
        assert (j = i) as ->.
        { eapply (NoDup_lookup _ j i); [exact Hkeys| |].
          - change (map ?f ?l) with (f <$> l). by rewrite list_lookup_fmap, Hj'.
          - change (map ?f ?l) with (f <$> l). rewrite list_lookup_fmap, Hi.
            cbn. by rewrite Hkey. }
        congruence.
Qed.

(** C8, amended, for the workers A and B on the sample store. *)
Lemma concurrent_record_discovery_witness :
  let discoveries := [Sample.endpoint_A; Sample.endpoint_B] in
  lock_path Sample.store ≠ memory_path Sample.store
  ∧ document Sample.store Sample.world1 = Some Sample.document1
  ∧ is_document Sample.document1 = true
  ∧ NoDup (map pair_of discoveries)
  ∧ ∃ schedule s,
      run Sample.store schedule (start Sample.world1 discoveries) = Some s
      ∧ all_finished s = true.
Proof.
  intros discoveries.
  assert (lock_path Sample.store ≠ memory_path Sample.store) as H1
    by (vm_compute; discriminate).
  assert (document Sample.store Sample.world1 = Some Sample.document1) as H2
    by (vm_compute; reflexivity).
  assert (is_document Sample.document1 = true) as H3 by (vm_compute; reflexivity).
  assert (NoDup (map pair_of discoveries)) as H4
    by (apply (bool_decide_unpack _); vm_compute; exact I).
  repeat (split; [assumption|]).
  exact (proj1 (concurrent_record_discovery
                  Sample.store Sample.world1 Sample.document1 discoveries
                  H1 H2 H3 H4)).
Defined.

(** C8 as stated fails: the pairs (A, endpoint) and (B, endpoint) are
    distinct, and when A's call runs before B's, B's call returns [false]. *)
Lemma concurrent_calls_sharing_a_key :
  let discoveries := [Sample.endpoint_A; Sample.endpoint_B] in
  let schedule := [0; 0; 0; 0; 0; 1; 1; 1; 1; 1]%nat in
  NoDup (map pair_of discoveries)
  ∧ is_document <$> document Sample.store Sample.world1 = Some true
  ∧ all_finished <$> run Sample.store schedule (start Sample.world1 discoveries)
    = Some true
  ∧ outcomes <$> run Sample.store schedule (start Sample.world1 discoveries)
    = Some [Ok true; Ok false].
Proof.
  split; [|vm_compute; repeat split; reflexivity].
  apply (bool_decide_unpack _). vm_compute. exact I.
Qed.

(** *** The files a call touches *)

(** *** What the calls do to the files *)

Lemma keeps_files_ret {A} (a : A) : keeps_files (mret a).
Proof. by intros w. Qed.

Lemma keeps_files_lift {A} (r : result A) : keeps_files (lift r).
Proof. by intros w. Qed.

Lemma keeps_files_utcnow : keeps_files utcnow_isoformat.
Proof. by intros w. Qed.

Lemma keeps_files_time : keeps_files time_time_int.
Proof. by intros w. Qed.

Lemma keeps_files_bind {A B} (m : Py A) (k : A → Py B) :
  keeps_files m → (∀ a, keeps_files (k a)) → keeps_files (m ≫= k).
Proof.
  intros Hm Hk w. specialize (Hm w). unfold exec, mbind, Py_bind in *.
  destruct (m w) as [[a|e] w1]; cbn [snd] in *; [|done].
  rewrite <- Hm. apply (Hk a w1).
Qed.

Lemma keeps_files_for_each {A S} (f : S → A → Py S) xs :
  (∀ s x, keeps_files (f s x)) → ∀ s, keeps_files (for_each f xs s).
Proof.
  intros Hf. induction xs as [|x xs IH]; intros s; cbn [for_each].
  - apply keeps_files_ret.
  - apply keeps_files_bind; auto.
Qed.

Ltac keeps_files :=
  repeat first
    [ apply keeps_files_ret
    | apply keeps_files_lift
    | apply keeps_files_utcnow
    | apply keeps_files_time
    | apply keeps_files_for_each; intros
    | apply keeps_files_bind; [|intros]
    | match goal with
      | |- keeps_files (let '(_, _) := ?x in _) => destruct x
      | |- keeps_files (if ?b then _ else _) => destruct b
      end ].

Lemma keeps_files_conflict_step discovery acc item :
  keeps_files (conflict_step discovery acc item).
Proof. unfold conflict_step. destruct acc, item. keeps_files. Qed.

Lemma keeps_files_discovery_update discovery memory :
  keeps_files (record_discovery_update discovery memory).
Proof.
  unfold record_discovery_update. keeps_files.
  apply keeps_files_conflict_step.
Qed.

Lemma keeps_files_decision_update key decision decided_by memory :
  keeps_files (record_decision_update key decision decided_by memory).
Proof. unfold record_decision_update. keeps_files. Qed.

Lemma keeps_files_stamp checkpoint_name memory :
  keeps_files (checkpoint_stamp checkpoint_name memory).
Proof. unfold checkpoint_stamp. keeps_files. Qed.

Lemma locked_run {A} self exclusive (body : Py A) w :
  (_ ← _acquire_lock self exclusive; try_finally body (_release_lock self)) w
  = body (exec (_acquire_lock self exclusive) w).
Proof.
  erewrite bind_ok; [|apply acquire_ok]. unfold try_finally, _release_lock.
  by destruct (body _) as [[a|e] w1].
Qed.

Lemma acquire_files self exclusive w :
  files (exec (_acquire_lock self exclusive) w)
  = <[lock_path self := Empty_file]> (files w).
Proof. done. Qed.

Ltac same_files :=
  cbn [files with_files tick];
  repeat match goal with H : files _ = _ |- _ => rewrite H; clear H end;
  reflexivity.

Lemma record_discovery_files self discovery w :
  let w' := exec (record_discovery self discovery) w in
  match eval (record_discovery self discovery) w with
  | Ok _ =>
      ∃ memory, files w' = <[memory_path self := Json_file memory]>
                             (<[lock_path self := Empty_file]> (files w))
  | Raise _ => files w' = <[lock_path self := Empty_file]> (files w)
  end.
Proof.
  unfold eval, exec, record_discovery. rewrite locked_run.
  set (w1 := exec (_acquire_lock self true) w).
  assert (files w1 = <[lock_path self := Empty_file]> (files w)) as Hw1 by done.
  clearbody w1. cbv zeta. rewrite bind_unfold.
  assert (files (json_load (memory_path self) w1).2 = files w1) as Hload.
  { unfold json_load. by destruct (files w1 !! memory_path self) as [[|j]|]. }
  destruct (json_load (memory_path self) w1) as [[memory|e] w2]; cbn [fst snd] in *;
    [|same_files].
  unfold record_discovery_store. rewrite bind_unfold.
  pose proof (keeps_files_discovery_update discovery memory w2) as Hupd.
  unfold exec in Hupd.
  destruct (record_discovery_update discovery memory w2) as [[[memory' found]|e] w3];
    cbn [fst snd] in *; [|same_files].
  rewrite bind_unfold; unfold json_dump; cbn. exists memory'. same_files.
Qed.

Lemma record_decision_files self key decision decided_by w :
  let w' := exec (record_decision self key decision decided_by) w in
  match eval (record_decision self key decision decided_by) w with
  | Ok _ =>
      ∃ memory, files w' = <[memory_path self := Json_file memory]>
                             (<[lock_path self := Empty_file]> (files w))
  | Raise _ => files w' = <[lock_path self := Empty_file]> (files w)
  end.
Proof.
  unfold eval, exec, record_decision. rewrite locked_run.
  set (w1 := exec (_acquire_lock self true) w).
  assert (files w1 = <[lock_path self := Empty_file]> (files w)) as Hw1 by done.
  clearbody w1. cbv zeta. rewrite bind_unfold.
  assert (files (json_load (memory_path self) w1).2 = files w1) as Hload.
  { unfold json_load. by destruct (files w1 !! memory_path self) as [[|j]|]. }
  destruct (json_load (memory_path self) w1) as [[memory|e] w2]; cbn [fst snd] in *;
    [|same_files].
  rewrite bind_unfold.
  pose proof (keeps_files_decision_update key decision decided_by memory w2) as Hupd.
  unfold exec in Hupd.
  destruct (record_decision_update key decision decided_by memory w2)
    as [[memory'|e] w3]; cbn [fst snd] in *; [|same_files].
  unfold json_dump; cbn. exists memory'. same_files.
Qed.

Lemma checkpoint_files `{Pathlib} self checkpoint_name w :
  let w' := exec (checkpoint self checkpoint_name) w in
  match eval (checkpoint self checkpoint_name) w with
  | Ok path =>
      path = checkpoint_path_at self checkpoint_name w
      ∧ ∃ memory, files w' = <[path := Json_file memory]>
                               (<[lock_path self := Empty_file]> (files w))
  | Raise _ => files w' = <[lock_path self := Empty_file]> (files w)
  end.
Proof.
  unfold eval, exec, checkpoint. rewrite locked_run.
  set (w1 := exec (_acquire_lock self false) w).
  assert (files w1 = <[lock_path self := Empty_file]> (files w)) as Hw1 by done.
  assert (checkpoint_path_at self checkpoint_name w1
          = checkpoint_path_at self checkpoint_name w) as Hpath by done.
  clearbody w1. cbv zeta. rewrite bind_unfold. cbn [time_time_int].
  fold (checkpoint_path_at self checkpoint_name w1). rewrite Hpath.
  rewrite bind_unfold.
  assert (files (json_load (memory_path self) (tick w1)).2 = files w1) as Hload.
  { unfold json_load. cbn [files tick].
    by destruct (files w1 !! memory_path self) as [[|j]|]. }
  destruct (json_load (memory_path self) (tick w1)) as [[memory|e] w2];
    cbn [fst snd] in *; [|same_files].
  rewrite bind_unfold.
  pose proof (keeps_files_stamp checkpoint_name memory w2) as Hupd.
  unfold exec in Hupd.
  destruct (checkpoint_stamp checkpoint_name memory w2) as [[memory'|e] w3];
    cbn [fst snd] in *; [|same_files].
  rewrite bind_unfold. unfold json_dump_as. rewrite bind_unfold.
  unfold open_new.
  destruct (check_file_name _ _) as [[]|e]; cbn [fst snd]; [|same_files].
  fold (checkpoint_path_at self checkpoint_name w1). rewrite Hpath.
  unfold json_dump; cbn. split; [done|]. exists memory'. same_files.
Qed.

Lemma reader_files {A} self (f : json → Py A) w :
  (∀ memory, keeps_files (f memory)) →
  files (exec (_ ← _acquire_lock self false;
               try_finally (memory ← json_load (memory_path self); f memory)
                 (_release_lock self)) w)
  = <[lock_path self := Empty_file]> (files w).
Proof.
  intros Hf. unfold exec. rewrite locked_run. cbv zeta.
  set (w1 := exec (_acquire_lock self false) w).
  assert (files w1 = <[lock_path self := Empty_file]> (files w)) as Hw1 by done.
  clearbody w1. cbv zeta. rewrite bind_unfold.
  assert (files (json_load (memory_path self) w1).2 = files w1) as Hload.
  { unfold json_load. by destruct (files w1 !! memory_path self) as [[|j]|]. }
  destruct (json_load (memory_path self) w1) as [[memory|e] w2]; cbn [fst snd] in *;
    [|same_files].
  specialize (Hf memory w2). unfold exec in Hf. same_files.
Qed.

Lemma get_shared_knowledge_files self agent_id w :
  files (exec (get_shared_knowledge self agent_id) w)
  = <[lock_path self := Empty_file]> (files w).
Proof.
  unfold get_shared_knowledge. apply reader_files. intros memory.
  destruct agent_id as [worker|]; keeps_files.
Qed.

Lemma get_conflicts_files self w :
  files (exec (get_conflicts self) w) = <[lock_path self := Empty_file]> (files w).
Proof. unfold get_conflicts. apply reader_files. intros memory. keeps_files. Qed.

Lemma get_agent_summary_files self w :
  files (exec (get_agent_summary self) w)
  = <[lock_path self := Empty_file]> (files w).
Proof. unfold get_agent_summary. apply reader_files. intros memory. keeps_files. Qed.

Lemma discard_raise {A} (m : Py A) w e :
  eval (_ ← m; mret tt) w = Raise e ↔ eval m w = Raise e.
Proof.
  unfold eval. rewrite bind_unfold.
  destruct (m w) as [[a|e'] w']; cbn [fst]; split; intros Heq;
    try discriminate Heq; by injection Heq as ->.
Qed.

Lemma initialize_never_raises self w : eval (_initialize_memory self) w = Ok tt.
Proof.
  destruct (files w !! memory_path self) as [f|] eqn:Hf.
  - unfold eval. by rewrite initialize_present.
  - unfold eval. by rewrite initialize_absent.
Qed.

Lemma do_call_raise_files `{Pathlib} self c w e :
  eval (do_call self c) w = Raise e →
  files (exec (do_call self c) w) = <[lock_path self := Empty_file]> (files w).
Proof.
  destruct c as [|discovery|agent_id| |key decision decided_by| |checkpoint_name];
    cbn [do_call]; rewrite ?discard_exec, ?discard_raise; intros Hraise.
  - by rewrite initialize_never_raises in Hraise.
  - pose proof (record_discovery_files self discovery w) as Hfiles.
    cbv zeta in Hfiles. rewrite Hraise in Hfiles. exact Hfiles.
  - apply get_shared_knowledge_files.
  - apply get_conflicts_files.
  - pose proof (record_decision_files self key decision decided_by w) as Hfiles.
    cbv zeta in Hfiles. rewrite Hraise in Hfiles. exact Hfiles.
  - apply get_agent_summary_files.
  - pose proof (checkpoint_files self checkpoint_name w) as Hfiles.
    cbv zeta in Hfiles. rewrite Hraise in Hfiles. exact Hfiles.
Qed.

Lemma before_write_raise `{Pathlib} self c w e :
  eval (before_write self c) w = Raise e → eval (do_call self c) w = Raise e.
Proof.
  destruct c as [|discovery|agent_id| |key decision decided_by| |checkpoint_name];
    cbn [before_write do_call]; try done.
  - rewrite discard_raise. unfold eval, record_discovery.
    rewrite locked_run, (bind_ok _ _ _ _ _ (acquire_ok self true w)).
    rewrite !bind_unfold.
    destruct (json_load (memory_path self) _) as [[memory|e1] w1]; [|by cbn; intros [= ->]].
    unfold record_discovery_store. rewrite !bind_unfold.
    destruct (record_discovery_update discovery memory w1)
      as [[[memory' found]|e2] w2]; [|by cbn; intros [= ->]].
    cbn. discriminate.
  - unfold eval, record_decision.
    rewrite locked_run, (bind_ok _ _ _ _ _ (acquire_ok self true w)).
    rewrite !bind_unfold.
    destruct (json_load (memory_path self) _) as [[memory|e1] w1]; [|by cbn; intros [= ->]].
    rewrite !bind_unfold.
    destruct (record_decision_update key decision decided_by memory w1)
      as [[memory'|e2] w2]; [|by cbn; intros [= ->]].
    cbn. discriminate.
  - rewrite discard_raise. unfold eval, checkpoint.
    rewrite locked_run, (bind_ok _ _ _ _ _ (acquire_ok self false w)).
    rewrite !bind_unfold. cbn [time_time_int]. rewrite !bind_unfold.
    destruct (json_load (memory_path self) _) as [[memory|e1] w1]; [|by cbn; intros [= ->]].
    rewrite !bind_unfold.
    destruct (checkpoint_stamp checkpoint_name memory w1)
      as [[memory'|e2] w2]; [|by cbn; intros [= ->]].
    unfold json_dump_as. rewrite !bind_unfold. unfold open_new.
    destruct (check_file_name _ _) as [[]|e3]; [|by cbn; intros [= ->]].
    cbn. discriminate.
Qed.

(** X1. A call that fails before it opens the document (or the checkpoint
    file) for writing has written nothing but the lock file: when the lock,
    the load, the change of the loaded document in memory or the [open] of
    a checkpoint file raises, the call raises the same exception and every
    file is as before the call, except that the lock file exists and is
    empty. What [json.dump] does when it fails itself is not stated. *)
Theorem a_call_that_fails_before_its_write_leaves_the_files `{Pathlib}
    self c w e :
  eval (before_write self c) w = Raise e →
  eval (do_call self c) w = Raise e
  ∧ files (exec (do_call self c) w) = <[lock_path self := Empty_file]> (files w).
Proof.
  intros Hraise%before_write_raise. split; [done|].
  by eapply do_call_raise_files.
Qed.

(** X1 for [record_discovery] on the sample store before its file exists. *)
Lemma a_call_that_fails_before_its_write_leaves_the_files_witness :
  eval (before_write Sample.store (Call_record_discovery Sample.endpoint_A))
    Sample.world0 = Raise FileNotFoundError
  ∧ eval (do_call Sample.store (Call_record_discovery Sample.endpoint_A))
      Sample.world0 = Raise FileNotFoundError
  ∧ files (exec (do_call Sample.store (Call_record_discovery Sample.endpoint_A))
             Sample.world0)
    = <[lock_path Sample.store := Empty_file]> (files Sample.world0).
Proof.
  split; [reflexivity|].
  apply (a_call_that_fails_before_its_write_leaves_the_files Sample.store
           (Call_record_discovery Sample.endpoint_A) Sample.world0
           FileNotFoundError).
  reflexivity.
Defined.



(** X4. [get_shared_knowledge], [get_conflicts] and [get_agent_summary]
    write nothing but the lock file, in every world and whether they return
    or raise. *)
Theorem readers_write_only_the_lock_file self agent_id w :
  files (exec (get_shared_knowledge self agent_id) w)
  = <[lock_path self := Empty_file]> (files w)
  ∧ files (exec (get_conflicts self) w) = <[lock_path self := Empty_file]> (files w)
  ∧ files (exec (get_agent_summary self) w)
    = <[lock_path self := Empty_file]> (files w).
Proof.
  split; [apply get_shared_knowledge_files|].
  split; [apply get_conflicts_files | apply get_agent_summary_files].
Qed.

(** What [json.load] of the store's file raises when the file holds no
    document. *)
Lemma locked_load_raises {A} self exclusive (k : json → Py A) w e :
  json_load (memory_path self) (exec (_acquire_lock self exclusive) w)
  = (Raise e, exec (_acquire_lock self exclusive) w) →
  eval (_ ← _acquire_lock self exclusive;
        try_finally (memory ← json_load (memory_path self); k memory)
          (_release_lock self)) w = Raise e.
Proof.
  intros Hload. unfold eval. rewrite locked_run, bind_unfold. by rewrite Hload.
Qed.

Lemma load_tick path w e :
  json_load path w = (Raise e, w) → json_load path (tick w) = (Raise e, tick w).
Proof.
  unfold json_load. cbn [files tick].
  destruct (files w !! path) as [[|j]|]; intros Heq; by simplify_eq.
Qed.

Lemma do_call_load_raises `{Pathlib} self c w e :
  takes_lock c = true →
  (∀ exclusive,
     json_load (memory_path self) (exec (_acquire_lock self exclusive) w)
     = (Raise e, exec (_acquire_lock self exclusive) w)) →
  eval (do_call self c) w = Raise e.
Proof.
  intros Hc Hload.
  destruct c as [|discovery|agent_id| |key decision decided_by| |checkpoint_name];
    [done|..]; cbn [do_call]; rewrite ?discard_raise.
  - by apply locked_load_raises.
  - by apply locked_load_raises.
  - by apply locked_load_raises.
  - by apply locked_load_raises.
  - by apply locked_load_raises.
  - unfold eval, checkpoint. rewrite locked_run, bind_unfold. cbn [time_time_int].
    rewrite bind_unfold. by rewrite (load_tick _ _ _ (Hload false)).
Qed.

(** X2. On a store whose file is missing or empty, every call that takes
    the lock raises: [FileNotFoundError] if there is no file,
    [JSONDecodeError] if the file is empty; and the file is neither created
    nor filled. *)
Theorem a_call_on_a_missing_or_empty_file_raises `{Pathlib} self c w :
  takes_lock c = true →
  lock_path self ≠ memory_path self →
  document self w = None →
  eval (do_call self c) w
  = Raise match files w !! memory_path self with
          | Some _ => JSONDecodeError
          | None => FileNotFoundError
          end
  ∧ files (exec (do_call self c) w) !! memory_path self
    = files w !! memory_path self.
Proof.
  intros Hc Hpaths Hdoc.
  assert (eval (do_call self c) w
          = Raise match files w !! memory_path self with
                  | Some _ => JSONDecodeError
                  | None => FileNotFoundError
                  end) as Hraise.
  { apply do_call_load_raises; [done|]. intros exclusive.
    unfold json_load, document in *. rewrite acquire_files.
    rewrite lookup_insert_ne by done.
    by destruct (files w !! memory_path self) as [[|j]|]. }
  split; [done|].
  rewrite (do_call_raise_files self c w _ Hraise).
  by rewrite lookup_insert_ne.
Qed.

(** X2 for [checkpoint] on the sample store before its file exists. *)
Lemma a_call_on_a_missing_or_empty_file_raises_witness :
  eval (do_call Sample.store (Call_checkpoint "nightly")) Sample.world0
  = Raise FileNotFoundError
  ∧ files (exec (do_call Sample.store (Call_checkpoint "nightly")) Sample.world0)
    !! memory_path Sample.store = None.
Proof.
  apply (a_call_on_a_missing_or_empty_file_raises
           Sample.store (Call_checkpoint "nightly") Sample.world0);
    [reflexivity | discriminate | reflexivity].
Defined.

(** X3. When the lock file of a store is its document file (the name
    [with_suffix] gives for a store whose name ends in [.lock]), every call
    that takes the lock empties the document and raises
    [JSONDecodeError]. *)
Theorem a_store_named_like_its_lock_file_is_emptied `{Pathlib} self c w :
  takes_lock c = true →
  lock_path self = memory_path self →
  eval (do_call self c) w = Raise JSONDecodeError
  ∧ files (exec (do_call self c) w) !! memory_path self = Some Empty_file.
Proof.
  intros Hc Hpaths.
  assert (eval (do_call self c) w = Raise JSONDecodeError) as Hraise.
  { apply do_call_load_raises; [done|]. intros exclusive.
    unfold json_load. rewrite acquire_files, Hpaths.
    by rewrite lookup_insert_eq. }
  split; [done|].
  rewrite (do_call_raise_files self c w _ Hraise), Hpaths.
  by rewrite lookup_insert_eq.
Qed.

(** X3 for a store made at [/shared/agent_memory.lock]. *)
Lemma a_store_named_like_its_lock_file_is_emptied_witness :
  eval (AgentMemory_new "/shared/agent_memory.lock") Sample.world0
  = Ok Edge.lock_named_store
  ∧ document Edge.lock_named_store Edge.lock_named_world
    = Some Sample.document1
  ∧ eval (do_call Edge.lock_named_store (Call_record_discovery Sample.endpoint_A))
      Edge.lock_named_world = Raise JSONDecodeError
  ∧ files (exec (do_call Edge.lock_named_store
                   (Call_record_discovery Sample.endpoint_A))
             Edge.lock_named_world)
    !! memory_path Edge.lock_named_store = Some Empty_file.
Proof.
  split; [reflexivity|]. split; [reflexivity|].
  apply (a_store_named_like_its_lock_file_is_emptied Edge.lock_named_store
           (Call_record_discovery Sample.endpoint_A) Edge.lock_named_world);
    reflexivity.
Defined.

(** X5. A call touches only its own files: [_initialize_memory] the
    document; the readers the lock file; [record_discovery] and
    [record_decision] the lock file and the document; [checkpoint] the lock
    file and the checkpoint file of this second. Every other path holds
    after the call what it held before. *)
Theorem a_call_leaves_the_other_files `{Pathlib} self c w path :
  path ∉ written_paths self c w →
  files (exec (do_call self c) w) !! path = files w !! path.
Proof.
  destruct c as [|discovery|agent_id| |key decision decided_by| |checkpoint_name];
    cbn [do_call written_paths]; rewrite ?discard_exec;
    rewrite ?not_elem_of_cons; intros Hpath.
  - destruct (files w !! memory_path self) as [f|] eqn:Hf.
    + unfold exec. by rewrite initialize_present.
    + unfold exec. rewrite initialize_absent by done. cbn.
      rewrite lookup_insert_ne; [done|]. intros <-. by destruct Hpath.
  - pose proof (record_discovery_files self discovery w) as Hfiles.
    cbv zeta in Hfiles. destruct Hpath as (Hlock & Hmem & _).
    destruct (eval (record_discovery self discovery) w) as [r|e].
    + destruct Hfiles as [memory ->]. by rewrite !lookup_insert_ne.
    + rewrite Hfiles. by rewrite lookup_insert_ne.
  - rewrite get_shared_knowledge_files. rewrite lookup_insert_ne; [done|].
    intros <-. by destruct Hpath.
  - rewrite get_conflicts_files. rewrite lookup_insert_ne; [done|].
    intros <-. by destruct Hpath.
  - pose proof (record_decision_files self key decision decided_by w) as Hfiles.
    cbv zeta in Hfiles. destruct Hpath as (Hlock & Hmem & _).
    destruct (eval (record_decision self key decision decided_by) w) as [r|e].
    + destruct Hfiles as [memory ->]. by rewrite !lookup_insert_ne.
    + rewrite Hfiles. by rewrite lookup_insert_ne.
  - rewrite get_agent_summary_files. rewrite lookup_insert_ne; [done|].
    intros <-. by destruct Hpath.
  - pose proof (checkpoint_files self checkpoint_name w) as Hfiles.
    cbv zeta in Hfiles. destruct Hpath as (Hlock & Hmem & _).
    destruct (eval (checkpoint self checkpoint_name) w) as [r|e].
    + destruct Hfiles as [-> [memory ->]]. by rewrite !lookup_insert_ne.
    + rewrite Hfiles. by rewrite lookup_insert_ne.
Qed.

(** X5: a checkpoint of the sample store is left alone by a later
    [record_discovery]. *)
Lemma a_call_leaves_the_other_files_witness :
  files (exec (do_call Sample.store (Call_record_discovery Sample.endpoint_B))
           (exec (checkpoint Sample.store "nightly") Sample.world2))
    !! "/shared/checkpoint_nightly_1714557602.json"
  = files (exec (checkpoint Sample.store "nightly") Sample.world2)
    !! "/shared/checkpoint_nightly_1714557602.json"
  ∧ is_Some (files (exec (checkpoint Sample.store "nightly") Sample.world2)
             !! "/shared/checkpoint_nightly_1714557602.json").
Proof.
  split.
  - apply (a_call_leaves_the_other_files Sample.store
             (Call_record_discovery Sample.endpoint_B)).
    cbn [written_paths]. rewrite !not_elem_of_cons.
    split; [discriminate|]. split; [discriminate|]. apply not_elem_of_nil.
  - vm_compute. eexists. reflexivity.
Defined.

(** X6. Two checkpoints of the same name, a name that makes the name of a
    file, taken in the same second go to the same file: both calls return
    the same path, and after the second call the file holds the second
    copy, stamped with the later time. *)
Theorem checkpoints_of_one_second_share_a_file `{Pathlib} self checkpoint_name
    w doc :
  lock_path self ≠ memory_path self →
  document self w = Some doc →
  is_document doc = true →
  plain_name checkpoint_name = true →
  checkpoint_path_at self checkpoint_name w ≠ memory_path self →
  unix_time w (2 + ticks w) = unix_time w (ticks w) →
  let w1 := exec (checkpoint self checkpoint_name) w in
  let w2 := exec (checkpoint self checkpoint_name) w1 in
  eval (checkpoint self checkpoint_name) w
  = Ok (checkpoint_path_at self checkpoint_name w)
  ∧ eval (checkpoint self checkpoint_name) w1
    = Ok (checkpoint_path_at self checkpoint_name w)
  ∧ files w1 !! checkpoint_path_at self checkpoint_name w
    = Some (Json_file (stamped checkpoint_name (utc_iso w (1 + ticks w)) doc))
  ∧ files w2 !! checkpoint_path_at self checkpoint_name w
    = Some (Json_file (stamped checkpoint_name (utc_iso w (3 + ticks w)) doc)).
Proof.
  intros Hpaths Hdoc Hshape Hplain Hother Hsecond w1 w2.
  assert (checkpoint self checkpoint_name w
          = (Ok (checkpoint_path_at self checkpoint_name w), w1)) as Hfirst.
  { unfold w1, exec. by rewrite (checkpoint_run _ _ _ doc). }
  assert (w1 = exec (json_dump (stamped checkpoint_name (utc_iso w (S (ticks w))) doc)
                       (checkpoint_path_at self checkpoint_name w))
                 (advance 2 (exec (_acquire_lock self false) w))) as Hw1.
  { unfold w1, exec at 1. by rewrite (checkpoint_run _ _ _ doc). }
  assert (document self w1 = Some doc) as Hdoc1.
  { apply document_Some. rewrite Hw1. cbn.
    rewrite lookup_insert_ne by done. rewrite lookup_insert_ne by done.
    by apply document_Some. }
  assert (checkpoint_path_at self checkpoint_name w1
          = checkpoint_path_at self checkpoint_name w) as Hsame.
  { unfold checkpoint_path_at. rewrite Hw1. cbn. cbn in Hsecond. by rewrite Hsecond. }
  assert (utc_iso w1 (S (ticks w1)) = utc_iso w (3 + ticks w)) as Hclock.
  { rewrite Hw1. done. }
  split; [unfold eval; by rewrite Hfirst|].
  split; [unfold eval; by rewrite (checkpoint_run _ _ _ doc), Hsame|].
  split.
  - rewrite Hw1. cbn. by rewrite lookup_insert_eq.
  - unfold w2, exec at 1. rewrite (checkpoint_run _ _ _ doc) by done.
    rewrite Hsame, Hclock. cbn. by rewrite lookup_insert_eq.
Qed.

(** X6 on the sample store, with a clock that stays in one second. *)
Lemma checkpoints_of_one_second_share_a_file_witness :
  files (exec (checkpoint Sample.store "nightly")
           (exec (checkpoint Sample.store "nightly") Edge.one_second_world))
    !! checkpoint_path_at Sample.store "nightly" Edge.one_second_world
  = Some (Json_file (stamped "nightly"
                       (utc_iso Edge.one_second_world
                          (3 + ticks Edge.one_second_world))
                       Sample.document1)).
Proof.
  refine (proj2 (proj2 (proj2
    (checkpoints_of_one_second_share_a_file Sample.store "nightly"
       Edge.one_second_world Sample.document1 _ _ _ _ _ _)))).
  - discriminate.
  - reflexivity.
  - reflexivity.
  - reflexivity.
  - vm_compute. discriminate.
  - reflexivity.
Defined.

Lemma record_discovery_document self discovery w doc :
  lock_path self ≠ memory_path self →
  document self w = Some doc →
  is_document doc = true →
  document self (exec (record_discovery self discovery) w)
  = Some (after_discovery discovery (utc_iso w) (ticks w) doc).
Proof.
  intros Hpaths Hdoc Hshape. unfold exec at 1.
  rewrite (record_discovery_run self discovery w doc Hpaths Hdoc Hshape).
  cbn [snd]. apply document_dump.
Qed.

Lemma getitem_namespaces doc :
  is_document doc = true → getitem doc "discoveries" = Ok (JObj (namespaces doc)).
Proof.
  intros (top & ds & cs & dec & md & -> & Hds & _)%is_document_inv.
  unfold namespaces. by rewrite (getitem_obj _ _ _ Hds).
Qed.

Lemma truthy_Some worker : worker ≠ EmptyString → truthy (Some worker) = true.
Proof. by destruct worker. Qed.

(** The mapping [get_shared_knowledge(worker)] returns on a store
    document. *)
Lemma get_shared_knowledge_worker self worker w doc :
  lock_path self ≠ memory_path self →
  document self w = Some doc →
  is_document doc = true →
  worker ≠ EmptyString →
  eval (get_shared_knowledge self (Some worker)) w
  = Ok (default (JObj []) (Dict.get worker (namespaces doc))).
Proof.
  intros Hpaths Hdoc Hshape Hworker. unfold eval.
  rewrite (get_shared_knowledge_run self _ w doc Hpaths Hdoc).
  rewrite truthy_Some by done. cbn [fst].
  rewrite getitem_namespaces by done. cbn [result_bind get_default].
  by destruct (Dict.get worker (namespaces doc)).
Qed.

(** X7. What [record_discovery] stores is read back: after the call,
    whatever it returned, [get_shared_knowledge(agent_id)] gives the
    mapping of the worker with the new entry under the key, its other keys
    as before; and what it gives for any other worker is what it gave
    before the call. *)
Theorem a_recorded_discovery_is_read_back self discovery w doc :
  lock_path self ≠ memory_path self →
  document self w = Some doc →
  is_document doc = true →
  agent_id discovery ≠ EmptyString →
  let w' := exec (record_discovery self discovery) w in
  ∃ entries,
    eval (get_shared_knowledge self (Some (agent_id discovery))) w'
    = Ok (JObj entries)
    ∧ Dict.get (key discovery) entries = Some (asdict discovery)
    ∧ (∀ k, k ≠ key discovery →
            Dict.get k entries
            = Dict.get k (own_entries (agent_id discovery) (namespaces doc)))
    ∧ ∀ other, other ≠ agent_id discovery → other ≠ EmptyString →
               eval (get_shared_knowledge self (Some other)) w'
               = eval (get_shared_knowledge self (Some other)) w.
Proof.
  intros Hpaths Hdoc Hshape Hworker w'.
  pose proof (record_discovery_document self discovery w doc Hpaths Hdoc Hshape)
    as Hdoc'.
  pose proof (after_discovery_is_document discovery (utc_iso w) (ticks w) doc
                Hshape) as Hshape'.
  exists (Dict.set (key discovery) (asdict discovery)
            (own_entries (agent_id discovery) (namespaces doc))).
  split_and!.
  - rewrite (get_shared_knowledge_worker self _ w' _ Hpaths Hdoc' Hshape' Hworker).
    rewrite (after_discovery_namespaces discovery (utc_iso w) (ticks w) doc Hshape).
    by rewrite get_set_eq.
  - apply get_set_eq.
  - intros k Hk. by apply get_set_ne.
  - intros other Hother Hname.
    rewrite (get_shared_knowledge_worker self _ w' _ Hpaths Hdoc' Hshape' Hname).
    rewrite (get_shared_knowledge_worker self _ w _ Hpaths Hdoc Hshape Hname).
    rewrite (after_discovery_namespaces discovery (utc_iso w) (ticks w) doc Hshape).
    by rewrite get_set_ne.
Qed.

(** X7 for worker A on the sample store. *)
Lemma a_recorded_discovery_is_read_back_witness :
  lock_path Sample.store ≠ memory_path Sample.store
  ∧ document Sample.store Sample.world1 = Some Sample.document1
  ∧ is_document Sample.document1 = true
  ∧ agent_id Sample.endpoint_A ≠ EmptyString
  ∧ ∃ entries,
      eval (get_shared_knowledge Sample.store (Some (agent_id Sample.endpoint_A)))
        (exec (record_discovery Sample.store Sample.endpoint_A) Sample.world1)
      = Ok (JObj entries)
      ∧ Dict.get (key Sample.endpoint_A) entries = Some (asdict Sample.endpoint_A).
Proof.
  assert (lock_path Sample.store ≠ memory_path Sample.store) as H1
    by (vm_compute; discriminate).
  assert (document Sample.store Sample.world1 = Some Sample.document1) as H2
    by (vm_compute; reflexivity).
  assert (is_document Sample.document1 = true) as H3 by (vm_compute; reflexivity).
  assert (agent_id Sample.endpoint_A ≠ EmptyString) as H4
    by (vm_compute; discriminate).
  repeat (split; [assumption|]).
  destruct (a_recorded_discovery_is_read_back Sample.store Sample.endpoint_A
              Sample.world1 Sample.document1 H1 H2 H3 H4)
    as (entries & Hread & Hkey & _).
  exists entries. exact (conj Hread Hkey).
Defined.

(** X8. A worker whose name is the empty string can record but not read
    its own mapping: its discovery is stored under the empty name, and
    [get_shared_knowledge] with that name returns the whole document, as it
    does with [None]. *)
Theorem a_worker_without_a_name_reads_the_whole_document self discovery w doc :
  lock_path self ≠ memory_path self →
  document self w = Some doc →
  is_document doc = true →
  agent_id discovery = EmptyString →
  let w' := exec (record_discovery self discovery) w in
  let doc' := after_discovery discovery (utc_iso w) (ticks w) doc in
  entry_of doc' (agent_id discovery) (key discovery) = Some (asdict discovery)
  ∧ eval (get_shared_knowledge self (Some (agent_id discovery))) w' = Ok doc'
  ∧ eval (get_shared_knowledge self None) w' = Ok doc'.
Proof.
  intros Hpaths Hdoc Hshape Hname w' doc'.
  pose proof (record_discovery_document self discovery w doc Hpaths Hdoc Hshape)
    as Hdoc'.
  split_and!.
  - unfold doc'. rewrite entry_of_after_discovery by done.
    by rewrite decide_True.
  - unfold eval. rewrite (get_shared_knowledge_run self _ w' _ Hpaths Hdoc').
    by rewrite Hname.
  - unfold eval. by rewrite (get_shared_knowledge_run self _ w' _ Hpaths Hdoc').
Qed.

(** X8 on the sample store. *)
Lemma a_worker_without_a_name_reads_the_whole_document_witness :
  lock_path Sample.store ≠ memory_path Sample.store
  ∧ document Sample.store Sample.world1 = Some Sample.document1
  ∧ is_document Sample.document1 = true
  ∧ agent_id Edge.nameless = EmptyString
  ∧ eval (get_shared_knowledge Sample.store (Some (agent_id Edge.nameless)))
      (exec (record_discovery Sample.store Edge.nameless) Sample.world1)
    = Ok (after_discovery Edge.nameless (utc_iso Sample.world1)
            (ticks Sample.world1) Sample.document1).
Proof.
  assert (lock_path Sample.store ≠ memory_path Sample.store) as H1
    by (vm_compute; discriminate).
  assert (document Sample.store Sample.world1 = Some Sample.document1) as H2
    by (vm_compute; reflexivity).
  assert (is_document Sample.document1 = true) as H3 by (vm_compute; reflexivity).
  assert (agent_id Edge.nameless = EmptyString) as H4 by reflexivity.
  repeat (split; [assumption|]).
  exact (proj1 (proj2 (a_worker_without_a_name_reads_the_whole_document
                         Sample.store Edge.nameless Sample.world1
                         Sample.document1 H1 H2 H3 H4))).
Defined.

(** *** What a call does to the document *)

Lemma AgentMemory_new_run `{Pathlib} path lock w w' :
  with_suffix (Path path) ".lock" = Ok lock →
  _initialize_memory (mkAgentMemory (Path path) lock) w = (Ok tt, w') →
  AgentMemory_new path w = (Ok (mkAgentMemory (Path path) lock), w').
Proof.
  intros Hlock Hinit. unfold AgentMemory_new. cbv zeta. rewrite Hlock.
  rewrite bind_unfold. unfold lift at 1. by rewrite bind_unfold, Hinit.
Qed.

Lemma do_call_step `{Pathlib} self c w doc :
  lock_path self ≠ memory_path self →
  document self w = Some doc →
  is_document doc = true →
  ∃ r doc',
    eval (do_call self c) w = r
    ∧ document self (exec (do_call self c) w) = Some doc'
    ∧ store_step doc doc'
    ∧ (plain_call c = true → r = Ok tt).
Proof.
  intros Hpaths Hdoc Hshape. pose proof Hdoc as Hfile%document_Some.
  destruct c as [|discovery|agent_id| |key decision decided_by| |checkpoint_name];
    cbn [do_call plain_call].
  - exists (Ok tt), doc. unfold eval, exec. rewrite initialize_present by eauto.
    split_and!; [done..|constructor|done].
  - pose proof (record_discovery_run self discovery w doc Hpaths Hdoc Hshape)
      as Hrun. cbv zeta in Hrun.
    unfold eval, exec. erewrite bind_ok; [|exact Hrun]. cbn [fst snd mret Py_ret].
    eexists _, _. split_and!; [done|apply document_dump|constructor|done].
  - destruct (get_shared_knowledge_ok self agent_id w doc Hpaths Hdoc Hshape)
      as (r & Heval & Hexec).
    destruct (discard_result _ _ _ Heval) as [-> ->].
    exists (Ok tt), doc. rewrite Hexec, document_acquire by done.
    split_and!; [done..|constructor|done].
  - assert (eval (get_conflicts self) w = Ok (JArr (conflicts doc))) as Heval.
    { unfold eval. rewrite (get_conflicts_run _ _ _ Hpaths Hdoc).
      destruct (is_document_inv _ Hshape)
        as (top & ds & cs & dec & md & -> & _ & Hcs & _).
      unfold conflicts. rewrite (getitem_obj _ _ _ Hcs).
      cbn [fst get_default]. by rewrite Hcs. }
    destruct (discard_result _ _ _ Heval) as [-> ->].
    exists (Ok tt), doc. unfold exec. rewrite (get_conflicts_run _ _ _ Hpaths Hdoc).
    cbn [snd]. rewrite document_acquire by done.
    split_and!; [done..|constructor|done].
  - destruct (record_decision_run self key decision decided_by w doc Hpaths Hdoc)
      as (r & Hr & Hdoc' & _ & _ & Hok).
    assert (r = Ok tt) as ->.
    { apply Hok. destruct (is_document_inv _ Hshape)
        as (top & ds & cs & dec & md & -> & _ & _ & Hdec & _). eauto. }
    eexists _, _. split_and!; [exact Hr|exact Hdoc'|constructor|done].
  - destruct (summary_of_document doc Hshape) as [agents Hsum].
    assert (eval (get_agent_summary self) w = summary_of doc) as Heval.
    { unfold eval. by rewrite (get_agent_summary_run _ _ _ Hpaths Hdoc). }
    rewrite Hsum in Heval.
    destruct (discard_result _ _ _ Heval) as [-> ->].
    exists (Ok tt), doc. unfold exec.
    rewrite (get_agent_summary_run _ _ _ Hpaths Hdoc).
    cbn [snd]. rewrite document_acquire by done.
    split_and!; [done..|constructor|done].
  - destruct (checkpoint_document self Hpaths checkpoint_name w doc Hdoc Hshape)
      as (r & doc' & Heval & Hdoc' & Hcases & Hplain).
    exists (match r with Ok _ => Ok tt | Raise e => Raise e end), doc'.
    rewrite discard_exec. split_and!.
    + unfold eval in *. rewrite bind_unfold.
      destruct (checkpoint self checkpoint_name w) as [[path|e] w']; cbn in *;
        by subst r.
    + done.
    + destruct Hcases as [->| ->]; constructor.
    + intros Hname. by rewrite (Hplain Hname).
Qed.

Lemma after_decision_getitem key decision decided_by now doc field :
  field ≠ "decisions" →
  getitem (after_decision key decision decided_by now doc) field
  = getitem doc field.
Proof.
  intros Hfield. destruct doc as [| | | | | |top]; try done.
  unfold after_decision.
  destruct (Dict.get "decisions" top) as [[| | | | | |dec]|]; try done.
  cbn [getitem]. by rewrite get_set_ne.
Qed.

Lemma after_decision_parts key decision decided_by now doc :
  let doc' := after_decision key decision decided_by now doc in
  namespaces doc' = namespaces doc ∧ conflicts doc' = conflicts doc
  ∧ metadata doc' = metadata doc.
Proof.
  unfold namespaces, conflicts, metadata. cbv zeta.
  by rewrite !after_decision_getitem.
Qed.

Lemma stamped_parts checkpoint_name now doc :
  let doc' := stamped checkpoint_name now doc in
  namespaces doc' = namespaces doc ∧ conflicts doc' = conflicts doc
  ∧ decisions doc' = decisions doc.
Proof.
  unfold namespaces, conflicts, decisions. cbv zeta.
  by rewrite !stamped_getitem.
Qed.

Lemma store_step_document doc doc' :
  store_step doc doc' → is_document doc = true → is_document doc' = true.
Proof.
  intros [doc0|discovery clock n doc0|key decision decided_by now doc0
         |checkpoint_name now doc0] Hshape.
  - done.
  - by apply after_discovery_is_document.
  - by apply after_decision_document.
  - by apply stamped_is_document.
Qed.

Lemma entry_of_parts doc doc' worker key :
  namespaces doc' = namespaces doc →
  entry_of doc' worker key = entry_of doc worker key.
Proof. unfold entry_of. by intros ->. Qed.

Lemma keys_set_prefix {V} (k : string) (v : V) (d : list (string * V)) :
  Dict.keys d `prefix_of` Dict.keys (Dict.set k v d).
Proof.
  destruct (Dict.get k d) as [v'|] eqn:Hget.
  - rewrite keys_set_present by eauto. done.
  - rewrite keys_set_absent by done. by apply prefix_app_r.
Qed.

Lemma extends_refl doc : extends doc doc.
Proof. by split. Qed.

Lemma extends_trans doc1 doc2 doc3 :
  extends doc1 doc2 → extends doc2 doc3 → extends doc1 doc3.
Proof.
  intros [Hc1 Hw1 He1 Hd1 Hm1] [Hc2 Hw2 He2 Hd2 Hm2]. split.
  - by etrans.
  - by etrans.
  - auto.
  - by etrans.
  - by rewrite Hm2.
Qed.

Lemma store_step_extends doc doc' :
  store_step doc doc' → is_document doc = true → extends doc doc'.
Proof.
  intros [doc0|discovery clock n doc0|key decision decided_by now doc0
         |checkpoint_name now doc0] Hshape.
  - apply extends_refl.
  - split.
    + rewrite after_discovery_conflicts by done. by apply prefix_app_r.
    + rewrite after_discovery_namespaces by done. apply keys_set_prefix.
    + intros worker k Hsome. rewrite entry_of_after_discovery by done.
      by destruct (decide _).
    + by rewrite after_discovery_decisions.
    + rewrite after_discovery_metadata by done. by get_set.
  - destruct (after_decision_parts key decision decided_by now doc0)
      as (Hns & Hcs & Hmd).
    split.
    + by rewrite Hcs.
    + by rewrite Hns.
    + intros worker k. by rewrite (entry_of_parts _ _ _ _ Hns).
    + destruct (after_decision_document key decision decided_by now doc0 Hshape)
        as [_ ->]. apply keys_set_prefix.
    + by rewrite Hmd.
  - destruct (stamped_parts checkpoint_name now doc0) as (Hns & Hcs & Hdec).
    split.
    + by rewrite Hcs.
    + by rewrite Hns.
    + intros worker k. by rewrite (entry_of_parts _ _ _ _ Hns).
    + by rewrite Hdec.
    + rewrite stamped_metadata by done. by get_set.
Qed.

Lemma store_step_counted doc doc' :
  store_step doc doc' → is_document doc = true → counted doc → counted doc'.
Proof.
  intros [doc0|discovery clock n doc0|key decision decided_by now doc0
         |checkpoint_name now doc0] Hshape Hcount.
  - done.
  - unfold counted. rewrite after_discovery_metadata by done. by get_set.
  - destruct (after_decision_parts key decision decided_by now doc0)
      as (Hns & Hcs & Hmd).
    unfold counted. by rewrite Hns, Hmd.
  - destruct (stamped_parts checkpoint_name now doc0) as (Hns & Hcs & Hdec).
    unfold counted. rewrite Hns, stamped_metadata by done. by get_set.
Qed.

(** *** The order of timestamps *)

Lemma ltb_trans a b c :
  String.ltb a b = true → String.ltb b c = true → String.ltb a c = true.
Proof.
  unfold String.ltb. change String.compare with OrdersEx.String_as_OT.compare.
  destruct (OrdersEx.String_as_OT.compare a b) eqn:Hab; try discriminate.
  destruct (OrdersEx.String_as_OT.compare b c) eqn:Hbc; try discriminate.
  intros _ _.
  pose proof (@RelationClasses.StrictOrder_Transitive _ _
                OrdersEx.String_as_OT.lt_strorder a b c Hab Hbc) as Hac.
  unfold OrdersEx.String_as_OT.lt in Hac. by rewrite Hac.
Qed.

Lemma ltb_irrefl a : String.ltb a a = false.
Proof.
  unfold String.ltb. change String.compare with OrdersEx.String_as_OT.compare.
  destruct (OrdersEx.String_as_OT.compare a a) eqn:Haa; try done.
  destruct (@RelationClasses.StrictOrder_Irreflexive _ _
              OrdersEx.String_as_OT.lt_strorder a Haa).
Qed.

Lemma ltb_false a b : String.ltb a b = false → a = b ∨ String.ltb b a = true.
Proof.
  unfold String.ltb. rewrite (String.compare_antisym a b).
  destruct (String.compare b a) eqn:Hba; cbn [CompOpp]; intros Hlt.
  - left. symmetry. by apply String.compare_eq_iff.
  - by right.
  - discriminate Hlt.
Qed.

Lemma ltb_le_lt a b c :
  String.ltb a b = false → String.ltb a c = true → String.ltb b c = true.
Proof.
  intros [->|Hba]%ltb_false Hac; [done|]. by apply (ltb_trans b a c).
Qed.

Lemma not_ltb a b : String.ltb a b ≠ true → String.ltb a b = false.
Proof. by destruct (String.ltb a b). Qed.

(** *** The summary of a worker *)

Lemma max_from_greatest es :
  Forall (λ e, is_entry e = true) es →
  ∀ best, ∃ last,
    max_from (λ d, getitem d "timestamp") (JStr best) es = Ok (JStr last)
    ∧ (last = best ∨ last ∈ omap timestamp_of es)
    ∧ String.ltb last best = false
    ∧ ∀ t, t ∈ omap timestamp_of es → String.ltb last t = false.
Proof.
  induction 1 as [|e es He _ IH]; intros best.
  { exists best. split_and!; [done|by left|apply ltb_irrefl|].
    intros t Ht. by apply elem_of_nil in Ht. }
  apply is_entry_inv in He as (fields & v & t & -> & _ & Ht).
  assert (timestamp_of (JObj fields) = Some t) as Hts.
  { unfold timestamp_of. by rewrite (getitem_obj _ _ _ Ht). }
  cbn [max_from omap list_omap]. rewrite Hts, (getitem_obj _ _ _ Ht).
  cbn [result_bind py_gt].
  destruct (String.ltb best t) eqn:Hlt.
  - destruct (IH t) as (last & -> & Hlast & Hbest & Hall).
    exists last. split; [done|]. split_and!.
    + destruct Hlast as [->|Hin]; right; [apply list_elem_of_here|].
      by apply list_elem_of_further.
    + apply not_ltb. intros Hlb.
      by rewrite (ltb_trans _ _ _ Hlb Hlt) in Hbest.
    + intros t' [->|Hin]%elem_of_cons; auto.
  - destruct (IH best) as (last & -> & Hlast & Hbest & Hall).
    exists last. split; [done|]. split_and!.
    + destruct Hlast as [->|Hin]; [by left|]. right.
      by apply list_elem_of_further.
    + done.
    + intros t' [->|Hin]%elem_of_cons; [|auto].
      apply not_ltb. intros Hlt'.
      by rewrite (ltb_le_lt _ _ _ Hbest Hlt') in Hlt.
Qed.

Lemma py_max_greatest es default :
  Dict.unique_keys es →
  Forall (λ e, is_entry e = true) (Dict.values es) →
  ∃ last,
    py_max (λ d, getitem d "timestamp") (Dict.values es) (JStr default)
    = Ok (JStr last)
    ∧ greatest default last es.
Proof.
  intros _ Hes. unfold greatest, timestamps.
  destruct es as [|[k e] es]; [|cbn [Dict.values map] in *].
  { exists default. split_and!; [done|by right|].
    intros t Ht. by apply elem_of_nil in Ht. }
  apply Forall_cons in Hes as [He Hes].
  apply is_entry_inv in He as (fields & v & t & -> & _ & Ht).
  assert (timestamp_of (JObj fields) = Some t) as Hts.
  { unfold timestamp_of. by rewrite (getitem_obj _ _ _ Ht). }
  cbn [py_max omap list_omap]. rewrite Hts, (getitem_obj _ _ _ Ht).
  cbn [result_bind].
  destruct (max_from_greatest _ Hes t) as (last & -> & Hlast & Hbest & Hall).
  exists last. split_and!; [done| |].
  - left. destruct Hlast as [->|Hin]; [apply list_elem_of_here|].
    by apply list_elem_of_further.
  - intros t' [->|Hin]%elem_of_cons; auto.
Qed.

Lemma set_absent {V} (k : string) (v : V) (d : list (string * V)) :
  Dict.get k d = None → Dict.set k v d = (d ++ [(k, v)])%list.
Proof.
  induction d as [|[k' v'] d IH]; cbn; [done|].
  destruct (decide (k' = k)); [done|]. intros Hget. by rewrite IH.
Qed.

Lemma discovery_counts_app agents agents' :
  discovery_counts (agents ++ agents')
  = (discovery_counts agents ++ discovery_counts agents')%list.
Proof. unfold discovery_counts, Dict.values. by rewrite !map_app. Qed.

Lemma summary_agents_spec its :
  Dict.unique_keys its →
  Forall (λ ns, is_namespace ns = true) (Dict.values its) →
  ∀ acc,
    (∀ worker, worker ∈ Dict.keys its → Dict.get worker acc = None) →
    ∃ agents,
      summary_agents (JObj acc) its = Ok (JObj agents)
      ∧ Dict.keys agents = (Dict.keys acc ++ Dict.keys its)%list
      ∧ (∀ worker, worker ∉ Dict.keys its →
                   Dict.get worker agents = Dict.get worker acc)
      ∧ (∀ worker es,
           Dict.get worker its = Some (JObj es) →
           ∃ last, Dict.get worker agents = Some (worker_report (length es) last)
                   ∧ greatest "Never" last es)
      ∧ discovery_counts agents
        = (discovery_counts acc
           ++ map (λ ns, match ns with
                         | JObj es => Z.of_nat (length es)
                         | _ => 0
                         end) (Dict.values its))%list.
Proof.
  induction its as [|[worker0 ns0] its IH]; intros Hkeys Hits acc Hacc.
  { exists acc. cbn. rewrite !app_nil_r. split_and!; done. }
  apply NoDup_cons in Hkeys as [Hfresh Hkeys]. cbn [fst] in Hfresh.
  apply Forall_cons in Hits as [Hns Hits]. cbn [snd] in Hns.
  apply is_namespace_inv in Hns as (es0 & -> & Hes0 & Hentries).
  cbn [summary_agents summary_step len values result_bind].
  destruct (py_max_greatest es0 "Never" Hes0 Hentries) as (last0 & -> & Hlast0).
  cbn [result_bind setitem].
  assert (Dict.get worker0 acc = None) as Hacc0.
  { apply Hacc. apply list_elem_of_here. }
  fold (worker_report (length es0) last0).
  rewrite (set_absent _ _ _ Hacc0).
  destruct (IH Hkeys Hits (acc ++ [(worker0, worker_report (length es0) last0)])%list)
    as (agents & -> & Hks & Hout & Hin & Hcounts).
  { intros worker Hworker. rewrite <- (set_absent _ _ _ Hacc0).
    rewrite get_set_ne.
    - apply Hacc. by apply list_elem_of_further.
    - intros ->. done. }
  exists agents. split; [done|]. split_and!.
  - rewrite Hks. unfold Dict.keys. rewrite map_app. cbn [map fst].
    by rewrite <- app_assoc.
  - intros worker [Hne Hnot]%not_elem_of_cons. cbn [fst] in Hne.
    rewrite (Hout _ Hnot), <- (set_absent _ _ _ Hacc0). by rewrite get_set_ne.
  - intros worker es. cbn [Dict.get].
    destruct (decide (worker0 = worker)) as [<-|Hne].
    + intros [= <-]. exists last0. split; [|done].
      rewrite (Hout _ Hfresh), <- (set_absent _ _ _ Hacc0). apply get_set_eq.
    + apply Hin.
  - rewrite Hcounts, discovery_counts_app. cbn [Dict.values map snd].
    by rewrite <- app_assoc.
Qed.

Lemma summary_of_spec doc :
  is_document doc = true →
  ∃ agents,
    summary_of doc =
    Ok (JObj [ ("total_agents", JInt (Z.of_nat (length (namespaces doc))));
               ("total_discoveries",
                default (JInt 0) (Dict.get "total_discoveries" (metadata doc)));
               ("total_conflicts", JInt (Z.of_nat (length (conflicts doc))));
               ("total_decisions", JInt (Z.of_nat (length (decisions doc))));
               ("agents", JObj agents) ])
    ∧ Dict.keys agents = Dict.keys (namespaces doc)
    ∧ (∀ worker es,
         Dict.get worker (namespaces doc) = Some (JObj es) →
         ∃ last, Dict.get worker agents = Some (worker_report (length es) last)
                 ∧ greatest "Never" last es)
    ∧ foldr Z.add 0 (discovery_counts agents) = size_sum (namespaces doc).
Proof.
  intros (top & ds & cs & dec & md & -> & Hds & Hcs & Hdec & Hmd & Hkeys & Hns & _)
    %is_document_inv.
  unfold summary_of, namespaces, conflicts, decisions, metadata.
  rewrite (getitem_obj _ _ _ Hds), (getitem_obj _ _ _ Hmd),
    (getitem_obj _ _ _ Hcs), (getitem_obj _ _ _ Hdec).
  unfold get_default. rewrite Hcs, Hdec.
  cbn [result_bind len items].
  destruct (summary_agents_spec ds Hkeys Hns []) as (agents & -> & Hks & _ & Hin & Hcounts);
    [done|].
  exists agents. cbn [result_bind]. split_and!; [|done|done|].
  - by destruct (Dict.get "total_discoveries" md).
  - rewrite Hcounts. cbn [discovery_counts Dict.values map app].
    unfold size_sum. clear. induction (Dict.values ds) as [|ns nss IH]; [done|].
    cbn [map foldr]. rewrite IH.
    change (list_sum (?x :: ?l)) with (x + list_sum l)%nat.
    destruct ns; lia.
Qed.

(** X9. On a store document [get_agent_summary] reports the workers of
    the document, in its order; for each of them the number of its
    discoveries and as [last_activity] one of their timestamps that none of
    them is greater than in the order of strings, or [Never] if it has no
    discovery. *)
Theorem the_summary_counts_and_dates_each_worker self w doc :
  lock_path self ≠ memory_path self →
  document self w = Some doc →
  is_document doc = true →
  ∃ summary agents,
    eval (get_agent_summary self) w = Ok (JObj summary)
    ∧ Dict.get "agents" summary = Some (JObj agents)
    ∧ Dict.keys agents = Dict.keys (namespaces doc)
    ∧ ∀ worker es,
        Dict.get worker (namespaces doc) = Some (JObj es) →
        ∃ last, Dict.get worker agents = Some (worker_report (length es) last)
                ∧ greatest "Never" last es.
Proof.
  intros Hpaths Hdoc Hshape.
  destruct (summary_of_spec doc Hshape) as (agents & Hsum & Hkeys & Hin & _).
  eexists _, agents. split.
  { unfold eval. by rewrite (get_agent_summary_run _ _ _ Hpaths Hdoc), Hsum. }
  split_and!; [reflexivity|done|done].
Qed.

(** *** Scripts of calls *)

Lemma do_calls_steps `{Pathlib} self script :
  lock_path self ≠ memory_path self →
  ∀ w doc,
    document self w = Some doc →
    is_document doc = true →
    ∃ r doc',
      eval (do_calls self script) w = r
      ∧ document self (exec (do_calls self script) w) = Some doc'
      ∧ is_document doc' = true
      ∧ extends doc doc'
      ∧ (counted doc → counted doc')
      ∧ (plain_script script = true → r = Ok tt).
Proof.
  intros Hpaths. induction script as [|c script IH]; intros w doc Hdoc Hshape.
  { exists (Ok tt), doc. split_and!; [done..|apply extends_refl|done|done]. }
  destruct (do_call_step self c w doc Hpaths Hdoc Hshape)
    as (r1 & doc1 & Heval1 & Hdoc1 & Hstep & Hplain1).
  pose proof (store_step_document _ _ Hstep Hshape) as Hshape1.
  pose proof (store_step_extends _ _ Hstep Hshape) as Hext1.
  destruct r1 as [[]|e].
  - destruct (IH _ _ Hdoc1 Hshape1)
      as (r & doc2 & Heval2 & Hdoc2 & Hshape2 & Hext & Hcount & Hplain).
    assert (do_calls self (c :: script) w
            = do_calls self script (exec (do_call self c) w)) as Hrun.
    { cbn [do_calls]. by rewrite (bind_eval_ok _ _ _ _ Heval1). }
    exists r, doc2. unfold eval, exec in *. rewrite Hrun.
    split_and!; [done..| | |].
    + by eapply extends_trans.
    + intros Hc. apply Hcount. by apply (store_step_counted _ _ Hstep).
    + cbn [plain_script forallb]. intros [_ Hrest]%andb_prop. auto.
  - assert (do_calls self (c :: script) w
            = (Raise e, exec (do_call self c) w)) as Hrun.
    { cbn [do_calls]. rewrite bind_unfold. unfold eval, exec in *.
      destruct (do_call self c w) as [r w1]. cbn in *. by subst r. }
    exists (Raise e), doc1. unfold eval, exec in *. rewrite Hrun.
    cbn [fst snd]. split_and!; [done..| |].
    + intros Hc. by apply (store_step_counted _ _ Hstep).
    + cbn [plain_script forallb]. intros [Hc _]%andb_prop.
      by specialize (Hplain1 Hc).
Qed.




(** X9 on the sample store after the discovery of worker A. *)
Lemma the_summary_counts_and_dates_each_worker_witness :
  lock_path Sample.store ≠ memory_path Sample.store
  ∧ document Sample.store Sample.world2 = Some Sample.document2
  ∧ is_document Sample.document2 = true
  ∧ ∃ summary agents,
      eval (get_agent_summary Sample.store) Sample.world2 = Ok (JObj summary)
      ∧ Dict.get "agents" summary = Some (JObj agents)
      ∧ Dict.keys agents = Dict.keys (namespaces Sample.document2).
Proof.
  assert (lock_path Sample.store ≠ memory_path Sample.store) as H1
    by (vm_compute; discriminate).
  assert (document Sample.store Sample.world2 = Some Sample.document2) as H2
    by (vm_compute; reflexivity).
  assert (is_document Sample.document2 = true) as H3 by (vm_compute; reflexivity).
  repeat (split; [assumption|]).
  destruct (the_summary_counts_and_dates_each_worker Sample.store Sample.world2
              Sample.document2 H1 H2 H3)
    as (summary & agents & Heval & Hagents & Hkeys & _).
  exists summary, agents. exact (conj Heval (conj Hagents Hkeys)).
Defined.



(** *** The lock, whatever the calls do *)

Lemma start_lock_invariant w discoveries : lock_invariant (start w discoveries).
Proof.
  split; cbn [start holder processes]; [|done].
  intros j p Hp. apply list_lookup_fmap_Some in Hp as (d & -> & _).
  change (map ?f ?l) with (f <$> l) in *. cbn. done.
Qed.

Lemma move_lock_invariant i p ph w h s :
  lock_invariant s →
  processes s !! i = Some p →
  (h = holder s ∧ in_critical ph = in_critical (at_phase p))
  ∨ (holder s = None ∧ h = Some i ∧ in_critical ph = true)
  ∨ (in_critical (at_phase p) = true ∧ h = None ∧ in_critical ph = false) →
  lock_invariant (move i p ph w h s).
Proof.
  intros [Hcrit Hholder] Hi Hcases.
  pose proof (Hcrit i p Hi) as Hp. split.
  - intros j q. rewrite (move_lookup i p ph w h s j Hi). cbn [holder move].
    destruct (decide (j = i)) as [->|Hne].
    + intros [= <-]. cbn [at_phase].
      destruct Hcases as [[-> ->]|[(Hs & -> & ->)|(Hc & -> & ->)]]; [done..|].
      done.
    + intros Hq. rewrite (Hcrit j q Hq).
      destruct Hcases as [[-> _]|[(Hs & -> & _)|(Hc & -> & _)]]; [done| |].
      * rewrite Hs. split; [done|]. by intros [= ->].
      * rewrite (proj1 Hp Hc). split; [by intros [= ->]|done].
  - cbn [holder move processes]. intros h' Hh'.
    destruct (decide (h' = i)) as [->|Hne].
    + rewrite list_lookup_insert_eq by (by eapply lookup_lt_Some). eauto.
    + rewrite list_lookup_insert_ne by done. apply Hholder.
      destruct Hcases as [[-> _]|[(Hs & -> & _)|(Hc & -> & _)]];
        [done|by simplify_eq|done].
Qed.

Lemma step_lock_invariant self i s s' :
  lock_invariant s → step_process self i s = Some s' → lock_invariant s'.
Proof.
  intros Hinv. unfold step_process.
  destruct (processes s !! i) as [p|] eqn:Hi; [|done].
  pose proof (li_critical s Hinv i p Hi) as Hp.
  destruct (at_phase p) as [| | |memory|r|r] eqn:Hphase; cbn in Hp.
  - intros [= <-]. apply move_lock_invariant; [done..|]. left. by rewrite Hphase.
  - destruct (holder s) eqn:Hh; [done|]. intros [= <-].
    apply move_lock_invariant; [done..|]. right. by left.
  - destruct (json_load (memory_path self) (world s)) as [[memory|e] w'];
      intros [= <-]; (apply move_lock_invariant; [done..|]); left;
      by rewrite Hphase.
  - destruct (record_discovery_store self (call_of p) memory (world s)).
    intros [= <-]. apply move_lock_invariant; [done..|]. left. by rewrite Hphase.
  - intros [= <-]. apply move_lock_invariant; [done..|]. right. right.
    by rewrite Hphase.
  - done.
Qed.

Lemma run_lock_invariant self schedule :
  ∀ s s', lock_invariant s → run self schedule s = Some s' → lock_invariant s'.
Proof.
  induction schedule as [|i schedule IH]; intros s s' Hinv Hrun.
  - by injection Hrun as <-.
  - cbn [run] in Hrun.
    destruct (step_process self i s) as [s1|] eqn:Hstep; [|done].
    eapply IH; [|exact Hrun]. by eapply step_lock_invariant.
Qed.

Lemma unfinished_process s :
  all_finished s = false →
  ∃ i p, processes s !! i = Some p ∧ is_finished p = false.
Proof.
  unfold all_finished. induction (processes s) as [|p l IH]; [done|].
  cbn [forallb]. destruct (is_finished p) eqn:Hp.
  - intros (i & q & Hq & Hnot)%IH. by exists (S i), q.
  - intros _. by exists 0%nat, p.
Qed.

Lemma lock_progress self s :
  lock_invariant s →
  all_finished s = true ∨ ∃ i s', step_process self i s = Some s'.
Proof.
  intros [Hcrit Hholder].
  destruct (all_finished s) eqn:Hall; [by left|right].
  destruct (holder s) as [h|] eqn:Hh.
  - destruct (Hholder h eq_refl) as [p Hp].
    pose proof (proj2 (Hcrit h p Hp) eq_refl) as Hc.
    exists h. unfold step_process. rewrite Hp.
    destruct (at_phase p) as [| | |memory|r|r]; try done.
    + destruct (json_load (memory_path self) (world s)) as [[memory|e] w']; eauto.
    + destruct (record_discovery_store self (call_of p) memory (world s)). eauto.
    + eauto.
  - destruct (unfinished_process s Hall) as (i & p & Hp & Hnot).
    exists i. unfold step_process. rewrite Hp, Hh.
    pose proof (Hcrit i p Hp) as Hc. unfold is_finished in Hnot.
    destruct (at_phase p) as [| | |memory|r|r]; cbn in Hc, Hnot.
    + eauto.
    + eauto.
    + discriminate (proj1 Hc eq_refl).
    + discriminate (proj1 Hc eq_refl).
    + discriminate (proj1 Hc eq_refl).
    + done.
Qed.

Lemma lock_completes self n :
  ∀ s,
    lock_invariant s →
    (5 * length (processes s) - total_rank s ≤ n)%nat →
    ∃ schedule s', run self schedule s = Some s' ∧ all_finished s' = true.
Proof.
  induction n as [|n IH]; intros s Hinv Hn.
  - destruct (lock_progress self s Hinv) as [Hall|(i & s' & Hstep)].
    + by exists [], s.
    + destruct (step_rank _ _ _ _ Hstep) as [Hlt Hlen].
      pose proof (total_rank_bound s'). lia.
  - destruct (lock_progress self s Hinv) as [Hall|(i & s' & Hstep)].
    + by exists [], s.
    + destruct (step_rank _ _ _ _ Hstep) as [Hlt Hlen].
      pose proof (step_lock_invariant self i s s' Hinv Hstep) as Hinv'.
      destruct (IH s' Hinv') as (schedule & s'' & Hrun & Hall); [lia|].
      exists (i :: schedule), s''. cbn [run]. by rewrite Hstep.
Qed.

Lemma finished_not_critical s i p :
  all_finished s = true → processes s !! i = Some p →
  in_critical (at_phase p) = false.
Proof.
  intros Hall Hp. destruct (all_finished_lookup s i p Hall Hp) as [r ->]. done.
Qed.

(** X12. However the calls of several processes are interleaved, in any
    world and whether they return or raise: at most one process is between
    [flock] and the release; when all calls are over the lock is free; the
    calls have taken at most five steps each; and from every state reached
    the calls can all be run to their end. *)
Theorem the_lock_is_held_by_one_and_always_released self w discoveries
    schedule s :
  run self schedule (start w discoveries) = Some s →
  (∀ i j p q,
     processes s !! i = Some p → processes s !! j = Some q →
     in_critical (at_phase p) = true → in_critical (at_phase q) = true →
     i = j)
  ∧ (all_finished s = true → holder s = None)
  ∧ (length schedule ≤ 5 * length discoveries)%nat
  ∧ ∃ schedule' s',
      run self (schedule ++ schedule') (start w discoveries) = Some s'
      ∧ all_finished s' = true.
Proof.
  intros Hrun.
  pose proof (run_lock_invariant self schedule _ _
                (start_lock_invariant w discoveries) Hrun) as Hinv.
  split_and!.
  - intros i j p q Hp Hq Hcp Hcq.
    pose proof (proj1 (li_critical s Hinv i p Hp) Hcp) as Hi.
    pose proof (proj1 (li_critical s Hinv j q Hq) Hcq) as Hj.
    congruence.
  - intros Hall. destruct (holder s) as [h|] eqn:Hh; [|done].
    destruct (li_holder s Hinv h Hh) as [p Hp].
    pose proof (proj2 (li_critical s Hinv h p Hp) Hh) as Hc.
    by rewrite (finished_not_critical s h p Hall Hp) in Hc.
  - destruct (run_rank self schedule _ _ Hrun) as [Hle Hlen].
    pose proof (total_rank_bound s) as Hbound.
    rewrite Hlen in Hbound. cbn [start processes] in Hbound.
    rewrite length_map in Hbound. lia.
  - destruct (lock_completes self _ s Hinv (Nat.le_refl _))
      as (schedule' & s' & Hrun' & Hall).
    exists schedule', s'. by rewrite (run_app self _ _ _ _ Hrun).
Qed.

(** *** Interleavings and serial runs *)

Lemma serial_snoc self ds d w :
  serial self (ds ++ [d]) w
  = let '(rs, w1) := serial self ds w in
    let '(r, w2) := record_discovery self d w1 in
    ((rs ++ [r])%list, w2).
Proof.
  revert w. induction ds as [|d0 ds IH]; intros w; cbn [serial app].
  - by destruct (record_discovery self d w) as [r w1].
  - destruct (record_discovery self d0 w) as [r0 w0]. rewrite IH.
    destruct (serial self ds w0) as [rs w1].
    by destruct (record_discovery self d w1) as [r w2].
Qed.

Lemma touch_touch self w : touch self (touch self w) = touch self w.
Proof.
  unfold touch, exec, open_w, with_files. cbn. by rewrite insert_insert_eq.
Qed.

Lemma touch_id self w :
  files w !! lock_path self = Some Empty_file → touch self w = w.
Proof.
  intros Hlock. unfold touch, exec, open_w, with_files. cbn.
  rewrite insert_id by done. by destruct w.
Qed.

Lemma json_load_world path w r w' : json_load path w = (r, w') → w' = w.
Proof.
  unfold json_load. destruct (files w !! path) as [[|j]|]; by intros [= _ <-].
Qed.

Lemma json_load_touch self w r :
  lock_path self ≠ memory_path self →
  json_load (memory_path self) w = (r, w) →
  json_load (memory_path self) (touch self w) = (r, touch self w).
Proof.
  intros Hpaths. unfold json_load, touch, exec, open_w. cbn.
  rewrite lookup_insert_ne by done.
  destruct (files w !! memory_path self) as [[|j]|]; by intros [= <-].
Qed.

(** A call is the opening of the lock file, the load and the store. *)
Lemma record_discovery_steps self d w :
  record_discovery self d w
  = match json_load (memory_path self) (touch self w) with
    | (Ok m, w1) => record_discovery_store self d m w1
    | (Raise e, w1) => (Raise e, w1)
    end.
Proof. unfold record_discovery. by rewrite locked_run, bind_unfold. Qed.

Lemma record_discovery_settled self d w :
  lock_path self ≠ memory_path self →
  touch self (exec (record_discovery self d) w) = exec (record_discovery self d) w.
Proof.
  intros Hpaths. apply touch_id.
  pose proof (record_discovery_files self d w) as Hfiles. cbv zeta in Hfiles.
  destruct (eval (record_discovery self d) w) as [r|e].
  - destruct Hfiles as [memory ->].
    rewrite lookup_insert_ne by congruence. by rewrite lookup_insert_eq.
  - rewrite Hfiles. by rewrite lookup_insert_eq.
Qed.

Lemma not_all_ready s i p :
  processes s !! i = Some p → is_ready p = false →
  forallb is_ready (processes s) = false.
Proof.
  intros Hp Hnot. apply not_true_is_false. intros Hall.
  rewrite forallb_forall in Hall.
  assert (is_ready p = true) as Hready.
  { apply Hall. apply list_elem_of_In. by eapply list_elem_of_lookup_2. }
  congruence.
Qed.

Lemma step_calls self i s s' :
  step_process self i s = Some s' →
  map call_of (processes s') = map call_of (processes s).
Proof.
  unfold step_process. destruct (processes s !! i) as [p|] eqn:Hi; [|done].
  destruct (at_phase p) as [| | |memory|r|r].
  - intros [= <-]. by apply move_calls.
  - destruct (holder s); [done|]. intros [= <-]. by apply move_calls.
  - destruct (json_load (memory_path self) (world s)) as [[memory|e] w'];
      intros [= <-]; by apply move_calls.
  - destruct (record_discovery_store self (call_of p) memory (world s)).
    intros [= <-]. by apply move_calls.
  - intros [= <-]. by apply move_calls.
  - done.
Qed.

Lemma stored_move_same i p ph w h s i' d r :
  processes s !! i = Some p →
  stored ph = stored (at_phase p) →
  (∃ p', processes (move i p ph w h s) !! i' = Some p' ∧ call_of p' = d
         ∧ stored (at_phase p') = Some r)
  ↔ (∃ p', processes s !! i' = Some p' ∧ call_of p' = d
           ∧ stored (at_phase p') = Some r).
Proof.
  intros Hi Hsame. rewrite (move_lookup i p ph w h s i' Hi).
  destruct (decide (i' = i)) as [->|Hne]; [|done]. split.
  - intros (p' & [= <-] & Hd & Hr). cbn in Hd, Hr. exists p.
    by rewrite <- Hsame.
  - intros (p' & Hp' & Hd & Hr). rewrite Hi in Hp'. injection Hp' as <-.
    eexists. split; [done|]. cbn. by rewrite Hsame.
Qed.

Lemma stored_move_new i p ph w h s i' d r r0 :
  processes s !! i = Some p →
  stored (at_phase p) = None →
  stored ph = Some r0 →
  (∃ p', processes (move i p ph w h s) !! i' = Some p' ∧ call_of p' = d
         ∧ stored (at_phase p') = Some r)
  ↔ (∃ p', processes s !! i' = Some p' ∧ call_of p' = d
           ∧ stored (at_phase p') = Some r)
    ∨ (i', d, r) = (i, call_of p, r0).
Proof.
  intros Hi Hold Hnew. rewrite (move_lookup i p ph w h s i' Hi).
  destruct (decide (i' = i)) as [->|Hne].
  - split.
    + intros (p' & [= <-] & Hd & Hr). cbn in Hd, Hr. right.
      rewrite Hnew in Hr. by simplify_eq.
    + intros [(p' & Hp' & Hd & Hr)|[= -> ->]].
      * rewrite Hi in Hp'. injection Hp' as <-. congruence.
      * eexists. split; [done|]. by cbn.
  - split; [by left|]. intros [?|[= -> _ _]]; done.
Qed.

Lemma moved_not_ready i p ph w h s :
  processes s !! i = Some p →
  ph ≠ Ready →
  forallb is_ready (processes (move i p ph w h s)) = false.
Proof.
  intros Hi Hph.
  apply (not_all_ready _ i (mkProcess (call_of p) ph)).
  - rewrite (move_lookup i p ph w h s i Hi). by rewrite decide_True.
  - by destruct ph.
Qed.

Section Serial.
Context (self : AgentMemory) (w : World) (discoveries : list AgentDiscovery).
Context (Hpaths : lock_path self ≠ memory_path self).

Lemma start_serial_invariant :
  serial_invariant self w discoveries (start w discoveries) [] w.
Proof.
  split.
  - apply start_lock_invariant.
  - cbn. rewrite map_map. cbn. apply map_id.
  - intros i d r. split; [intros Hin; by apply elem_of_nil in Hin|].
    intros (p & Hp & _ & Hr). cbn [start processes] in Hp.
    change (map ?f ?l) with (f <$> l) in Hp.
    apply list_lookup_fmap_Some in Hp as (d' & -> & _). done.
  - constructor.
  - done.
  - cbn [start world processes].
    assert (forallb is_ready (map (λ d, mkProcess d Ready) discoveries) = true)
      as ->; [|done].
    clear. by induction discoveries.
  - done.
  - intros j p m Hp Hph. cbn [start processes] in Hp.
    change (map ?f ?l) with (f <$> l) in Hp.
    apply list_lookup_fmap_Some in Hp as (d' & -> & _). done.
Qed.

Lemma world_touched s log serial_world i p :
  serial_invariant self w discoveries s log serial_world →
  processes s !! i = Some p → at_phase p ≠ Ready →
  world s = touch self serial_world.
Proof.
  intros Hinv Hi Hph. rewrite (si_world _ _ _ _ _ _ Hinv).
  rewrite (not_all_ready s i p Hi); [done|]. unfold is_ready.
  by destruct (at_phase p).
Qed.

Lemma step_serial_invariant s log serial_world i s' :
  serial_invariant self w discoveries s log serial_world →
  step_process self i s = Some s' →
  ∃ log' serial_world',
    serial_invariant self w discoveries s' log' serial_world'.
Proof.
  intros Hinv Hstep.
  pose proof (step_lock_invariant self i s s' (si_lock _ _ _ _ _ _ Hinv) Hstep)
    as Hlock'.
  pose proof (step_calls self i s s' Hstep) as Hcalls'.
  rewrite (si_calls _ _ _ _ _ _ Hinv) in Hcalls'.
  pose proof Hinv as [Hlock Hcalls Hlog Honce Hserial Hworld Hsettled Hloaded].
  unfold step_process in Hstep.
  destruct (processes s !! i) as [p|] eqn:Hi; [|done].
  destruct (at_phase p) as [| | |memory|r|r] eqn:Hphase.
  - (* the lock file is opened *)
    injection Hstep as <-. exists log, serial_world. split; try done.
    + intros i' d r. rewrite Hlog. symmetry.
      apply stored_move_same; [done|]. by rewrite Hphase.
    + rewrite moved_not_ready by done. cbn [move world].
      fold (touch self (world s)). rewrite Hworld.
      destruct (forallb is_ready (processes s)); [done|apply touch_touch].
    + intros j q m. rewrite (move_lookup _ _ _ _ _ _ _ Hi).
      destruct (decide (j = i)) as [->|Hne]; [by intros [= <-]|].
      intros Hq Hm. cbn [move world]. fold (touch self (world s)).
      apply json_load_touch; [done|]. by eapply Hloaded.
  - (* the lock is taken *)
    destruct (holder s) eqn:Hh; [done|]. injection Hstep as <-.
    exists log, serial_world. split; try done.
    + intros i' d r. rewrite Hlog. symmetry.
      apply stored_move_same; [done|]. by rewrite Hphase.
    + rewrite moved_not_ready by done. cbn [move world].
      apply (world_touched s log serial_world i p Hinv Hi). by rewrite Hphase.
    + intros j q m. rewrite (move_lookup _ _ _ _ _ _ _ Hi).
      destruct (decide (j = i)) as [->|Hne]; [by intros [= <-]|].
      intros Hq Hm. cbn [move world]. by eapply Hloaded.
  - (* the document is loaded *)
    assert (world s = touch self serial_world) as Htouched.
    { apply (world_touched s log serial_world i p Hinv Hi). by rewrite Hphase. }
    destruct (json_load (memory_path self) (world s)) as [[memory|e] w'] eqn:Hload;
      injection Hstep as <-;
      pose proof (json_load_world _ _ _ _ Hload) as ->.
    + exists log, serial_world. split; try done.
      * intros i' d r. rewrite Hlog. symmetry.
        apply stored_move_same; [done|]. by rewrite Hphase.
      * rewrite moved_not_ready by done. done.
      * intros j q m. rewrite (move_lookup _ _ _ _ _ _ _ Hi).
        destruct (decide (j = i)) as [->|Hne].
        -- intros [= <-] [= <-]. done.
        -- intros Hq Hm. cbn [move world]. rewrite Hload. by eapply Hloaded.
    + exists (log ++ [(i, call_of p, Raise e)])%list, (world s).
      assert (record_discovery self (call_of p) serial_world
              = (Raise e, world s)) as Hcall.
      { rewrite record_discovery_steps, <- Htouched. by rewrite Hload. }
      split; try done.
      * intros i' d r. rewrite elem_of_app, list_elem_of_singleton, Hlog.
        symmetry. apply stored_move_new; [done|by rewrite Hphase|done].
      * rewrite map_app. apply NoDup_app. split_and!; [done| |apply NoDup_singleton].
        intros i' Hin ->%list_elem_of_singleton.
        apply list_elem_of_fmap in Hin as ([[i' d] r] & Heq & Hin).
        cbn in Heq. subst i'. apply Hlog in Hin as (p' & Hp' & _ & Hr).
        rewrite Hi in Hp'. injection Hp' as <-. by rewrite Hphase in Hr.
      * rewrite !map_app. cbn [map fst snd]. by rewrite serial_snoc, Hserial, Hcall.
      * rewrite moved_not_ready by done. cbn [move world].
        rewrite Htouched. by rewrite touch_touch.
      * intros _. rewrite Htouched. apply touch_touch.
      * intros j q m. rewrite (move_lookup _ _ _ _ _ _ _ Hi).
        destruct (decide (j = i)) as [->|Hne]; [by intros [= <-]|].
        intros Hq Hm. cbn [move world]. rewrite Hload. by eapply Hloaded.
  - (* the discovery is stored *)
    assert (world s = touch self serial_world) as Htouched.
    { apply (world_touched s log serial_world i p Hinv Hi). by rewrite Hphase. }
    destruct (record_discovery_store self (call_of p) memory (world s))
      as [r w'] eqn:Hstore.
    injection Hstep as <-.
    assert (record_discovery self (call_of p) serial_world = (r, w')) as Hcall.
    { rewrite record_discovery_steps, <- Htouched.
      by rewrite (Hloaded i p memory Hi Hphase). }
    assert (touch self w' = w') as Hsettled'.
    { pose proof (record_discovery_settled self (call_of p) serial_world Hpaths)
        as Hs. unfold exec in Hs. by rewrite Hcall in Hs. }
    exists (log ++ [(i, call_of p, r)])%list, w'.
    split; try done.
    + intros i' d r'. rewrite elem_of_app, list_elem_of_singleton, Hlog.
      symmetry. apply stored_move_new; [done|by rewrite Hphase|done].
    + rewrite map_app. apply NoDup_app. split_and!; [done| |apply NoDup_singleton].
      intros i' Hin ->%list_elem_of_singleton.
      apply list_elem_of_fmap in Hin as ([[i' d] r'] & Heq & Hin).
      cbn in Heq. subst i'. apply Hlog in Hin as (p' & Hp' & _ & Hr).
      rewrite Hi in Hp'. injection Hp' as <-. by rewrite Hphase in Hr.
    + rewrite !map_app. cbn [map fst snd]. by rewrite serial_snoc, Hserial, Hcall.
    + rewrite moved_not_ready by done. cbn [move world]. by rewrite Hsettled'.
    + intros j q m. rewrite (move_lookup _ _ _ _ _ _ _ Hi).
      destruct (decide (j = i)) as [->|Hne]; [by intros [= <-]|].
      intros Hq Hm. exfalso. apply Hne.
      pose proof (proj1 (li_critical s Hlock j q Hq)) as Hj.
      pose proof (proj1 (li_critical s Hlock i p Hi)) as Hi'.
      rewrite Hm in Hj. rewrite Hphase in Hi'.
      specialize (Hj eq_refl). specialize (Hi' eq_refl). congruence.
  - (* the lock is released *)
    injection Hstep as <-. exists log, serial_world. split; try done.
    + intros i' d r'. rewrite Hlog. symmetry.
      apply stored_move_same; [done|]. by rewrite Hphase.
    + rewrite moved_not_ready by done. cbn [move world].
      apply (world_touched s log serial_world i p Hinv Hi). by rewrite Hphase.
    + intros j q m. rewrite (move_lookup _ _ _ _ _ _ _ Hi).
      destruct (decide (j = i)) as [->|Hne]; [by intros [= <-]|].
      intros Hq Hm. cbn [move world]. by eapply Hloaded.
  - done.
Qed.
End Serial.

Lemma run_serial_invariant self w discoveries schedule :
  lock_path self ≠ memory_path self →
  ∀ s log serial_world s',
    serial_invariant self w discoveries s log serial_world →
    run self schedule s = Some s' →
    ∃ log' serial_world',
      serial_invariant self w discoveries s' log' serial_world'.
Proof.
  intros Hpaths.
  induction schedule as [|i schedule IH]; intros s log serial_world s' Hinv Hrun.
  - injection Hrun as <-. eauto.
  - cbn [run] in Hrun.
    destruct (step_process self i s) as [s1|] eqn:Hstep; [|done].
    destruct (step_serial_invariant self w discoveries Hpaths _ _ _ _ _ Hinv Hstep)
      as (log1 & world1 & Hinv1).
    by eapply IH.
Qed.

(** X13. Every interleaving that has run all the calls to their end is a
    serial run: there is an order of the calls, a permutation of them, such
    that making the calls one after the other in this order from the first
    world gives each call the result it had in the interleaving and leaves
    the same world. *)
Theorem a_finished_interleaving_is_a_serial_run self w discoveries schedule s :
  lock_path self ≠ memory_path self →
  run self schedule (start w discoveries) = Some s →
  all_finished s = true →
  ∃ log : list (nat * AgentDiscovery * result bool),
    map (λ x, x.1.1) log ≡ₚ seq 0 (length discoveries)
    ∧ (∀ i d r,
         (i, d, r) ∈ log →
         discoveries !! i = Some d
         ∧ processes s !! i = Some (mkProcess d (Finished r)))
    ∧ serial self (map (λ x, x.1.2) log) w = (map snd log, world s).
Proof.
  intros Hpaths Hrun Hall.
  destruct (run_serial_invariant self w discoveries schedule Hpaths _ _ _ _
              (start_serial_invariant self w discoveries) Hrun)
    as (log & serial_world & Hinv).
  destruct Hinv as [Hlock Hcalls Hlog Honce Hserial Hworld Hsettled Hloaded].
  assert (∀ i d r, (i, d, r) ∈ log →
            discoveries !! i = Some d
            ∧ processes s !! i = Some (mkProcess d (Finished r))) as Hdone.
  { intros i d r (p & Hp & Hd & Hr)%Hlog.
    destruct (all_finished_lookup s i p Hall Hp) as [r' Hphase].
    rewrite Hphase in Hr. injection Hr as ->.
    split.
    - rewrite <- Hcalls. change (map ?f ?l) with (f <$> l).
      by rewrite list_lookup_fmap, Hp, <- Hd.
    - rewrite Hp. destruct p as [d' ph]. cbn in *. by subst. }
  exists log. split_and!; [|done|].
  - apply NoDup_Permutation; [done|apply NoDup_seq|].
    intros i. rewrite elem_of_seq. split.
    + intros ([[i' d] r] & -> & Hin)%list_elem_of_fmap. cbn.
      destruct (Hdone _ _ _ Hin) as [Hd _].
      apply lookup_lt_Some in Hd. lia.
    + intros [_ Hlt]. cbn in Hlt.
      rewrite <- Hcalls, length_map in Hlt.
      destruct (lookup_lt_is_Some_2 _ _ Hlt) as [p Hp].
      destruct (all_finished_lookup s i p Hall Hp) as [r Hphase].
      apply list_elem_of_fmap. exists (i, call_of p, r). split; [done|].
      apply Hlog. exists p. by rewrite Hphase.
  - rewrite Hserial. f_equal. rewrite Hworld.
    destruct (forallb is_ready (processes s)) eqn:Hready; [done|].
    symmetry. apply Hsettled. intros ->.
    (* a process that is finished is in the log *)
    assert (∃ i p, processes s !! i = Some p) as (i & p & Hp).
    { destruct (processes s) as [|p l]; [discriminate Hready|].
      by exists 0%nat, p. }
    destruct (all_finished_lookup s i p Hall Hp) as [r Hphase].
    assert ((i, call_of p, r) ∈ ([] : list (nat * AgentDiscovery * result bool)))
      as Hin; [|by apply elem_of_nil in Hin].
    apply Hlog. exists p. by rewrite Hphase.
Qed.

(** X12 for the workers A and B interleaved on the sample store. *)
Lemma the_lock_is_held_by_one_and_always_released_witness :
  run Sample.store Edge.interleaving (start Sample.world1 Edge.two_calls)
  = Some Edge.interleaved
  ∧ (all_finished Edge.interleaved = true → holder Edge.interleaved = None)
  ∧ (length Edge.interleaving ≤ 5 * length Edge.two_calls)%nat.
Proof.
  assert (is_Some (run Sample.store Edge.interleaving
                     (start Sample.world1 Edge.two_calls))) as Hsome.
  { apply (bool_decide_unpack _). vm_compute. exact I. }
  assert (run Sample.store Edge.interleaving (start Sample.world1 Edge.two_calls)
          = Some Edge.interleaved) as H1.
  { unfold Edge.interleaved. destruct Hsome as [s ->]. reflexivity. }
  split; [assumption|].
  pose proof (the_lock_is_held_by_one_and_always_released Sample.store
                Sample.world1 Edge.two_calls Edge.interleaving Edge.interleaved H1)
    as (_ & Hfree & Hlength & _).
  exact (conj Hfree Hlength).
Defined.

(** X13 for the same interleaving. *)
Lemma a_finished_interleaving_is_a_serial_run_witness :
  lock_path Sample.store ≠ memory_path Sample.store
  ∧ run Sample.store Edge.interleaving (start Sample.world1 Edge.two_calls)
    = Some Edge.interleaved
  ∧ all_finished Edge.interleaved = true
  ∧ ∃ log : list (nat * AgentDiscovery * result bool),
      map (λ x, x.1.1) log ≡ₚ seq 0 (length Edge.two_calls)
      ∧ serial Sample.store (map (λ x, x.1.2) log) Sample.world1
        = (map snd log, world Edge.interleaved).
Proof.
  assert (lock_path Sample.store ≠ memory_path Sample.store) as H1
    by (vm_compute; discriminate).
  assert (is_Some (run Sample.store Edge.interleaving
                     (start Sample.world1 Edge.two_calls))) as Hsome.
  { apply (bool_decide_unpack _). vm_compute. exact I. }
  assert (run Sample.store Edge.interleaving (start Sample.world1 Edge.two_calls)
          = Some Edge.interleaved) as H2.
  { unfold Edge.interleaved. destruct Hsome as [s ->]. reflexivity. }
  assert (all_finished Edge.interleaved = true) as H3 by (vm_compute; reflexivity).
  repeat (split; [assumption|]).
  destruct (a_finished_interleaving_is_a_serial_run Sample.store Sample.world1
              Edge.two_calls Edge.interleaving Edge.interleaved H1 H2 H3)
    as (log & Hperm & _ & Hserial).
  exists log. exact (conj Hperm Hserial).
Defined.

(** *** The example workflow *)

Lemma console_unfold {A B} (m : Console A) (k : A → Console B) t :
  (x ← m; k x) t
  = match m t with
    | (Ok a, t') => k a t'
    | (Raise e, t') => (Raise e, t')
    end.
Proof. done. Qed.

Lemma bind_on_disk {A B} (m : Py A) (k : A → Console B) w out a w' :
  m w = (Ok a, w') →
  (x ← on_disk m; k x) (mkTerminal w out) = k a (mkTerminal w' out).
Proof.
  intros Hm. rewrite console_unfold. unfold on_disk. cbn [disk printed].
  by rewrite Hm.
Qed.

Lemma bind_on_disk_lift {A B} (a : A) (k : A → Console B) t :
  (x ← on_disk (lift (Ok a)); k x) t = k a t.
Proof. rewrite console_unfold. by destruct t. Qed.

Lemma bind_print {B} line (k : unit → Console B) w out :
  (x ← print line; k x) (mkTerminal w out)
  = k tt (mkTerminal w (out ++ [line])%list).
Proof. done. Qed.

(** A run of the example on a store document: the discovery is recorded,
    a conflict is reported if another worker holds the key, and the workers
    of the document are gone through. *)
Lemma example_agent_workflow_run agent_id memory w out doc :
  lock_path memory ≠ memory_path memory →
  document memory w = Some doc →
  is_document doc = true →
  let discovery := example_discovery agent_id (utc_iso w (ticks w)) in
  let doc' := after_discovery discovery (utc_iso w) (S (ticks w)) doc in
  let w' := exec (get_shared_knowledge memory None)
              (exec (record_discovery memory discovery) (tick w)) in
  document memory w' = Some doc'
  ∧ is_document doc' = true
  ∧ example_agent_workflow agent_id memory (mkTerminal w out)
    = for_in (report_worker agent_id) (namespaces doc')
        (mkTerminal w'
           (out ++ if bool_decide (other_holders discovery doc = []) then []
                   else [conflict_line agent_id "api_endpoint_pattern"])%list).
Proof.
  intros Hpaths Hdoc Hshape discovery doc' w'.
  assert (document memory (tick w) = Some doc) as Hdoc1
    by by rewrite document_tick.
  pose proof (record_discovery_run memory discovery (tick w) doc Hpaths Hdoc1 Hshape)
    as Hrun. cbv zeta in Hrun.
  pose proof (record_discovery_document memory discovery (tick w) doc Hpaths
                Hdoc1 Hshape) as Hdoc2.
  change (after_discovery discovery (utc_iso (tick w)) (ticks (tick w)) doc)
    with doc' in Hdoc2.
  pose proof (after_discovery_is_document discovery (utc_iso w) (S (ticks w)) doc
                Hshape) as Hshape'.
  fold doc' in Hshape'.
  pose proof (get_shared_knowledge_run memory None _ doc' Hpaths Hdoc2) as Hread.
  assert (document memory w' = Some doc') as Hdoc3.
  { unfold w', exec at 1. rewrite Hread. cbn [snd].
    by rewrite document_acquire. }
  split; [done|]. split; [done|].
  unfold example_agent_workflow.
  rewrite (bind_on_disk utcnow_isoformat _ w out (utc_iso w (ticks w)) (tick w)
             eq_refl). cbv zeta. fold discovery.
  assert (record_discovery memory discovery (tick w)
          = (Ok (bool_decide (other_holders discovery doc = [])),
             exec (record_discovery memory discovery) (tick w))) as Hrun'.
  { unfold exec. by rewrite Hrun. }
  rewrite (bind_on_disk _ _ _ _ _ _ Hrun').
  assert (get_shared_knowledge memory None
            (exec (record_discovery memory discovery) (tick w))
          = (Ok doc', w')) as Hread'.
  { unfold w', exec at 2. by rewrite Hread. }
  destruct (bool_decide (other_holders discovery doc = [])); cbn [negb].
  - rewrite console_unfold. cbn [mret Console_ret].
    rewrite (bind_on_disk _ _ _ _ _ _ Hread').
    rewrite (getitem_namespaces doc' Hshape'), bind_on_disk_lift.
    cbn [items]. rewrite bind_on_disk_lift. by rewrite app_nil_r.
  - rewrite bind_print.
    rewrite (bind_on_disk _ _ _ _ _ _ Hread').
    rewrite (getitem_namespaces doc' Hshape'), bind_on_disk_lift.
    cbn [items]. by rewrite bind_on_disk_lift.
Qed.

Lemma namespaces_fresh created : namespaces (fresh_document created) = [].
Proof. reflexivity. Qed.

Lemma conflicts_fresh created : conflicts (fresh_document created) = [].
Proof. reflexivity. Qed.

Lemma example_entry agent_id now :
  get_default (asdict (example_discovery agent_id now)) "tags" (JArr [])
  = Ok (JArr [JStr "api"; JStr "rest"; JStr "pattern"]).
Proof. reflexivity. Qed.

Section TwoWorkers.
Context (memory : AgentMemory) (a b : string) (w : World) (out : list string).
Context (Hfile : files w !! memory_path memory = None).
Context (Hab : a ≠ b).

Let w0 := exec (_initialize_memory memory) w.
Let doc0 := fresh_document (utc_iso w (ticks w)).
Let d_a := example_discovery a (utc_iso w0 (ticks w0)).
Let doc1 := after_discovery d_a (utc_iso w0) (S (ticks w0)) doc0.
Let w1 := exec (get_shared_knowledge memory None)
            (exec (record_discovery memory d_a) (tick w0)).
Let d_b := example_discovery b (utc_iso w1 (ticks w1)).
Let doc2 := after_discovery d_b (utc_iso w1) (S (ticks w1)) doc1.
Let w2 := exec (get_shared_knowledge memory None)
            (exec (record_discovery memory d_b) (tick w1)).

Lemma two_workers_new :
  on_disk (_initialize_memory memory) (mkTerminal w out)
  = (Ok tt, mkTerminal w0 out)
  ∧ document memory w0 = Some doc0.
Proof.
  assert (_initialize_memory memory w = (Ok tt, w0)) as Hinit.
  { unfold w0, exec. by rewrite (initialize_absent memory w Hfile). }
  split.
  - unfold on_disk. cbn [disk printed]. by rewrite Hinit.
  - unfold w0, exec. rewrite (initialize_absent memory w Hfile).
    apply document_dump.
Qed.

Lemma two_workers_first :
  namespaces doc1 = [(a, JObj [("api_endpoint_pattern", asdict d_a)])]
  ∧ conflicts doc1 = []
  ∧ other_holders d_a doc0 = [].
Proof.
  pose proof (is_document_fresh (utc_iso w (ticks w))) as Hshape.
  split_and!.
  - unfold doc1. rewrite after_discovery_namespaces by done. done.
  - unfold doc1. rewrite after_discovery_conflicts by done. done.
  - done.
Qed.

Lemma two_workers_second :
  other_holders d_b doc1 = [(a, JObj [("api_endpoint_pattern", asdict d_a)])]
  ∧ namespaces doc2 = [ (a, JObj [("api_endpoint_pattern", asdict d_a)]);
                        (b, JObj [("api_endpoint_pattern", asdict d_b)]) ]
  ∧ conflicts doc2
    = [conflict_record d_b a api_pattern (utc_iso w1 (S (ticks w1)))].
Proof.
  destruct two_workers_first as (Hns1 & Hcs1 & _).
  assert (is_document doc1 = true) as Hshape1.
  { apply after_discovery_is_document, is_document_fresh. }
  assert (other_holders d_b doc1
          = [(a, JObj [("api_endpoint_pattern", asdict d_a)])]) as Hholders.
  { unfold other_holders. rewrite Hns1. cbn [List.filter].
    unfold is_other_holder. cbn [fst snd agent_id d_b example_discovery
      AgentDiscovery_new].
    by rewrite bool_decide_true. }
  split_and!; [done| |].
  - unfold doc2. rewrite after_discovery_namespaces by done. rewrite Hns1.
    unfold own_entries. cbn [Dict.get agent_id d_b example_discovery
      AgentDiscovery_new Dict.set].
    rewrite !decide_False by done. done.
  - unfold doc2. rewrite after_discovery_conflicts by done.
    rewrite Hcs1, Hholders. done.
Qed.
End TwoWorkers.

Lemma report_worker_self agent_id discoveries t :
  report_worker agent_id (agent_id, discoveries) t = (Ok tt, t).
Proof.
  unfold report_worker. rewrite bool_decide_false; [done|]. by intros Hne.
Qed.

Lemma report_worker_example agent_id other_agent now w out :
  other_agent ≠ agent_id →
  report_worker agent_id
    (other_agent,
     JObj [("api_endpoint_pattern", asdict (example_discovery other_agent now))])
    (mkTerminal w out)
  = (Ok tt,
     mkTerminal w
       (out ++ [found_line agent_id other_agent "api_endpoint_pattern"])%list).
Proof.
  intros Hne. unfold report_worker. rewrite bool_decide_true by done.
  cbn [items]. rewrite bind_on_disk_lift. cbn [for_in report_entry].
  rewrite console_unfold, console_unfold.
  rewrite example_entry. done.
Qed.

(** X15. Two workers with different names that run the example one after
    the other on a store whose file [_initialize_memory] has just made: the
    first prints nothing, the second prints that there may be a conflict and
    that it found the pattern of the first; the store then holds both
    workers and one conflict, between two equal values. *)
Theorem two_example_workers_report_a_conflict memory a b w out :
  lock_path memory ≠ memory_path memory →
  files w !! memory_path memory = None →
  a ≠ b →
  ∃ t doc conflict,
    (_ ← on_disk (_initialize_memory memory);
     _ ← example_agent_workflow a memory;
     example_agent_workflow b memory) (mkTerminal w out) = (Ok tt, t)
    ∧ printed t
      = (out ++ [ conflict_line b "api_endpoint_pattern";
                  found_line b a "api_endpoint_pattern" ])%list
    ∧ document memory (disk t) = Some doc
    ∧ Dict.keys (namespaces doc) = [a; b]
    ∧ conflicts doc = [conflict]
    ∧ getitem conflict "agents" = Ok (JArr [JStr b; JStr a])
    ∧ getitem conflict "values" = Ok (JArr [api_pattern; api_pattern]).
Proof.
  intros Hne Hfile Hab.
  destruct (two_workers_new memory w out Hfile) as [Hnew Hdoc0].
  destruct (two_workers_first memory a w) as (Hns1 & _ & Hholders1).
  destruct (two_workers_second memory a b w Hab) as (Hholders2 & Hns2 & Hcs2).
  destruct (example_agent_workflow_run a memory _ out _ Hne Hdoc0
              (is_document_fresh _)) as (Hdoc1 & Hshape1 & Hrun1).
  rewrite Hholders1, Hns1 in Hrun1. cbn [bool_decide app] in Hrun1.
  rewrite app_nil_r in Hrun1.
  cbn [for_in] in Hrun1.
  rewrite console_unfold, report_worker_self in Hrun1.
  destruct (example_agent_workflow_run b memory _ out _ Hne Hdoc1 Hshape1)
    as (Hdoc2 & Hshape2 & Hrun2).
  rewrite Hholders2, Hns2 in Hrun2.
  rewrite bool_decide_false in Hrun2 by done.
  cbn [for_in] in Hrun2.
  rewrite console_unfold, report_worker_example in Hrun2 by done.
  rewrite console_unfold, report_worker_self in Hrun2.
  rewrite <- app_assoc in Hrun2. cbn [app] in Hrun2.
  eexists _, _, _. split.
  { rewrite console_unfold, Hnew, console_unfold, Hrun1.
    cbn [mret Console_ret]. exact Hrun2. }
  cbn [printed disk]. split; [done|]. split; [exact Hdoc2|].
  rewrite Hns2, Hcs2. by split_and!.
Qed.

(** *** What the report prints *)

Lemma report_entry_lines agent_id other_agent item t :
  ∃ r lines,
    report_entry agent_id other_agent item t
    = (r, mkTerminal (disk t) (printed t ++ lines)%list)
    ∧ (lines = [] ∨ lines = [found_line agent_id other_agent item.1]).
Proof.
  destruct item as [k value], t as [w out]. unfold report_entry.
  rewrite console_unfold. unfold on_disk at 1, lift at 1. cbn [disk printed].
  destruct (get_default value "tags" (JArr [])) as [tags|e].
  2:{ exists (Raise e), []. rewrite app_nil_r. by split; [|left]. }
  rewrite console_unfold. unfold on_disk at 1, lift at 1. cbn [disk printed].
  destruct (contains tags "api") as [[]|e].
  - exists (Ok tt), [found_line agent_id other_agent k]. by split; [|right].
  - exists (Ok tt), []. rewrite app_nil_r. by split; [|left].
  - exists (Raise e), []. rewrite app_nil_r. by split; [|left].
Qed.

Lemma for_in_report_entry agent_id other_agent entries :
  ∀ t, ∃ r lines,
    for_in (report_entry agent_id other_agent) entries t
    = (r, mkTerminal (disk t) (printed t ++ lines)%list)
    ∧ Forall (λ line, ∃ k, k ∈ Dict.keys entries
                           ∧ line = found_line agent_id other_agent k) lines.
Proof.
  induction entries as [|item entries IH]; intros t.
  { exists (Ok tt), []. rewrite app_nil_r. destruct t. by split. }
  cbn [for_in]. rewrite console_unfold.
  destruct (report_entry_lines agent_id other_agent item t)
    as (r1 & lines1 & -> & Hlines1).
  assert (Forall (λ line, ∃ k, k ∈ Dict.keys (item :: entries)
                               ∧ line = found_line agent_id other_agent k)
            lines1) as Hfirst.
  { destruct Hlines1 as [->| ->]; [done|]. apply Forall_singleton.
    exists item.1. split; [apply list_elem_of_here|done]. }
  destruct r1 as [[]|e]; [|by exists (Raise e), lines1].
  destruct (IH (mkTerminal (disk t) (printed t ++ lines1)%list))
    as (r2 & lines2 & -> & Hlines2).
  cbn [disk printed]. exists r2, (lines1 ++ lines2)%list.
  rewrite app_assoc. split; [done|]. apply Forall_app. split; [done|].
  eapply Forall_impl; [exact Hlines2|]. intros line (k & Hk & ->).
  exists k. split; [|done]. by apply list_elem_of_further.
Qed.

Lemma for_in_report_worker agent_id workers :
  ∀ t, ∃ r lines,
    for_in (report_worker agent_id) workers t
    = (r, mkTerminal (disk t) (printed t ++ lines)%list)
    ∧ Forall (λ line, ∃ other_agent entries k,
                other_agent ≠ agent_id
                ∧ (other_agent, JObj entries) ∈ workers
                ∧ k ∈ Dict.keys entries
                ∧ line = found_line agent_id other_agent k) lines.
Proof.
  induction workers as [|[other_agent discoveries] workers IH]; intros t.
  { exists (Ok tt), []. rewrite app_nil_r. destruct t. by split. }
  cbn [for_in]. rewrite console_unfold.
  assert (∃ r1 lines1,
            report_worker agent_id (other_agent, discoveries) t
            = (r1, mkTerminal (disk t) (printed t ++ lines1)%list)
            ∧ Forall (λ line, ∃ entries k,
                        other_agent ≠ agent_id
                        ∧ discoveries = JObj entries
                        ∧ k ∈ Dict.keys entries
                        ∧ line = found_line agent_id other_agent k) lines1)
    as (r1 & lines1 & -> & Hlines1).
  { unfold report_worker. case_bool_decide as Hne.
    2:{ exists (Ok tt), []. rewrite app_nil_r. destruct t. by split. }
    rewrite console_unfold. unfold on_disk at 1, lift at 1.
    destruct discoveries as [| | | | | |entries];
      try (exists (Raise AttributeError), []; rewrite app_nil_r;
           destruct t; by split).
    cbn [items]. destruct t as [w out]. cbn [disk printed].
    destruct (for_in_report_entry agent_id other_agent entries (mkTerminal w out))
      as (r & lines & -> & Hlines).
    exists r, lines. split; [done|].
    eapply Forall_impl; [exact Hlines|]. intros line (k & Hk & ->).
    by exists entries, k. }
  assert (Forall (λ line, ∃ other_agent0 entries k,
                    other_agent0 ≠ agent_id
                    ∧ (other_agent0, JObj entries)
                      ∈ (other_agent, discoveries) :: workers
                    ∧ k ∈ Dict.keys entries
                    ∧ line = found_line agent_id other_agent0 k) lines1)
    as Hfirst.
  { eapply Forall_impl; [exact Hlines1|].
    intros line (entries & k & Hne & -> & Hk & ->).
    exists other_agent, entries, k. split_and!; [done| |done..].
    apply list_elem_of_here. }
  destruct r1 as [[]|e]; [|by exists (Raise e), lines1].
  destruct (IH (mkTerminal (disk t) (printed t ++ lines1)%list))
    as (r2 & lines2 & -> & Hlines2).
  cbn [disk printed]. exists r2, (lines1 ++ lines2)%list.
  rewrite app_assoc. split; [done|]. apply Forall_app. split; [done|].
  eapply Forall_impl; [exact Hlines2|].
  intros line (other0 & entries & k & Hne & Hin & Hk & ->).
  exists other0, entries, k. split_and!; [done| |done..].
  by apply list_elem_of_further.
Qed.

Lemma namespaces_unique doc :
  is_document doc = true → Dict.unique_keys (namespaces doc).
Proof.
  intros (top & ds & cs & dec & md & -> & Hds & _ & _ & _ & Hkeys & _)
    %is_document_inv.
  unfold namespaces. by rewrite (getitem_obj _ _ _ Hds).
Qed.

Lemma key_is_Some {V} (k : string) (d : list (string * V)) :
  k ∈ Dict.keys d → is_Some (Dict.get k d).
Proof.
  intros Hk. destruct (Dict.get k d) eqn:Hget; [eauto|].
  by apply get_None in Hget.
Qed.

(** X14. A run of [example_agent_workflow] on a store document stores its
    discovery even if the report that follows raises; it prints the conflict
    line exactly when another worker already holds the key, and then only
    lines that name a discovery another worker has in the store. *)
Theorem the_example_workflow_records_then_reports agent_id memory w out doc :
  lock_path memory ≠ memory_path memory →
  document memory w = Some doc →
  is_document doc = true →
  let discovery := example_discovery agent_id (utc_iso w (ticks w)) in
  ∃ r t lines,
    example_agent_workflow agent_id memory (mkTerminal w out) = (r, t)
    ∧ document memory (disk t)
      = Some (after_discovery discovery (utc_iso w) (S (ticks w)) doc)
    ∧ printed t
      = (out
         ++ (if bool_decide (other_holders discovery doc = []) then []
             else [conflict_line agent_id "api_endpoint_pattern"])
         ++ lines)%list
    ∧ Forall (λ line, ∃ other_agent k,
                other_agent ≠ agent_id
                ∧ is_Some (entry_of doc other_agent k)
                ∧ line = found_line agent_id other_agent k) lines.
Proof.
  intros Hpaths Hdoc Hshape discovery.
  destruct (example_agent_workflow_run agent_id memory w out doc Hpaths Hdoc Hshape)
    as (Hdoc' & Hshape' & Hrun).
  fold discovery in Hdoc', Hshape', Hrun.
  destruct (for_in_report_worker agent_id
              (namespaces (after_discovery discovery (utc_iso w) (S (ticks w)) doc))
              (mkTerminal
                 (exec (get_shared_knowledge memory None)
                    (exec (record_discovery memory discovery) (tick w)))
                 (out ++ if bool_decide (other_holders discovery doc = []) then []
                         else [conflict_line agent_id "api_endpoint_pattern"])%list))
    as (r & lines & Hloop & Hlines).
  rewrite Hloop in Hrun. cbn [disk printed] in Hrun.
  eexists r, _, lines. split; [exact Hrun|]. cbn [disk printed].
  split; [exact Hdoc'|]. split; [by rewrite app_assoc|].
  eapply Forall_impl; [exact Hlines|].
  intros line (other_agent & entries & k & Hne & Hin & Hk & ->).
  exists other_agent, k. split_and!; [done| |done].
  apply (elem_get_Some _ _ _ (namespaces_unique _ Hshape')) in Hin.
  rewrite (after_discovery_namespaces discovery (utc_iso w) (S (ticks w)) doc
             Hshape) in Hin.
  rewrite get_set_ne in Hin by done.
  unfold entry_of, own_entries. rewrite Hin. by apply key_is_Some.
Qed.

(** X14 for a second worker on the sample store. *)
Lemma the_example_workflow_records_then_reports_witness :
  lock_path Sample.store ≠ memory_path Sample.store
  ∧ document Sample.store Sample.world2 = Some Sample.document2
  ∧ is_document Sample.document2 = true
  ∧ ∃ r t,
      example_agent_workflow "backend_agent" Sample.store
        (mkTerminal Sample.world2 []) = (r, t)
      ∧ document Sample.store (disk t)
        = Some (after_discovery
                  (example_discovery "backend_agent"
                     (utc_iso Sample.world2 (ticks Sample.world2)))
                  (utc_iso Sample.world2) (S (ticks Sample.world2))
                  Sample.document2).
Proof.
  assert (lock_path Sample.store ≠ memory_path Sample.store) as H1
    by (vm_compute; discriminate).
  assert (document Sample.store Sample.world2 = Some Sample.document2) as H2
    by (vm_compute; reflexivity).
  assert (is_document Sample.document2 = true) as H3 by (vm_compute; reflexivity).
  repeat (split; [assumption|]).
  destruct (the_example_workflow_records_then_reports "backend_agent"
              Sample.store Sample.world2 [] Sample.document2 H1 H2 H3)
    as (r & t & lines & Hrun & Hdoc & _).
  exists r, t. exact (conj Hrun Hdoc).
Defined.

(** X15 for the two workers of the demonstration. *)
Lemma two_example_workers_report_a_conflict_witness :
  lock_path Sample.store ≠ memory_path Sample.store
  ∧ files Sample.world0 !! memory_path Sample.store = None
  ∧ "frontend_agent" ≠ "backend_agent"
  ∧ ∃ t,
      (_ ← on_disk (_initialize_memory Sample.store);
       _ ← example_agent_workflow "frontend_agent" Sample.store;
       example_agent_workflow "backend_agent" Sample.store)
        (mkTerminal Sample.world0 []) = (Ok tt, t)
      ∧ printed t
        = ([] ++ [ conflict_line "backend_agent" "api_endpoint_pattern";
                   found_line "backend_agent" "frontend_agent"
                     "api_endpoint_pattern" ])%list.
Proof.
  assert (lock_path Sample.store ≠ memory_path Sample.store) as H1
    by (vm_compute; discriminate).
  assert (files Sample.world0 !! memory_path Sample.store = None) as H2
    by reflexivity.
  assert ("frontend_agent" ≠ "backend_agent") as H3 by discriminate.
  repeat (split; [assumption|]).
  destruct (two_example_workers_report_a_conflict Sample.store
              "frontend_agent" "backend_agent" Sample.world0 [] H1 H2 H3)
    as (t & doc & conflict & Hrun & Hprinted & _).
  exists t. exact (conj Hrun Hprinted).
Defined.

(** *** The same call twice *)

Lemma own_entries_after_discovery discovery clock n doc :
  is_document doc = true →
  own_entries (agent_id discovery)
    (namespaces (after_discovery discovery clock n doc))
  = Dict.set (key discovery) (asdict discovery)
      (own_entries (agent_id discovery) (namespaces doc)).
Proof.
  intros Hshape. rewrite after_discovery_namespaces by done.
  unfold own_entries at 1. by rewrite get_set_eq.
Qed.

Lemma other_holders_after_discovery discovery clock n doc :
  is_document doc = true →
  other_holders discovery (after_discovery discovery clock n doc)
  = other_holders discovery doc.
Proof.
  intros Hshape. unfold other_holders.
  rewrite after_discovery_namespaces by done. apply filter_other_holder_set.
Qed.

Lemma namespaces_again discovery clock1 n1 clock2 n2 doc :
  is_document doc = true →
  namespaces (after_discovery discovery clock2 n2
                (after_discovery discovery clock1 n1 doc))
  = namespaces (after_discovery discovery clock1 n1 doc).
Proof.
  intros Hshape.
  rewrite (after_discovery_namespaces discovery clock2 n2
             (after_discovery discovery clock1 n1 doc))
    by by apply after_discovery_is_document.
  rewrite own_entries_after_discovery by done.
  rewrite (after_discovery_namespaces discovery clock1 n1 doc) by done.
  by rewrite !set_set.
Qed.

Lemma total_after_discovery discovery clock n doc :
  is_document doc = true →
  Dict.get "total_discoveries" (metadata (after_discovery discovery clock n doc))
  = Some (JInt (size_sum (namespaces (after_discovery discovery clock n doc)))).
Proof.
  intros Hshape. rewrite after_discovery_metadata by done. by get_set.
Qed.

(** X16. Making the same [record_discovery] call a second time returns what
    the first call returned and leaves the discoveries and their count as
    the first call left them, but appends to the log one more conflict for
    every other worker that holds the key. *)
Theorem recording_again_repeats_the_conflicts self discovery w doc :
  lock_path self ≠ memory_path self →
  document self w = Some doc →
  is_document doc = true →
  let w1 := exec (record_discovery self discovery) w in
  let w2 := exec (record_discovery self discovery) w1 in
  ∃ doc1 doc2,
    document self w1 = Some doc1
    ∧ document self w2 = Some doc2
    ∧ eval (record_discovery self discovery) w1
      = eval (record_discovery self discovery) w
    ∧ namespaces doc2 = namespaces doc1
    ∧ Dict.get "total_discoveries" (metadata doc2)
      = Dict.get "total_discoveries" (metadata doc1)
    ∧ conflicts doc2
      = (conflicts doc1
         ++ new_conflicts discovery (utc_iso w1) (ticks w1)
              (other_holders discovery doc))%list.
Proof.
  intros Hpaths Hdoc Hshape w1 w2.
  pose proof (record_discovery_document self discovery w doc Hpaths Hdoc Hshape)
    as Hdoc1. fold w1 in Hdoc1.
  set (doc1 := after_discovery discovery (utc_iso w) (ticks w) doc) in *.
  assert (is_document doc1 = true) as Hshape1
    by by apply after_discovery_is_document.
  pose proof (record_discovery_document self discovery w1 doc1 Hpaths Hdoc1 Hshape1)
    as Hdoc2. fold w2 in Hdoc2.
  set (doc2 := after_discovery discovery (utc_iso w1) (ticks w1) doc1) in *.
  assert (other_holders discovery doc1 = other_holders discovery doc) as Hsame
    by by apply other_holders_after_discovery.
  assert (namespaces doc2 = namespaces doc1) as Hns.
  { by apply namespaces_again. }
  exists doc1, doc2. split_and!; [done..| | | |].
  - unfold eval.
    rewrite (record_discovery_run self discovery w1 doc1 Hpaths Hdoc1 Hshape1).
    rewrite (record_discovery_run self discovery w doc Hpaths Hdoc Hshape).
    cbn [fst]. by rewrite Hsame.
  - done.
  - unfold doc2, doc1. rewrite !total_after_discovery by done.
    by rewrite namespaces_again.
  - unfold doc2. rewrite after_discovery_conflicts by done. by rewrite Hsame.
Qed.

(** X16 for worker C, whose key worker A holds. *)
Lemma recording_again_repeats_the_conflicts_witness :
  lock_path Sample.store ≠ memory_path Sample.store
  ∧ document Sample.store Sample.world2 = Some Sample.document2
  ∧ is_document Sample.document2 = true
  ∧ ∃ doc1 doc2,
      document Sample.store
        (exec (record_discovery Sample.store Sample.endpoint_C) Sample.world2)
      = Some doc1
      ∧ document Sample.store
          (exec (record_discovery Sample.store Sample.endpoint_C)
             (exec (record_discovery Sample.store Sample.endpoint_C)
                Sample.world2))
        = Some doc2
      ∧ namespaces doc2 = namespaces doc1.
Proof.
  assert (lock_path Sample.store ≠ memory_path Sample.store) as H1
    by (vm_compute; discriminate).
  assert (document Sample.store Sample.world2 = Some Sample.document2) as H2
    by (vm_compute; reflexivity).
  assert (is_document Sample.document2 = true) as H3 by (vm_compute; reflexivity).
  repeat (split; [assumption|]).
  destruct (recording_again_repeats_the_conflicts Sample.store Sample.endpoint_C
              Sample.world2 Sample.document2 H1 H2 H3)
    as (doc1 & doc2 & Hdoc1 & Hdoc2 & _ & Hns & _).
  exists doc1, doc2. exact (conj Hdoc1 (conj Hdoc2 Hns)).
Defined.

(** *** Checkpoints as stores *)

(** X17. A checkpoint can be opened as a store: when the name has no [/]
    and no NUL, [checkpoint] returns a path; [AgentMemory(path)] on that
    path, taken as pathlib keeps it and with a lock file at another path,
    finds the copy and leaves the files as they are; and a script of calls
    on that store leaves a store document that extends the copy, with every
    call returning when the checkpoints of the script have such names
    too. *)
Theorem a_checkpoint_is_a_store `{Pathlib} self checkpoint_name w doc lock script :
  lock_path self ≠ memory_path self →
  document self w = Some doc →
  is_document doc = true →
  plain_name checkpoint_name = true →
  Path (checkpoint_path_at self checkpoint_name w)
  = checkpoint_path_at self checkpoint_name w →
  with_suffix (checkpoint_path_at self checkpoint_name w) ".lock" = Ok lock →
  lock ≠ checkpoint_path_at self checkpoint_name w →
  ∃ path copy doc',
    eval (checkpoint self checkpoint_name) w = Ok path
    ∧ eval (AgentMemory_new path) (exec (checkpoint self checkpoint_name) w)
      = Ok copy
    ∧ memory_path copy = path
    ∧ exec (AgentMemory_new path) (exec (checkpoint self checkpoint_name) w)
      = exec (checkpoint self checkpoint_name) w
    ∧ document copy
        (exec (do_calls copy script) (exec (checkpoint self checkpoint_name) w))
      = Some doc'
    ∧ is_document doc' = true
    ∧ extends (stamped checkpoint_name (utc_iso w (S (ticks w))) doc) doc'
    ∧ (plain_script script = true →
       eval (do_calls copy script) (exec (checkpoint self checkpoint_name) w)
       = Ok tt).
Proof.
  intros Hpaths Hdoc Hshape Hname Hpath Hlock Hcopy.
  set (path := checkpoint_path_at self checkpoint_name w) in *.
  set (copy := mkAgentMemory path lock).
  set (w' := exec (checkpoint self checkpoint_name) w).
  assert (document copy w'
          = Some (stamped checkpoint_name (utc_iso w (S (ticks w))) doc)) as Hdoc'.
  { apply document_Some. unfold w', exec.
    rewrite (checkpoint_run _ _ _ _ Hpaths Hdoc Hshape Hname). cbn.
    fold path. by rewrite lookup_insert_eq. }
  assert (_initialize_memory copy w' = (Ok tt, w')) as Hinit.
  { apply initialize_present. apply document_Some in Hdoc'. eauto. }
  assert (AgentMemory_new path w' = (Ok copy, w')) as Hnew.
  { unfold copy. rewrite <- Hpath at 2.
    apply AgentMemory_new_run; rewrite Hpath; [exact Hlock|exact Hinit]. }
  destruct (do_calls_steps copy script Hcopy w' _ Hdoc'
              (stamped_is_document _ _ _ Hshape))
    as (r & doc' & Heval & Hdoc2 & Hshape2 & Hext & _ & Hplain).
  exists path, copy, doc'. split_and!.
  - unfold eval. by rewrite (checkpoint_run _ _ _ _ Hpaths Hdoc Hshape Hname).
  - unfold eval. by rewrite Hnew.
  - done.
  - unfold exec at 1. by rewrite Hnew.
  - exact Hdoc2.
  - exact Hshape2.
  - exact Hext.
  - intros Hscript. rewrite Heval. auto.
Qed.

(** X17 for a checkpoint of the sample store. *)
Lemma a_checkpoint_is_a_store_witness :
  lock_path Sample.store ≠ memory_path Sample.store
  ∧ document Sample.store Sample.world2 = Some Sample.document2
  ∧ is_document Sample.document2 = true
  ∧ plain_name "nightly" = true
  ∧ Path (checkpoint_path_at Sample.store "nightly" Sample.world2)
    = checkpoint_path_at Sample.store "nightly" Sample.world2
  ∧ with_suffix (checkpoint_path_at Sample.store "nightly" Sample.world2) ".lock"
    = Ok "/shared/checkpoint_nightly_1714557602.lock"
  ∧ "/shared/checkpoint_nightly_1714557602.lock"
    ≠ checkpoint_path_at Sample.store "nightly" Sample.world2
  ∧ plain_script Edge.script = true
  ∧ ∃ path copy,
      eval (checkpoint Sample.store "nightly") Sample.world2 = Ok path
      ∧ eval (do_calls copy Edge.script)
          (exec (checkpoint Sample.store "nightly") Sample.world2) = Ok tt.
Proof.
  assert (lock_path Sample.store ≠ memory_path Sample.store) as H1
    by (vm_compute; discriminate).
  assert (document Sample.store Sample.world2 = Some Sample.document2) as H2
    by (vm_compute; reflexivity).
  assert (is_document Sample.document2 = true) as H3 by (vm_compute; reflexivity).
  assert (plain_name "nightly" = true) as H4 by reflexivity.
  assert (Path (checkpoint_path_at Sample.store "nightly" Sample.world2)
          = checkpoint_path_at Sample.store "nightly" Sample.world2) as H5
    by (vm_compute; reflexivity).
  assert (with_suffix (checkpoint_path_at Sample.store "nightly" Sample.world2)
            ".lock"
          = Ok "/shared/checkpoint_nightly_1714557602.lock") as H6
    by (vm_compute; reflexivity).
  assert ("/shared/checkpoint_nightly_1714557602.lock"
          ≠ checkpoint_path_at Sample.store "nightly" Sample.world2) as H7
    by (vm_compute; discriminate).
  assert (plain_script Edge.script = true) as H8 by (vm_compute; reflexivity).
  repeat (split; [assumption|]).
  destruct (a_checkpoint_is_a_store Sample.store "nightly" Sample.world2
              Sample.document2 "/shared/checkpoint_nightly_1714557602.lock"
              Edge.script H1 H2 H3 H4 H5 H6 H7)
    as (path & copy & doc' & Hpath & _ & _ & _ & _ & _ & _ & Hcalls).
  exists path, copy. exact (conj Hpath (Hcalls H8)).
Defined.
